(** * PDFtranscript: layout-to-semantics reconstruction

    A shallow embedding of [pdftranscript/transcript.py]: the lxml document
    is an arena of nodes addressed by index, Python exceptions are an
    explicit result type, and every pass of [semanticize] is a function
    threading the arena.  The second half of the file states and proves the
    properties of the passes. *)

From Stdlib Require Import ZArith String Ascii List Lia Bool DecimalString Sorted.
From stdpp Require Import base list strings sorting.
Import ListNotations.

(** ** Exceptions *)

(** The Python exceptions the passes can raise.  [BadRef] is not a Python
    exception: it marks an index that names no node of the arena, which no
    element obtained from a parsed document ever is. *)
Inductive exn : Type :=
  | IndexError | KeyError | AttributeError | ValueError | AssertionError
  | BadRef.

Inductive res (A : Type) : Type :=
  | Ok (a : A)
  | Raise (e : exn).
Arguments Ok {A} a.
Arguments Raise {A} e.

#[global] Instance res_ret : MRet res := λ A a, Ok a.
#[global] Instance res_bind : MBind res := λ A B k r,
  match r with
  | Ok a => k a
  | Raise e => Raise e
  end.

Definition of_option {A : Type} (e : exn) (o : option A) : res A :=
  match o with
  | Some a => Ok a
  | None => Raise e
  end.

Definition is_ok {A : Type} (r : res A) : bool :=
  match r with Ok _ => true | Raise _ => false end.

(** A loop body run over a list, left to right, stopping at the first
    exception: [for x in xs: s = body(s, x)]. *)
Fixpoint for_each {S X : Type} (body : S → X → res S) (xs : list X) (s : S)
  : res S :=
  match xs with
  | [] => Ok s
  | x :: xs' => s' ← body s x; for_each body xs' s'
  end.

(** ** Python strings

    Text is modelled as byte strings (UTF-8): the character classes below
    are the ASCII ones. *)
Module Py.

Definition isspace (c : ascii) : bool :=
  let n := nat_of_ascii c in
  ((9 <=? n) && (n <=? 13)) || ((28 <=? n) && (n <=? 32)).

Definition isdigit (c : ascii) : bool :=
  let n := nat_of_ascii c in (48 <=? n) && (n <=? 57).

(** [s.startswith(p)] *)
Fixpoint startswith (p s : string) : bool :=
  match p, s with
  | EmptyString, _ => true
  | String a p', String b s' => Ascii.eqb a b && startswith p' s'
  | String _ _, EmptyString => false
  end.

(** [a in b] on strings *)
Fixpoint contains (a b : string) : bool :=
  startswith a b ||
  match b with
  | EmptyString => false
  | String _ b' => contains a b'
  end.

Definition snoc (s : string) (c : ascii) : string := s +:+ String c "".

(** [s.split(sep)] for a non-empty [sep]: [skip] counts the characters of
    a separator just matched that are still to be passed over. *)
Fixpoint split_go (sep : string) (skip : nat) (cur s : string) : list string :=
  match s with
  | EmptyString => [cur]
  | String c s' =>
      match skip with
      | S k => split_go sep k cur s'
      | O =>
          if startswith sep s
          then cur :: split_go sep (String.length sep - 1) "" s'
          else split_go sep 0 (snoc cur c) s'
      end
  end.

Definition split (sep s : string) : list string := split_go sep 0 "" s.

(** [s.split()]: maximal runs of non-whitespace. *)
Fixpoint words_go (space : ascii → bool) (cur : option string) (s : string)
  : list string :=
  match s with
  | EmptyString => match cur with Some w => [w] | None => [] end
  | String c s' =>
      if space c
      then match cur with
           | Some w => w :: words_go space None s'
           | None => words_go space None s'
           end
      else words_go space (Some (snoc (default "" cur) c)) s'
  end.

Definition words (s : string) : list string := words_go isspace None s.

Fixpoint lstrip (s : string) : string :=
  match s with
  | EmptyString => ""
  | String c s' => if isspace c then lstrip s' else s
  end.

Definition strip (s : string) : string :=
  String.rev (lstrip (String.rev (lstrip s))).

Fixpoint filter (f : ascii → bool) (s : string) : string :=
  match s with
  | EmptyString => ""
  | String c s' => if f c then String c (filter f s') else filter f s'
  end.

(** [sep.join(l)] *)
Definition join (sep : string) (l : list string) : string :=
  String.concat sep l.

(** Truthiness of a string. *)
Definition truthy (s : string) : bool := negb (String.eqb s "").

(** [int(s, 16)]: optional sign, optional [0x] prefix, hexadecimal digits
    with single underscores between them. *)
Definition hex_digit (c : ascii) : option Z :=
  let n := nat_of_ascii c in
  if (48 <=? n) && (n <=? 57) then Some (Z.of_nat (n - 48))
  else if (97 <=? n) && (n <=? 102) then Some (Z.of_nat (n - 87))
  else if (65 <=? n) && (n <=? 70) then Some (Z.of_nat (n - 55))
  else None.

(** [after_digit] tells whether the previous character was a digit, so
    that an underscore is allowed here. *)
Fixpoint hex_go (after_digit : bool) (acc : Z) (s : string) : option Z :=
  match s with
  | EmptyString => if after_digit then Some acc else None
  | String c s' =>
      if Ascii.eqb c "_"
      then if after_digit
           then match s' with
                | EmptyString => None
                | String c' _ =>
                    if Ascii.eqb c' "_" then None else hex_go false acc s'
                end
           else None
      else match hex_digit c with
           | Some v => hex_go true (16 * acc + v)%Z s'
           | None => None
           end
  end.

Definition hex_unsigned (s : string) : option Z :=
  match s with
  | String "0" (String x s') =>
      if Ascii.eqb x "x" || Ascii.eqb x "X"
      then match s' with
           | String "_" s'' => hex_go false 0 s''
           | _ => hex_go false 0 s'
           end
      else hex_go false 0 s
  | _ => hex_go false 0 s
  end.

Definition int16 (s : string) : res Z :=
  of_option ValueError
    match s with
    | String "-" s' => Z.opp <$> hex_unsigned s'
    | String "+" s' => hex_unsigned s'
    | _ => hex_unsigned s
    end.

End Py.

(** ** The document tree

    An lxml tree as an arena: an element is the index of its node.  A node
    keeps what the passes read and write: the tag, the [class] attribute
    ([None] when the attribute is absent), the text before the first child,
    the tail text after the closing tag (which lxml moves and removes
    together with the element), and the ordered children.  The parent is
    not stored: it is the node whose children list holds the element.
    A missing text ([None] in lxml) is the empty string; every use in the
    program treats the two alike. *)
Record node : Type := Node {
  n_tag : string;
  n_class : option string;
  n_text : string;
  n_tail : string;
  n_children : list nat
}.

Abbreviation dom := (list node) (only parsing).

(** The element returned by [fromstring] is stored at index 0. *)
Definition root : nat := 0.

Definition set_tag (t : string) (n : node) : node :=
  Node t (n_class n) (n_text n) (n_tail n) (n_children n).
Definition set_class (c : option string) (n : node) : node :=
  Node (n_tag n) c (n_text n) (n_tail n) (n_children n).
Definition set_text (t : string) (n : node) : node :=
  Node (n_tag n) (n_class n) t (n_tail n) (n_children n).
Definition set_tail (t : string) (n : node) : node :=
  Node (n_tag n) (n_class n) (n_text n) t (n_children n).
Definition set_children (cs : list nat) (n : node) : node :=
  Node (n_tag n) (n_class n) (n_text n) (n_tail n) cs.

Definition mem (e : nat) (l : list nat) : bool := existsb (Nat.eqb e) l.

Definition without (e : nat) (l : list nat) : list nat :=
  List.filter (λ c, negb (c =? e)) l.

Definition get (d : dom) (e : nat) : res node := of_option BadRef (d !! e).

Definition children_of (d : dom) (e : nat) : list nat :=
  match d !! e with
  | Some n => n_children n
  | None => []
  end.

Fixpoint find_parent (e : nat) (ns : list node) (i : nat) : option nat :=
  match ns with
  | [] => None
  | n :: ns' => if mem e (n_children n) then Some i else find_parent e ns' (S i)
  end.

(** [e.getparent()] *)
Definition getparent (d : dom) (e : nat) : option nat := find_parent e d 0.

(** [Element(tag)]: a fresh node with no parent. *)
Definition Element (d : dom) (t : string) : dom * nat :=
  (d ++ [Node t None "" "" []], length d).

(** The element is unlinked from whatever parent holds it. *)
Definition detach (e : nat) (d : dom) : dom :=
  map (λ n, set_children (without e (n_children n)) n) d.

(** [a] is [x] or one of its ancestors; the fuel bounds the climb by the
    number of nodes. *)
Fixpoint ancestor_or_self_go (fuel : nat) (d : dom) (a x : nat) : bool :=
  (a =? x) ||
  match fuel with
  | O => false
  | S k =>
      match getparent d x with
      | Some p => ancestor_or_self_go k d a p
      | None => false
      end
  end.

Definition ancestor_or_self (d : dom) (a x : nat) : bool :=
  ancestor_or_self_go (length d) d a x.

(** [p.append(e)]: lxml moves [e], with its tail, to the end of [p], and
    refuses to put an element under itself. *)
Definition append (d : dom) (p e : nat) : res dom :=
  _ ← get d p;
  _ ← get d e;
  if ancestor_or_self d e p then Raise ValueError
  else Ok (alter (λ n, set_children (n_children n ++ [e]) n) p (detach e d)).

Fixpoint index_of (e : nat) (l : list nat) : option nat :=
  match l with
  | [] => None
  | c :: l' => if c =? e then Some 0 else S <$> index_of e l'
  end.

(** [p.insert(i, e)] *)
Definition insert (d : dom) (p i e : nat) : res dom :=
  _ ← get d p;
  _ ← get d e;
  if ancestor_or_self d e p then Raise ValueError
  else Ok (alter (λ n, set_children
                         (take i (n_children n) ++ e :: drop i (n_children n)) n)
                 p (detach e d)).

(** [e.getnext()] *)
Definition getnext (d : dom) (e : nat) : option nat :=
  p ← getparent d e;
  i ← index_of e (children_of d p);
  children_of d p !! (S i).

(** [e.getprevious()] *)
Definition getprevious (d : dom) (e : nat) : option nat :=
  p ← getparent d e;
  i ← index_of e (children_of d p);
  match i with
  | O => None
  | S j => children_of d p !! j
  end.

(** [e.text_content()]: the text of the element and of everything below
    it, tails of descendants included.  The fuel bounds the depth. *)
Fixpoint text_content_go (fuel : nat) (d : dom) (e : nat) : string :=
  match fuel with
  | O => ""
  | S k =>
      match d !! e with
      | None => ""
      | Some n =>
          n_text n +:+
          String.concat ""
            (map (λ c, text_content_go k d c +:+
                        match d !! c with Some m => n_tail m | None => "" end)
                 (n_children n))
      end
  end.

Definition text_content (d : dom) (e : nat) : string :=
  text_content_go (length d) d e.

(** [e.iter()]: the element and its descendants in document order. *)
Fixpoint iter_go (fuel : nat) (d : dom) (e : nat) : list nat :=
  match fuel with
  | O => []
  | S k => e :: flat_map (iter_go k d) (children_of d e)
  end.

Definition iter (d : dom) (e : nat) : list nat := iter_go (length d) d e.

(** [e.iterancestors()], nearest first. *)
Fixpoint iterancestors_go (fuel : nat) (d : dom) (e : nat) : list nat :=
  match fuel with
  | O => []
  | S k =>
      match getparent d e with
      | Some p => p :: iterancestors_go k d p
      | None => []
      end
  end.

Definition iterancestors (d : dom) (e : nat) : list nat :=
  iterancestors_go (length d) d e.

(** *** Selectors *)

Definition xml_space (c : ascii) : bool :=
  let n := nat_of_ascii c in (n =? 32) || (n =? 9) || (n =? 10) || (n =? 13).

(** The class selector [.tok]: [tok] is one of the whitespace-separated
    tokens of the [class] attribute. *)
Definition has_class (tok : string) (n : node) : bool :=
  match n_class n with
  | Some c => existsb (String.eqb tok) (Py.words_go xml_space None c)
  | None => false
  end.

Definition select (d : dom) (top : nat) (f : node → bool) : list nat :=
  List.filter (λ e, match d !! e with Some n => f n | None => false end)
              (iter d top).

(** [top.cssselect('.tok')] *)
Definition cssselect_class (d : dom) (top : nat) (tok : string) : list nat :=
  select d top (has_class tok).

(** [top.cssselect(tag)] *)
Definition cssselect_tag (d : dom) (top : nat) (t : string) : list nat :=
  select d top (λ n, String.eqb (n_tag n) t).

(** [top.cssselect('.pc > *:first-child')]: the first child of every
    element of class [pc]. *)
Definition cssselect_pc_first_child (d : dom) (top : nat) : list nat :=
  List.filter
    (λ e, match getparent d e with
          | Some p =>
              match d !! p with
              | Some n =>
                  has_class "pc" n && bool_decide (head (n_children n) = Some e)
              | None => false
              end
          | None => false
          end)
    (iter d top).

(** *** The element utilities of the module *)

(** [parent(e)] *)
Definition parent (d : dom) (e : nat) : option nat := getparent d e.

(** [exists(e)] *)
Definition exists_ {A : Type} (e : option A) : bool :=
  match e with Some _ => true | None => false end.

(** [remove(e)]: [parent(e).remove(e)]; an element without a parent has
    [None] for parent, and [None.remove] raises. *)
Definition remove (d : dom) (e : nat) : res dom :=
  _ ← of_option AttributeError (parent d e);
  Ok (detach e d).

(** [insert_after(e, a)] *)
Definition insert_after (d : dom) (e a : nat) : res dom :=
  p ← of_option AttributeError (parent d a);
  i ← of_option ValueError (index_of a (children_of d p));
  insert d p (S i) e.

(** [classn(class_, el)]:
    [el.attrib['class'].split(' ' + class_)[1].split()[0]] *)
Definition classn (class_ : string) (d : dom) (el : nat) : res string :=
  n ← get d el;
  c ← of_option KeyError (n_class n);
  part ← of_option IndexError (Py.split (" " +:+ class_) c !! 1);
  of_option IndexError (Py.words part !! 0).

(** [[f(x) for x in xs]] with a body that may raise. *)
Fixpoint map_res {X Y : Type} (f : X → res Y) (xs : list X) : res (list Y) :=
  match xs with
  | [] => Ok []
  | x :: xs' => y ← f x; ys ← map_res f xs'; Ok (y :: ys)
  end.

(** [e.tag = t], [e.attrib['class'] = c] and the like. *)
Definition modify (d : dom) (e : nat) (f : node → node) : res dom :=
  _ ← get d e;
  Ok (alter f e d).

(** ** Configuration constants *)

Definition MAX_LINE_HEIGHT : Z := 18.
Definition BR : bool := true.
(** The default bullets, as used when no [config.py] extends them. *)
Definition BULLETS : list string := ["•"; "○"; "■"].

(** ** Dimension lookup *)

(** A Python dictionary with string keys, in insertion order. *)
Definition dict (V : Type) : Type := list (string * V).

Definition dict_get {V : Type} (k : string) (m : dict V) : option V :=
  snd <$> List.find (λ kv, String.eqb (fst kv) k) m.

(** [m[k] = v] *)
Fixpoint dict_set {V : Type} (k : string) (v : V) (m : dict V) : dict V :=
  match m with
  | [] => [(k, v)]
  | (k', v') :: m' =>
      if String.eqb k' k then (k', v) :: m' else (k', v') :: dict_set k v m'
  end.

(** What [prepare] builds from the stylesheet: for each of the categories
    [_ fs h x y], the pixel size of every class number, in the order of the
    rules. *)
Record dimensions : Type := Dimensions {
  dim__ : dict Z;
  dim_fs : dict Z;
  dim_h : dict Z;
  dim_x : dict Z;
  dim_y : dict Z
}.

(** [dimensions[dim_type]] *)
Definition dimensions_get (dims : dimensions) (dim_type : string)
  : res (dict Z) :=
  if String.eqb dim_type "_" then Ok (dim__ dims)
  else if String.eqb dim_type "fs" then Ok (dim_fs dims)
  else if String.eqb dim_type "h" then Ok (dim_h dims)
  else if String.eqb dim_type "x" then Ok (dim_x dims)
  else if String.eqb dim_type "y" then Ok (dim_y dims)
  else Raise KeyError.

(** [x or 0] *)
Definition or_zero (o : option Z) : Z :=
  match o with
  | Some v => if (v =? 0)%Z then 0%Z else v
  | None => 0%Z
  end.

(** [get_dimension(el, dim_type)]:
    [dimensions[dim_type].get(classn(dim_type, el)) or 0] *)
Definition get_dimension (dims : dimensions) (d : dom) (el : nat)
  (dim_type : string) : res Z :=
  sizes ← dimensions_get dims dim_type;
  k ← classn dim_type d el;
  Ok (or_zero (dict_get k sizes)).

(** ** Header removal *)

(** The joined text of the topmost elements with digits stripped. *)
Definition header_text (d : dom) (topmost : list nat) : string :=
  Py.strip
    (Py.filter (λ a, negb (Py.isdigit a))
               (Py.join " " (map (text_content d) topmost))).

(** One round of the first loop of [remove_headers]. *)
Definition leading_of (d : dom) (n1 : nat) : res (list nat * string) :=
  n1_y ← classn "y" d n1;
  p ← of_option AttributeError (parent d n1);
  let topmost := cssselect_class d p ("y" +:+ n1_y) in
  Ok (topmost, header_text d topmost).

Definition collect_leading (d : dom) : res (list (list nat * string)) :=
  map_res (leading_of d) (cssselect_pc_first_child d root).

(** [[txt for topmost, txt in leading if txt]] *)
Definition nonempty_texts (leading : list (list nat * string)) : list string :=
  List.filter Py.truthy (map snd leading).

(** [len(texts) > 1 and all(x == texts[-1] for x in texts[1:])] *)
Definition headers_repeat (texts : list string) : bool :=
  (1 <? length texts) &&
  forallb (λ x, String.eqb x (List.last texts "")) (List.tl texts).

(** The second loop of [remove_headers], run when the headers repeat. *)
Definition remove_leading (texts : list string) (d : dom)
  (page : list nat * string) : res dom :=
  let '(topmost, txt) := page in
  if Py.contains (List.last texts "") txt
  then for_each remove topmost d
  else Ok d.

Definition remove_headers (d : dom) : res dom :=
  leading ← collect_leading d;
  let texts := nonempty_texts leading in
  if headers_repeat texts
  then for_each (remove_leading texts) leading d
  else Ok d.

(** ** Geometry resolution *)

(** The records of [grid_data] ([types.SimpleNamespace]). *)
Record ns : Type := NS {
  page : Z;
  x : Z;
  y : Z;
  elem : nat;
  clipbox : option nat;
  lines : list nat;
  text : string
}.

Definition set_lines (ls : list nat) (c : ns) : ns :=
  NS (page c) (x c) (y c) (elem c) (clipbox c) ls (text c).

(** [el.attrib.get('class', '').startswith(p)] *)
Definition class_startswith (p : string) (n : node) : bool :=
  Py.startswith p (default "" (n_class n)).

(** The page number from the nearest page container among the ancestors,
    0 when there is none. *)
Fixpoint page_of (d : dom) (ancestors : list nat) : res Z :=
  match ancestors with
  | [] => Ok 0%Z
  | anc :: rest =>
      n ← get d anc;
      if class_startswith "pc " n
      then s ← classn "pc" d anc; Py.int16 s
      else page_of d rest
  end.

Definition paper_height : Z := 850.

(** The body of the loop of [grid_data] for the line [l]. *)
Definition grid_line (get_dimension : dom → nat → string → res Z)
  (d : dom) (l : nat) : res ns :=
  page ← page_of d (iterancestors d l);
  p ← of_option AttributeError (parent d l);
  pn ← get d p;
  let cb := if class_startswith "c " pn then Some p else None in
  x ← get_dimension d l "x";
  yb ← get_dimension d l "y";
  yh ← get_dimension d l "h";
  let y := (yb + yh)%Z in
  '(x, y) ← match cb with
            | Some c =>
                cx ← get_dimension d c "x";
                cy ← get_dimension d c "y";
                Ok ((cx + x)%Z, cy)
            | None => Ok (x, y)
            end;
  let y := (paper_height - y)%Z in
  n ← get d l;
  Ok (NS page x y l cb [] (n_text n)).

Definition grid_data (d : dom)
  (get_dimension : dom → nat → string → res Z) : res (list ns) :=
  map_res (grid_line get_dimension d) (cssselect_class d root "t").

(** ** Table reconstruction *)

(** [sorted(xs, key=...)]: a stable sort, [le] comparing the keys. *)
Fixpoint insert_sorted {A : Type} (le : A → A → bool) (a : A) (l : list A)
  : list A :=
  match l with
  | [] => [a]
  | b :: l' => if le a b then a :: l else b :: insert_sorted le a l'
  end.

Definition sorted {A : Type} (le : A → A → bool) (l : list A) : list A :=
  foldr (insert_sorted le) [] l.

(** The order of the tuples [(c.page, c.y, c.x)]. *)
Definition key_le (a b : ns) : bool :=
  (page a <? page b)%Z ||
  ((page a =? page b)%Z &&
   ((y a <? y b)%Z || ((y a =? y b)%Z && (x a <=? x b)%Z))).

(** [m.setdefault(k, []).append(v)] on a dictionary in insertion order. *)
Fixpoint setdefault_append {K V : Type} `{EqDecision K} (k : K) (v : V)
  (m : list (K * list V)) : list (K * list V) :=
  match m with
  | [] => [(k, [v])]
  | (k', vs) :: m' =>
      if decide (k' = k) then (k', vs ++ [v]) :: m'
      else (k', vs) :: setdefault_append k v m'
  end.

Definition lookup_key {K V : Type} `{EqDecision K} (k : K) (m : list (K * V))
  : option V :=
  snd <$> List.find (λ kv, bool_decide (fst kv = k)) m.

(** [m[k] = v] for a key already present. *)
Definition rebind {K V : Type} `{EqDecision K} (k : K) (v : V)
  (m : list (K * V)) : list (K * V) :=
  map (λ kv, if decide (fst kv = k) then (fst kv, v) else kv) m.

(** The records are objects shared between the sorted list, the row lists
    and the loops that mutate [lines]: a record is addressed by its
    position in the sorted list, which serves as the store.  The row key,
    the string [f'{c.page:d},{c.y:d}'], is kept as the pair it prints. *)
Definition row_key : Type := (Z * Z)%type.
Definition rows_t : Type := list (row_key * list nat).
Definition cboxes_t : Type := list (option nat * list nat).

Definition key_of (c : ns) : row_key := (page c, y c).

(** The first loop: row lists and clip-box groups. *)
Definition bucket_step (acc : rows_t * cboxes_t) (ic : nat * ns)
  : rows_t * cboxes_t :=
  let '(rows, cboxes) := acc in
  let '(i, c) := ic in
  (setdefault_append (key_of c) i rows,
   setdefault_append (clipbox c) (elem c) cboxes).

Definition bucket (store : list ns) : rows_t * cboxes_t :=
  fold_left bucket_step (imap (λ i c, (i, c)) store) ([], []).

(** Equality of two records, as [SimpleNamespace.__eq__] compares them:
    attribute by attribute. *)
Definition ns_eqb (a b : ns) : bool :=
  bool_decide (page a = page b) && bool_decide (x a = x b) &&
  bool_decide (y a = y b) && bool_decide (elem a = elem b) &&
  bool_decide (clipbox a = clipbox b) && bool_decide (lines a = lines b) &&
  String.eqb (text a) (text b).

(** [c != cell] for two references into the store. *)
Definition ref_neb (store : list ns) (c cell : nat) : bool :=
  match store !! c, store !! cell with
  | Some a, Some b => negb (ns_eqb a b)
  | _, _ => negb (c =? cell)
  end.

Record merge_state : Type := MergeState {
  m_store : list ns;
  m_rows : rows_t;
  m_merged : list (option nat)
}.

(** The body of [for cell in row]. *)
Definition merge_cell (cboxes : cboxes_t) (key : row_key) (s : merge_state)
  (cell : nat) : res merge_state :=
  c ← of_option BadRef (m_store s !! cell);
  if bool_decide (clipbox c ∈ m_merged s)
  then
    cur ← of_option KeyError (lookup_key key (m_rows s));
    Ok (MergeState (m_store s)
          (rebind key (List.filter (λ c', ref_neb (m_store s) c' cell) cur)
                  (m_rows s))
          (m_merged s))
  else
    ls ← of_option KeyError (lookup_key (clipbox c) cboxes);
    Ok (MergeState (alter (set_lines ls) cell (m_store s))
          (m_rows s)
          (m_merged s ++ [clipbox c])).

(** The second loop.  [rows.items()] is walked while [rows[key]] is
    rebound, but only for the key being visited, whose list [row] was
    fetched before: the walk sees the lists of the first loop. *)
Definition merge (cboxes : cboxes_t) (rows : rows_t) (store : list ns)
  : res merge_state :=
  for_each (λ s kr, for_each (merge_cell cboxes (fst kr)) (snd kr) s)
           rows (MergeState store rows []).

(** [rows.values()], every reference read through the store. *)
Definition rows_values (s : merge_state) : res (list (list ns)) :=
  map_res (λ kr, map_res (λ i, of_option BadRef (m_store s !! i)) (snd kr))
          (m_rows s).

(** [for line in cell.lines[1:]] *)
Definition cell_line (el : nat) (d : dom) (line : nat) : res dom :=
  d ← modify d line (set_class (Some ""));
  d ← (if BR
       then let '(d', br) := Element d "br" in append d' el br
       else Ok d);
  append d el line.

(** [for cell in row], inside a table row [tr]. *)
Definition retag_cell (tr : nat) (d : dom) (cell : ns) : res dom :=
  d ← modify d (elem cell) (set_tag "td");
  d ← modify d (elem cell) (set_class (Some ""));
  d ← for_each (cell_line (elem cell)) (List.tl (lines cell)) d;
  append d tr (elem cell).

(** [len([c for c in row if c.text])] *)
Definition count_text (row : list ns) : nat :=
  length (List.filter (λ c, Py.truthy (text c)) row).

(** [for row in rows.values()] *)
Definition retag_row (d : dom) (row : list ns) : res dom :=
  if 1 <? count_text row
  then
    c0 ← of_option IndexError (head row);
    tr ← of_option AttributeError (parent d (elem c0));
    d ← modify d tr (set_tag "tr");
    for_each (retag_cell tr) row d
  else Ok d.

Definition retag_rows (d : dom) (rows : list (list ns)) : res dom :=
  for_each retag_row rows d.

(** [e.drop_tag()] of [lxml.html]: the element goes, its text, children
    and tail are merged into the parent at its place. *)
Definition drop_tag (d : dom) (e : nat) : res dom :=
  p ← of_option AssertionError (getparent d e);
  n ← get d e;
  let previous := getprevious d e in
  let merge_before (t : string) (d : dom) : dom :=
    match previous with
    | None => alter (λ m, set_text (n_text m +:+ t) m) p d
    | Some q => alter (λ m, set_tail (n_tail m +:+ t) m) q d
    end in
  let d1 := if Py.truthy (n_text n) then merge_before (n_text n) d else d in
  let d2 :=
    if Py.truthy (n_tail n)
    then match List.last (Some <$> n_children n) None with
         | Some l => alter (λ m, set_tail (n_tail m +:+ n_tail n) m) l d1
         | None => merge_before (n_tail n) d1
         end
    else d1 in
  i ← of_option ValueError (index_of e (children_of d2 p));
  Ok (alter (λ m, set_children
                    (take i (n_children m) ++ n_children n ++
                     drop (S i) (n_children m)) m) p
        (alter (set_children []) e d2)).

(** The element after [e] in document order below [top], as the iterator
    of [top.iter()] finds it: the first child, else the next sibling of
    the element or of its nearest ancestor that has one. *)
Fixpoint next_up (fuel : nat) (d : dom) (top e : nat) : option nat :=
  if e =? top then None
  else match getnext d e with
       | Some s => Some s
       | None =>
           match fuel with
           | O => None
           | S k =>
               match getparent d e with
               | Some p => next_up k d top p
               | None => None
               end
           end
       end.

Definition next_node (d : dom) (top e : nat) : option nat :=
  match children_of d e with
  | c :: _ => Some c
  | [] => next_up (length d) d top e
  end.

(** [e.tag in ('span', 'div') and not text or text == ' '] *)
Definition droppable (d : dom) (e : nat) : bool :=
  let text := text_content d e in
  let t := match d !! e with Some n => n_tag n | None => "" end in
  ((String.eqb t "span" || String.eqb t "div") && negb (Py.truthy text))
  || String.eqb text " ".

(** [for e in dom.iter(): ...]: the iterator has already stepped to the
    successor of [e] when the body runs on [e], so the tree is walked
    while it changes.  Every element is visited at most once, which the
    fuel [length d] accounts for. *)
Fixpoint drop_empty_go (fuel : nat) (d : dom) (cur : option nat) : res dom :=
  match fuel, cur with
  | S k, Some e =>
      let nxt := next_node d root e in
      d ← (if droppable d e then drop_tag d e else Ok d);
      drop_empty_go k d nxt
  | _, _ => Ok d
  end.

Definition drop_empty (d : dom) : res dom :=
  drop_empty_go (length d) d (Some root).

(** [wrap_set(dom, child_tag, parent_tag)].  [nxt] starts as the integer 0,
    which like [None] is different from every element: both are [None]
    here.  [box] is unbound until the first round binds it. *)
Definition wrap_step (parent_tag : string)
  (s : dom * option nat * option nat) (e : nat)
  : res (dom * option nat * option nat) :=
  let '(d, nxt, box) := s in
  '(d, box) ← (if bool_decide (nxt = Some e) then Ok (d, box)
               else let '(d', b) := Element d parent_tag in
                    d'' ← insert_after d' b e; Ok (d'', Some b));
  b ← of_option AttributeError box;
  d ← append d b e;
  p ← of_option AttributeError (parent d e);
  let nxt := match getnext d p with
             | Some n => Some n
             | None => getnext d e
             end in
  Ok (d, nxt, box).

Definition wrap_set (d : dom) (child_tag parent_tag : string) : res dom :=
  '(d, _, _) ← for_each (wrap_step parent_tag)
                         (cssselect_tag d root child_tag) (d, None, None);
  Ok d.

(** [reconstruct_tables(dom, data)] *)
Definition reconstruct_tables (d : dom) (data : list ns) : res dom :=
  let store := sorted key_le data in
  let '(rows, cboxes) := bucket store in
  s ← merge cboxes rows store;
  rows ← rows_values s;
  d ← retag_rows d rows;
  d ← drop_empty d;
  wrap_set d "tr" "table".

(** ** Heading levels *)

(** [(len(dom.cssselect('.fs' + cssn)), cssn, fs)] for every font-size
    class, in the order of [dimensions['fs'].items()]. *)
Definition fs_stats (d : dom) (dims : dimensions) : list (nat * string * Z) :=
  map (λ kv, (length (cssselect_class d root ("fs" +:+ fst kv)), fst kv, snd kv))
      (dim_fs dims).

Definition stat_count (s : nat * string * Z) : nat := fst (fst s).
Definition stat_cssn (s : nat * string * Z) : string := snd (fst s).
Definition stat_size (s : nat * string * Z) : Z := snd s.

(** [sorted(fs_stats, key=lambda x: x[0], reverse=True)]: descending,
    equal counts staying in their original order. *)
Definition top_stats (stats : list (nat * string * Z)) : list (nat * string * Z) :=
  sorted (λ a b, stat_count b <=? stat_count a) stats.

(** The loop assigning [h_levels[cssn] = level] with [level] counting up. *)
Fixpoint assign_levels (headings : list (nat * string * Z)) (level : nat)
  (h_levels : dict nat) : dict nat :=
  match headings with
  | [] => h_levels
  | s :: rest => assign_levels rest (S level) (dict_set (stat_cssn s) level h_levels)
  end.

Definition heading_levels (d : dom) (dims : dimensions) : res (dict nat) :=
  let stats := fs_stats d dims in
  top ← of_option IndexError (head (top_stats stats));
  let prevalent_fs := stat_size top in
  let headings :=
    List.filter (λ s, (prevalent_fs <? stat_size s)%Z) (rev stats) in
  Ok (assign_levels headings 1 []).

(** ** Block reconstruction: the main loop of [semanticize] *)

(** The values carried from one line to the next.  [p_look], [p_tag] and
    [box] start as the integer 0, which is no string and no element:
    [None] here.  [p_space] starts as 0, which equals [False]. *)
Record loop_state : Type := LoopState {
  p_look : option string;
  p_height : Z;
  p_space : bool;
  p_tag : option string;
  box : option nat
}.

Definition initial_state : loop_state := LoopState None 0 false None None.

(** [[c for c in classes if c[0] != 'y' and c[0:2] != 'fc']], joined. *)
Definition keeps (c : string) : bool :=
  negb (Py.startswith "y" c) && negb (Py.startswith "fc" c).

Definition look_of (class_attr : string) : string :=
  Py.join " " (List.filter keeps (Py.words class_attr)).

(** [f'h{level}'] *)
Definition heading_tag (level : nat) : string :=
  "h" +:+ NilEmpty.string_of_uint (Nat.to_uint level).

(** What the loop works out about a line before it touches the tree. *)
Record analysis : Type := Analysis {
  a_look : string;
  a_new_look : bool;
  a_height : Z;
  a_margin : bool;
  a_space : bool;
  a_default : bool;
  a_txt : string;
  a_append : bool;
  a_tag : string
}.

(** [new_look == p_space == margin is False] *)
Definition chained (new_look p_space margin : bool) : bool :=
  Bool.eqb new_look p_space && Bool.eqb p_space margin && negb margin.

Definition bulleted (txt : string) : bool :=
  existsb (λ b, Py.startswith b txt) BULLETS.

(** The list-item rule. *)
Definition li_rule (st : loop_state) (look txt : string) (append : bool)
  : string * bool :=
  let indent := negb (Py.contains "x0" look) in
  if bulleted txt then ("li", false)
  else if indent && bool_decide (p_tag st = Some "li") then ("li", true)
  else ("p", append).

(** The heading rule. *)
Definition heading_rule (h_levels : dict nat) (size : string)
  (ta : string * bool) : string * bool :=
  match dict_get size h_levels with
  | Some level => (heading_tag level, false)
  | None => ta
  end.

Definition analyse (dims : dimensions) (h_levels : dict nat)
  (st : loop_state) (d : dom) (l : nat) : res analysis :=
  n ← get d l;
  class_attr ← of_option KeyError (n_class n);
  let look := look_of class_attr in
  let new_look := negb (bool_decide (p_look st = Some look)) in
  height ← get_dimension dims d l "h";
  let line_height := (p_height st - height)%Z in
  let margin := (MAX_LINE_HEIGHT <? line_height)%Z in
  let space := negb (Py.truthy (Py.strip (text_content d l))) in
  let append := chained new_look (p_space st) margin in
  let txt := text_content d l in
  let ta := li_rule st look txt append in
  size ← classn "fs" d l;
  let ta := heading_rule h_levels size ta in
  Ok (Analysis look new_look height margin space append txt (snd ta) (fst ta)).

(** The part of the body that changes the tree, and the new [box]. *)
Definition merge_line (a : analysis) (st : loop_state) (d : dom) (l : nat)
  : res (dom * option nat) :=
  if Py.truthy (Py.strip (a_txt a))
  then
    if a_append a
    then
      b ← of_option AttributeError (box st);
      d ← (if BR
           then let '(d', br) := Element d "br" in append d' b br
           else Ok d);
      d ← append d b l;
      Ok (d, box st)
    else
      d ← modify d l (set_tag (a_tag a));
      Ok (d, Some l)
  else
    d ← remove d l;
    Ok (d, box st).

(** One round of [for l in dom.cssselect('.t')]. *)
Definition line_step (dims : dimensions) (h_levels : dict nat)
  (s : loop_state * dom) (l : nat) : res (loop_state * dom) :=
  let '(st, d) := s in
  a ← analyse dims h_levels st d l;
  '(d, b) ← merge_line a st d l;
  Ok (LoopState (Some (a_look a)) (a_height a) (a_space a) (Some (a_tag a)) b,
      d).

Definition block_pass (dims : dimensions) (h_levels : dict nat) (d : dom)
  : res (loop_state * dom) :=
  for_each (line_step dims h_levels) (cssselect_class d root "t")
           (initial_state, d).

(** ** Sample documents

    Small trees in the shape pdf2htmlEX produces: a page container [pc]
    holding lines [t], some of them inside clip boxes [c]. *)

Definition sample_dims : dimensions :=
  Dimensions []
    [("0", 10%Z); ("1", 24%Z); ("2", 8%Z)]
    [("2", 12%Z); ("3", 30%Z)]
    [("0", 0%Z); ("1", 100%Z); ("2", 300%Z)]
    [("0", 0%Z); ("1", 700%Z); ("2", 600%Z); ("3", 688%Z)].

(** Two lines of a heading in the large font, then three body lines. *)
Definition doc_heading : dom :=
  [ Node "div" (Some "pc pc1 w0 h0") "" "" [1; 2; 3; 4; 5];
    Node "div" (Some "t m0 x0 h3 y9 ff1 fs1 fc0") "Annual" "" [];
    Node "div" (Some "t m0 x0 h3 y8 ff1 fs1 fc0") "Report" "" [];
    Node "div" (Some "t m0 x0 h2 y7 ff1 fs0 fc0") "first" "" [];
    Node "div" (Some "t m0 x0 h2 y6 ff1 fs0 fc0") "  " "" [];
    Node "div" (Some "t m0 x0 h2 y5 ff1 fs0 fc0") "second" "" [] ].

(** A bullet, then two indented lines of different looks. *)
Definition doc_list : dom :=
  [ Node "div" (Some "pc pc1 w0 h0") "" "" [1; 2; 3];
    Node "div" (Some "t m0 x0 h2 y9 ff1 fs0 fc0") "• item" "" [];
    Node "div" (Some "t m0 x1 h2 y8 ff1 fs0 fc0") "goes on" "" [];
    Node "div" (Some "t m0 x1 h2 y7 ff2 fs0 fc0") "and on" "" [] ].

(** A line whose class attribute has no font-size token. *)
Definition doc_no_fs : dom :=
  [ Node "div" (Some "pc pc1 w0 h0") "" "" [1];
    Node "div" (Some "t m0 x0 h2 y9") "text" "" [] ].

(** Four lines, each in a clip box of its own, two to a row. *)
Definition doc_grid : dom :=
  [ Node "div" (Some "pc pc1 w0 h0") "" "" [1; 3; 5; 7];
    Node "div" (Some "c x1 y1 w2 h3") "" "" [2];
    Node "div" (Some "t m0 x0 h2 y0 ff1 fs0 fc0") "a" "" [];
    Node "div" (Some "c x2 y1 w2 h3") "" "" [4];
    Node "div" (Some "t m0 x0 h2 y0 ff1 fs0 fc0") "b" "" [];
    Node "div" (Some "c x1 y2 w2 h3") "" "" [6];
    Node "div" (Some "t m0 x0 h2 y0 ff1 fs0 fc0") "c" "" [];
    Node "div" (Some "c x2 y2 w2 h3") "" "" [8];
    Node "div" (Some "t m0 x0 h2 y0 ff1 fs0 fc0") "d" "" [] ].

(** The same four lines placed on the page without clip boxes. *)
Definition doc_grid_plain : dom :=
  [ Node "div" (Some "pc pc1 w0 h0") "" "" [1; 2; 3; 4];
    Node "div" (Some "t m0 x1 h2 y1 ff1 fs0 fc0") "a" "" [];
    Node "div" (Some "t m0 x2 h2 y1 ff1 fs0 fc0") "b" "" [];
    Node "div" (Some "t m0 x1 h2 y2 ff1 fs0 fc0") "c" "" [];
    Node "div" (Some "t m0 x2 h2 y2 ff1 fs0 fc0") "d" "" [] ].

(** A line whose class attribute has no height token. *)
Definition doc_no_h : dom :=
  [ Node "div" (Some "pc pc1 w0 h0") "" "" [1];
    Node "div" (Some "t m0 x0 y1 ff1 fs0 fc0") "text" "" [] ].

(** Three pages headed "Annual Report" and the year. *)
Definition doc_report : dom :=
  [ Node "div" None "" "" [1; 4; 7];
    Node "div" (Some "pc pc1 w0 h0") "" "" [2; 3];
    Node "div" (Some "t m0 x0 h2 y9 ff1 fs0 fc0") "Annual Report 2020" "" [];
    Node "div" (Some "t m0 x0 h2 y8 ff1 fs0 fc0") "Introduction" "" [];
    Node "div" (Some "pc pc2 w0 h0") "" "" [5; 6];
    Node "div" (Some "t m0 x0 h2 y9 ff1 fs0 fc0") "Annual Report 2021" "" [];
    Node "div" (Some "t m0 x0 h2 y8 ff1 fs0 fc0") "Chapter one" "" [];
    Node "div" (Some "pc pc3 w0 h0") "" "" [8; 9];
    Node "div" (Some "t m0 x0 h2 y9 ff1 fs0 fc0") "Annual Report 2021" "" [];
    Node "div" (Some "t m0 x0 h2 y8 ff1 fs0 fc0") "Chapter two" "" [] ].

(** A title page whose topmost element has no text, a contents page, and
    two pages headed "Chapter". *)
Definition doc_title_page : dom :=
  [ Node "div" None "" "" [1; 3; 5; 7];
    Node "div" (Some "pc pc1 w0 h0") "" "" [2];
    Node "div" (Some "t m0 x0 h2 y9 ff1 fs0 fc0") "" "" [];
    Node "div" (Some "pc pc2 w0 h0") "" "" [4];
    Node "div" (Some "t m0 x0 h2 y9 ff1 fs0 fc0") "Contents" "" [];
    Node "div" (Some "pc pc3 w0 h0") "" "" [6];
    Node "div" (Some "t m0 x0 h2 y9 ff1 fs0 fc0") "Chapter" "" [];
    Node "div" (Some "pc pc4 w0 h0") "" "" [8];
    Node "div" (Some "t m0 x0 h2 y9 ff1 fs0 fc0") "Chapter" "" [] ].

(** A first page whose heading is longer than the one repeated after it. *)
Definition doc_summary : dom :=
  [ Node "div" None "" "" [1; 3; 5];
    Node "div" (Some "pc pc1 w0 h0") "" "" [2];
    Node "div" (Some "t m0 x0 h2 y9 ff1 fs0 fc0") "Annual Report Summary" "" [];
    Node "div" (Some "pc pc2 w0 h0") "" "" [4];
    Node "div" (Some "t m0 x0 h2 y9 ff1 fs0 fc0") "Annual Report" "" [];
    Node "div" (Some "pc pc3 w0 h0") "" "" [6];
    Node "div" (Some "t m0 x0 h2 y9 ff1 fs0 fc0") "Annual Report" "" [] ].

(** ** The header condition in the words of the specification

    At least two pages give a non-empty signature, and all non-empty
    signatures from the second page onward are identical.  [signatures]
    holds the signature of every page, empty ones included. *)
Definition spec_headers_repeat (signatures : list string) : Prop :=
  2 ≤ length (List.filter Py.truthy signatures) ∧
  ∀ a b,
    In a (List.filter Py.truthy (List.tl signatures)) →
    In b (List.filter Py.truthy (List.tl signatures)) →
    a = b.

(** ** Merging in the words of the specification

    What a cell gains from the lines merged into it: for every line a
    fresh [br] element and then the line.  [n] is the index of the first
    [br]. *)
Fixpoint breaks_and_lines (n : nat) (ls : list nat) : list nat :=
  match ls with
  | [] => []
  | l :: ls' => n :: l :: breaks_and_lines (S n) ls'
  end.

(** The lines of a clip-box group, in sorted order, and its
    representative: the first record of the group. *)
Definition same_clipbox (cb : option nat) (c : ns) : bool :=
  bool_decide (clipbox c = cb).

Definition group (store : list ns) (cb : option nat) : list nat :=
  map elem (List.filter (same_clipbox cb) store).

Definition is_first (store : list ns) (i : nat) : bool :=
  match store !! i with
  | Some c => negb (existsb (same_clipbox (clipbox c)) (take i store))
  | None => false
  end.

(** The state of the merge loop once the records before [j] are done:
    each representative carries the lines of its group, the other records
    of the groups are out of the rows. *)
Definition store_upto (store : list ns) (j : nat) : list ns :=
  imap (λ i c, if (i <? j) && is_first store i
               then set_lines (group store (clipbox c)) c else c) store.

Definition rows_upto (store : list ns) (rows : rows_t) (j : nat) : rows_t :=
  map (λ kr, (kr.1, List.filter (λ i, (j <=? i) || is_first store i) kr.2)) rows.

Definition merged_upto (store : list ns) (j : nat) : list (option nat) :=
  flat_map (λ i, match store !! i with
                 | Some c => if is_first store i then [clipbox c] else []
                 | None => []
                 end) (seq 0 j).

Definition state_upto (store : list ns) (rows : rows_t) (j : nat) : merge_state :=
  MergeState (store_upto store j) (rows_upto store rows j) (merged_upto store j).

(** What is left of a row after merging: of each record, the cell it
    stands for if it is the representative of its group, nothing
    otherwise. *)
Definition cell_of (store : list ns) (i : nat) : list ns :=
  match store !! i with
  | Some c =>
      if is_first store i then [set_lines (group store (clipbox c)) c] else []
  | None => []
  end.

Definition merged_row (store : list ns) (row : list nat) : list ns :=
  flat_map (cell_of store) row.

Definition representatives (store : list ns) : list ns :=
  merged_row store (seq 0 (length store)).

(** A clip box with a cell of two lines, and a second clip box in the
    same row. *)
Definition doc_cell : dom :=
  [ Node "div" (Some "pc pc1 w0 h0") "" "" [1; 4];
    Node "div" (Some "c x1 y1 w2 h3") "" "" [2; 3];
    Node "div" (Some "t m0 x0 h2 y2 ff1 fs0 fc0") "first line" "" [];
    Node "div" (Some "t m0 x0 h2 y0 ff1 fs0 fc0") "second line" "" [];
    Node "div" (Some "c x2 y1 w2 h3") "" "" [5];
    Node "div" (Some "t m0 x0 h2 y0 ff1 fs0 fc0") "other" "" [] ].

(** What [grid_data] gives for [doc_cell]. *)
Definition data_cell : list ns :=
  [ NS 1 100 150 2 (Some 1) [] "first line";
    NS 1 100 150 3 (Some 1) [] "second line";
    NS 1 300 150 5 (Some 4) [] "other" ].

(** A clip box with a cell of two lines, alone in its row. *)
Definition doc_lonely_cell : dom :=
  [ Node "div" (Some "pc pc1 w0 h0") "" "" [1];
    Node "div" (Some "c x1 y1 w2 h3") "" "" [2; 3];
    Node "div" (Some "t m0 x0 h2 y2 ff1 fs0 fc0") "first line" "" [];
    Node "div" (Some "t m0 x0 h2 y0 ff1 fs0 fc0") "second line" "" [] ].

(** A line on the page level with a clipped line to its right, and a
    further line on the page level below them. *)
Definition doc_mixed : dom :=
  [ Node "div" None "" "" [1];
    Node "div" (Some "pc pc1 w0 h0") "" "" [2; 3; 5];
    Node "div" (Some "t m0 x0 h2 y3 ff1 fs0 fc0") "left" "" [];
    Node "div" (Some "c x2 y1 w2 h3") "" "" [4];
    Node "div" (Some "t m0 x0 h2 y0 ff1 fs0 fc0") "right" "" [];
    Node "div" (Some "t m0 x0 h2 y0 ff1 fs0 fc0") "below" "" [] ].

(** Four lines with the texts given, each in a clip box of its own, all
    on one page. *)
Definition grid_doc (ta tb tc td : string) : dom :=
  [ Node "div" (Some "pc pc1 w0 h0") "" "" [1; 3; 5; 7];
    Node "div" (Some "c x1 y1 w2 h3") "" "" [2];
    Node "div" (Some "t m0 x0 h2 y0 ff1 fs0 fc0") ta "" [];
    Node "div" (Some "c x2 y1 w2 h3") "" "" [4];
    Node "div" (Some "t m0 x0 h2 y0 ff1 fs0 fc0") tb "" [];
    Node "div" (Some "c x1 y2 w2 h3") "" "" [6];
    Node "div" (Some "t m0 x0 h2 y0 ff1 fs0 fc0") tc "" [];
    Node "div" (Some "c x2 y2 w2 h3") "" "" [8];
    Node "div" (Some "t m0 x0 h2 y0 ff1 fs0 fc0") td "" [] ].

(** The records of its lines: a first row at height [y1] and a second at
    height [y2]. *)
Definition grid_records (p xa xb xc xd y1 y2 : Z) (ta tb tc td : string)
  : list ns :=
  [ NS p xa y1 2 (Some 1) [] ta; NS p xb y1 4 (Some 3) [] tb;
    NS p xc y2 6 (Some 5) [] tc; NS p xd y2 8 (Some 7) [] td ].

(** ** Class attributes as token lists

    pdf2htmlEX writes a class attribute as tokens separated by single
    spaces.  A token is non-empty and holds no whitespace. *)
Fixpoint no_space (s : string) : bool :=
  match s with
  | EmptyString => true
  | String c s' => negb (Py.isspace c) && no_space s'
  end.

Definition token (s : string) : bool := Py.truthy s && no_space s.

(** The attribute value that lists the tokens. *)
Definition class_of (toks : list string) : string := Py.join " " toks.

(** The tokens after the first, each with the space before it. *)
Fixpoint spaced (toks : list string) : string :=
  match toks with
  | [] => ""
  | t :: ts => String " " (t +:+ spaced ts)
  end.

(** What [grid_data] gives for [doc_grid_plain]. *)
Definition data_plain : list ns :=
  [ NS 1 100 138 1 None [] "a"; NS 1 300 138 2 None [] "b";
    NS 1 100 238 3 None [] "c"; NS 1 300 238 4 None [] "d" ].

(** ** Well-formed arenas *)

(** Every child index names a node of the arena. *)
Definition closed (d : dom) : bool :=
  forallb (λ n, forallb (λ c, c <? length d) (n_children n)) d.

(** The nodes are stored in document order: every child comes after its
    parent.  This is how a parsed document is laid out. *)
Definition ordered (d : dom) : bool :=
  forallb (λ '(i, n), forallb (λ c, i <? c) (n_children n))
          (imap (λ i n, (i, n)) d).

(** ** Grouping in the words of the specification

    The tree in which [p] has the children [outside] and a new element
    with the tag [t], stored at the end of the arena, has the children
    [inside]. *)
Definition regrouped (d : dom) (p : nat) (t : string)
  (outside inside : list nat) : dom :=
  alter (set_children outside) p d ++ [Node t None "" "" inside].

(** A paragraph, two list items and a paragraph. *)
Definition doc_items : dom :=
  [ Node "div" None "" "" [1; 2; 3; 4];
    Node "p" None "intro" "" [];
    Node "li" None "one" "" [];
    Node "li" None "two" "" [];
    Node "p" None "outro" "" [] ].

(** ** The block element of the main loop

    What the loop relies on when it appends a line: whenever the values
    carried over from the previous line allow the next one to append, a
    block element has been bound. *)
Definition box_bound (st : loop_state) : Prop :=
  (p_tag st = Some "li" → is_Some (box st)) ∧
  (is_Some (p_look st) → p_space st = false → is_Some (box st)).

(** ** Batch processing *)

(** [batch_process(docs, limit)], over the paths that [glob.glob(docs)]
    gives and with the conversion of one document as a parameter.  An
    exception raised by a conversion is printed and the loop goes on with
    the next path; the result here is the list of the paths converted,
    each with its outcome.  [limit] is [None] or an integer, [i] the
    index that [enumerate] counts. *)
Fixpoint batch_go (semanticize : string → res unit) (limit : option Z) (i : Z)
  (paths : list string) : list (string * res unit) :=
  match paths with
  | [] => []
  | path :: rest =>
      if bool_decide (Some i = limit) then []
      else (path, semanticize path) :: batch_go semanticize limit (i + 1) rest
  end.

Definition batch_process (semanticize : string → res unit)
  (paths : list string) (limit : option Z) : list (string * res unit) :=
  batch_go semanticize limit 0 paths.

(** ** Blocks in the words of the specification

    The tree after the lines [rest] have gone under the line [l1], which
    is re-tagged [tag]: each of them is unlinked from where it was and
    follows a new [br] among the children of [l1]; the [br] elements are
    stored at the end of the arena. *)
Definition strip_lines (ls : list nat) (d : dom) : dom :=
  map (λ n, set_children (List.filter (λ c, negb (mem c ls)) (n_children n)) n) d.

Definition block_of (d : dom) (tag : string) (l1 : nat) (rest : list nat) : dom :=
  alter (λ n, set_children (breaks_and_lines (length d) rest) (set_tag tag n)) l1
        (strip_lines rest d)
  ++ replicate (length rest) (Node "br" None "" "" []).

(** A line of running text in the look [look]: a leaf with text that does
    not start with a bullet, whose font size is no heading size, and whose
    height is [height]. *)
Definition plain_line (dims : dimensions) (h_levels : dict nat) (look : string)
  (d : dom) (l : nat) (height : Z) : Prop :=
  ∃ n cls kf,
    d !! l = Some n ∧ n_children n = [] ∧
    n_class n = Some cls ∧ look_of cls = look ∧
    Py.truthy (Py.strip (n_text n)) = true ∧ bulleted (n_text n) = false ∧
    classn "fs" d l = Ok kf ∧ dict_get kf h_levels = None ∧
    get_dimension dims d l "h" = Ok height.

(** Two lines of one paragraph and a line in another font. *)
Definition doc_para : dom :=
  [ Node "div" (Some "pc pc1 w0 h0") "" "" [1; 2];
    Node "div" (Some "t m0 x0 h2 y9 ff1 fs0 fc0") "It was a dark" "" [];
    Node "div" (Some "t m0 x0 h2 y8 ff1 fs0 fc1") "and stormy night." "" [] ].

(** The tree with the elements [ls] re-tagged [t]. *)
Definition retagged (t : string) (ls : list nat) (d : dom) : dom :=
  imap (λ i n, if mem i ls then set_tag t n else n) d.

(** A line that opens a list item: its text starts with a bullet, and its
    class attribute carries a height and a font size that is no heading
    size. *)
Definition bullet_line (dims : dimensions) (h_levels : dict nat)
  (d : dom) (l : nat) : Prop :=
  ∃ n cls kf height,
    d !! l = Some n ∧ n_class n = Some cls ∧
    bulleted (text_content d l) = true ∧
    classn "fs" d l = Ok kf ∧ dict_get kf h_levels = None ∧
    get_dimension dims d l "h" = Ok height.

(** A heading and two bulleted lines. *)
Definition doc_bullets : dom :=
  [ Node "div" (Some "pc pc1 w0 h0") "" "" [1; 2; 3];
    Node "div" None "Shopping" "" [];
    Node "div" (Some "t m0 x0 h2 y8 ff1 fs0 fc0") "• milk" "" [];
    Node "div" (Some "t m0 x0 h2 y7 ff1 fs0 fc0") "• bread" "" [] ].

(** ** The passes around the main loop *)

(** [for div in dom.cssselect('.j'): remove(div)] *)
Definition remove_holders (d : dom) : res dom :=
  for_each remove (cssselect_class d root "j") d.

(** [del e.attrib[attr]] inside [try: ... except KeyError: pass].  Of the
    attributes the node records the [class] only: deleting another one
    changes nothing that the arena holds. *)
Definition del_attrib (attr : string) (d : dom) (e : nat) : res dom :=
  if String.eqb attr "class" then modify d e (set_class None)
  else _ ← get d e; Ok d.

(** The [STRIP_CSS] block: the [style] elements go, then every element
    loses the five attributes, one attribute after the other. *)
Definition strip_css (d : dom) : res dom :=
  d ← for_each remove (cssselect_tag d root "style") d;
  for_each (λ d attr, for_each (del_attrib attr) (iter d root) d)
           ["style"; "id"; "class"; "data-page-no"; "data-data"] d.

(** The tree with the class attribute of the elements [ls] deleted. *)
Definition declassed (ls : list nat) (d : dom) : dom :=
  imap (λ i n, if mem i ls then set_class None n else n) d.

(** A page with a stylesheet, a script holder and two lines. *)
Definition doc_styled : dom :=
  [ Node "html" None "" "" [1; 2];
    Node "style" None ".t{}" "" [];
    Node "div" (Some "pc pc1 w0 h0") "" "" [3; 4; 5];
    Node "div" (Some "j") "" "" [];
    Node "p" (Some "t m0 x0 h2 y9 ff1 fs0 fc0") "one" "" [];
    Node "p" (Some "t m0 x0 h2 y8 ff1 fs0 fc0") "two" "" [] ].

(** The part of [semanticize] that works on the tree, from the removal of
    the headers to the stripping of the style, on the tree and the
    dimensions that [prepare] gives, with the switches [REMOVE_HEADERS],
    [TABLES] and [STRIP_CSS] on as the module sets them.  The recovery of
    text from fonts, which comes before, and the writing of the file,
    which comes after, are not part of it. *)
Definition semanticize_tree (dims : dimensions) (d : dom) : res dom :=
  d ← remove_headers d;
  d ← remove_holders d;
  table_data ← grid_data d (get_dimension dims);
  d ← reconstruct_tables d table_data;
  h_levels ← heading_levels d dims;
  '(_, d) ← block_pass dims h_levels d;
  d ← wrap_set d "li" "ul";
  strip_css d.

(** No node is a table row, a list item, a style sheet or a script
    holder. *)
Definition plain_tags (d : dom) : bool :=
  forallb (λ n, negb (String.eqb (n_tag n) "tr") &&
                negb (String.eqb (n_tag n) "li") &&
                negb (String.eqb (n_tag n) "style") &&
                negb (has_class "j" n)) d.

(** A page of two lines of running text at different heights. *)
Definition doc_page : dom :=
  [ Node "html" None "" "" [1];
    Node "div" (Some "pc pc1 w0 h0") "" "" [2; 3];
    Node "div" (Some "t m0 x0 h2 y1 ff1 fs0 fc0") "It was a dark" "" [];
    Node "div" (Some "t m0 x0 h2 y2 ff1 fs0 fc0") "and stormy night." "" [] ].

(** ** Trees

    An arena is a tree when its child lists stay inside it, no element
    is listed twice, be it by one node or by two, and the height of a
    child is below the height of its parent, for a height function that
    stays below the size of the arena. *)
Definition tree (height : nat → nat) (d : dom) : Prop :=
  closed d = true ∧
  (∀ q, NoDup (children_of d q)) ∧
  (∀ q q' c, c ∈ children_of d q → c ∈ children_of d q' → q = q') ∧
  (∀ q c, c ∈ children_of d q → height c < height q) ∧
  (∀ x, x < length d → height x < length d).

(** The text that [drop_tag] puts before the place of the element: its
    text, and its tail when it has no child to take the tail. *)
Definition merged_before (n : node) : string :=
  n_text n +:+ match n_children n with [] => n_tail n | _ => "" end.

(** The text and the tail of an element, empty outside the arena, and
    what an element adds to the text content of its parent. *)
Definition text_of (d : dom) (x : nat) : string := default "" (n_text <$> d !! x).
Definition tail_of (d : dom) (x : nat) : string := default "" (n_tail <$> d !! x).
Definition with_tail (fuel : nat) (d : dom) (c : nat) : string :=
  text_content_go fuel d c +:+ tail_of d c.

(** A page with an empty [span], a [div] that holds text and a [span]
    that holds one space. *)
Definition doc_padding : dom :=
  [ Node "html" None "" "" [1];
    Node "div" None "a" "" [2; 3; 5];
    Node "span" None "" "b" [];
    Node "div" None "" "d" [4];
    Node "b" None "c" "" [];
    Node "span" None " " "e" [] ].

(** ** Regular expressions

    The part of Python's [re] that [css_sizes] needs.  Matching is by
    backtracking, as in Python: a greedy repetition tries the longest
    run first, a lazy one the shortest, an optional part is tried before
    it is left out, and the first choice that lets the rest of the
    pattern match is the match.  [k] is the rest of the pattern; the
    strings captured so far are passed along in the order in which the
    groups close. *)
Module Re.

Inductive regex : Type :=
  | Lit (s : string)                       (* the characters of [s] *)
  | Rep (f : ascii → bool) (lo hi : nat)   (* [[f]{lo,hi}] *)
  | Plus (f : ascii → bool)                (* [[f]+] *)
  | LazyStar (f : ascii → bool)            (* [[f]*?] *)
  | Opt (r : regex)                        (* [(?:r)?] *)
  | Group (r : regex)                      (* [(r)] *)
  | Cat (r1 r2 : regex).

(** [.]: any character but a line feed. *)
Definition dot (c : ascii) : bool := negb (Ascii.eqb c "010").

(** [[a-f0-9]] *)
Definition hex_lower (c : ascii) : bool :=
  let n := nat_of_ascii c in
  ((48 <=? n) && (n <=? 57)) || ((97 <=? n) && (n <=? 102)).

Fixpoint drop (n : nat) (s : string) : string :=
  match n, s with
  | S n', String _ s' => drop n' s'
  | _, _ => s
  end.

Fixpoint take (n : nat) (s : string) : string :=
  match n, s with
  | S n', String c s' => String c (take n' s')
  | _, _ => ""
  end.

Section Run.

Context {A : Type}.

Fixpoint rep (f : ascii → bool) (lo hi : nat) (s : string)
  (k : string → option A) : option A :=
  let stop := if lo =? 0 then k s else None in
  match hi, s with
  | S hi', String c s' =>
      if f c
      then match rep f (pred lo) hi' s' k with
           | Some a => Some a
           | None => stop
           end
      else stop
  | _, _ => stop
  end.

Fixpoint lazy (f : ascii → bool) (s : string) (k : string → option A)
  : option A :=
  match k s with
  | Some a => Some a
  | None =>
      match s with
      | String c s' => if f c then lazy f s' k else None
      | EmptyString => None
      end
  end.

Fixpoint run (r : regex) (s : string) (caps : list string)
  (k : string → list string → option A) : option A :=
  match r with
  | Lit l =>
      if Py.startswith l s then k (drop (String.length l) s) caps else None
  | Rep f lo hi => rep f lo hi s (λ rest, k rest caps)
  | Plus f => rep f 1 (String.length s) s (λ rest, k rest caps)
  | LazyStar f => lazy f s (λ rest, k rest caps)
  | Opt r' =>
      match run r' s caps k with
      | Some a => Some a
      | None => k s caps
      end
  | Group r' =>
      run r' s caps
        (λ rest caps',
           k rest (caps' ++ [take (String.length s - String.length rest) s]))
  | Cat r1 r2 => run r1 s caps (λ rest caps', run r2 rest caps' k)
  end.

End Run.

(** [r.match(s)]: the rest of the string after the match and the
    groups. *)
Definition match_ (r : regex) (s : string) : option (string * list string) :=
  run r s [] (λ rest caps, Some (rest, caps)).

(** [re.findall(r, s)] for a pattern with two groups or more: the groups
    of the matches, found from left to right.  The scan goes on where a
    match ended, and one character further on where nothing matched or
    the match was empty. *)
Fixpoint findall_go (fuel : nat) (r : regex) (s : string) : list (list string) :=
  match fuel with
  | O => []
  | S fuel' =>
      let next := match s with
                  | String _ s' => findall_go fuel' r s'
                  | EmptyString => []
                  end in
      match match_ r s with
      | Some (rest, caps) =>
          if String.length rest =? String.length s then caps :: next
          else caps :: findall_go fuel' r rest
      | None => next
      end
  end.

Definition findall (r : regex) (s : string) : list (list string) :=
  findall_go (S (String.length s)) r s.

End Re.

(** Every character of the string is of the class. *)
Fixpoint all_chars (f : ascii → bool) (s : string) : bool :=
  match s with
  | EmptyString => true
  | String c s' => f c && all_chars f s'
  end.

(** What a pattern matches, in the words of the documentation of [re]:
    [matches r w groups] when [r] can match the string [w] with the
    groups [groups]. *)
Fixpoint matches (r : Re.regex) (w : string) (groups : list string) : Prop :=
  match r with
  | Re.Lit l => w = l ∧ groups = []
  | Re.Rep f lo hi =>
      all_chars f w = true ∧ lo ≤ String.length w ∧ String.length w ≤ hi ∧
      groups = []
  | Re.Plus f => all_chars f w = true ∧ 1 ≤ String.length w ∧ groups = []
  | Re.LazyStar f => all_chars f w = true ∧ groups = []
  | Re.Opt r' => (w = "" ∧ groups = []) ∨ matches r' w groups
  | Re.Group r' => ∃ inner, matches r' w inner ∧ groups = inner ++ [w]
  | Re.Cat r1 r2 =>
      ∃ w1 w2 g1 g2, w = w1 +:+ w2 ∧ groups = g1 ++ g2 ∧
                     matches r1 w1 g1 ∧ matches r2 w2 g2
  end.

(** ** The stylesheet *)

(** [int(s)] for the decimal digits that the pattern of [css_sizes]
    captures; anything else is no number. *)
Fixpoint int_go (acc : Z) (s : string) : option Z :=
  match s with
  | EmptyString => Some acc
  | String c s' =>
      if Py.isdigit c
      then int_go (10 * acc + Z.of_nat (nat_of_ascii c - 48))%Z s'
      else None
  end.

Definition int10 (s : string) : res Z :=
  of_option ValueError
    match s with
    | EmptyString => None
    | _ => int_go 0 s
    end.

(** The properties are patterns themselves: the one of [_] ends in
    [.*?], the others are plain words. *)
Definition CSS_CLASS_MAP : dict Re.regex :=
  [ ("_", Re.Cat (Re.Lit "display:") (Re.LazyStar Re.dot));
    ("m", Re.Lit "transform");
    ("w", Re.Lit "width");
    ("h", Re.Lit "height");
    ("x", Re.Lit "left");
    ("y", Re.Lit "bottom");
    ("ff", Re.Lit "font-family");
    ("fs", Re.Lit "font-size");
    ("fc", Re.Lit "color");
    ("sc", Re.Lit "text-shadow");
    ("ls", Re.Lit "letter-spacing");
    ("ws", Re.Lit "word-spacing") ].

(** [(\d{1,3})(?:\.\d+)?px] *)
Definition px_value : Re.regex :=
  Re.Cat (Re.Group (Re.Rep Py.isdigit 1 3))
    (Re.Cat (Re.Opt (Re.Cat (Re.Lit ".") (Re.Plus Py.isdigit))) (Re.Lit "px")).

(** [([a-f0-9]{1,3})] *)
Definition hex_id : Re.regex := Re.Group (Re.Rep Re.hex_lower 1 3).

(** [\.%s%s{%s:%s;}]: the class name stands in the pattern as it is; the
    names of [CSS_CLASS_MAP] are plain words. *)
Definition rule (class_ : string) (property_ : Re.regex) : Re.regex :=
  Re.Cat (Re.Lit ".")
    (Re.Cat (Re.Lit class_)
       (Re.Cat hex_id
          (Re.Cat (Re.Lit "{")
             (Re.Cat property_
                (Re.Cat (Re.Lit ":") (Re.Cat px_value (Re.Lit ";}"))))))).

(** [css_sizes(class_, css)]: a rule found again gives its class number a
    new size at the place the number has in the dictionary. *)
Definition css_sizes (class_ css : string) : res (dict Z) :=
  property_ ← of_option KeyError (dict_get class_ CSS_CLASS_MAP);
  for_each
    (λ sizes groups,
       match groups with
       | [hex_; px_] => v ← int10 px_; Ok (dict_set hex_ v sizes)
       | _ => Raise ValueError
       end)
    (Re.findall (rule class_ property_) css) [].

(** [{x: css_sizes(x, css) for x in '_ fs h x y'.split()}] *)
Definition dimensions_of (css : string) : res dimensions :=
  s_ ← css_sizes "_" css;
  fs ← css_sizes "fs" css;
  h ← css_sizes "h" css;
  x ← css_sizes "x" css;
  y ← css_sizes "y" css;
  Ok (Dimensions s_ fs h x y).

(** ** A stylesheet in the words of its rules *)

(** Any character but a full stop. *)
Definition no_stop (c : ascii) : bool := negb (Ascii.eqb c ".").

(** Between [lo] and [hi] characters of the class [f]. *)
Definition number_ok (f : ascii → bool) (lo hi : nat) (s : string) : bool :=
  (lo <=? String.length s) && (String.length s <=? hi) && all_chars f s.

(** The fraction of a size with its point, or nothing. *)
Definition fraction_ok (frac : string) : bool :=
  match frac with
  | EmptyString => true
  | String c ds => Ascii.eqb c "." && number_ok Py.isdigit 1 (String.length ds) ds
  end.

(** What follows a run: a character outside the class, or nothing. *)
Definition stops (f : ascii → bool) (rest : string) : Prop :=
  match rest with
  | EmptyString => True
  | String c _ => f c = false
  end.

(** A rule as the stylesheet has it, [.fs1a{font-size:40.000000px;}]: the
    class, the number of the class, the property and the size. *)
Definition rule_text (class_ property hex px frac : string) : string :=
  "." +:+ class_ +:+ hex +:+ "{" +:+ property +:+ ":" +:+ px +:+ frac +:+ "px;}".

(** Text in which no rule of the class begins: what follows a full stop
    neither begins with the name of the class nor is a beginning of that
    name. *)
Fixpoint quiet (class_ junk : string) : bool :=
  match junk with
  | EmptyString => true
  | String a u =>
      (if Ascii.eqb a "."
       then negb (Py.startswith class_ u || Py.startswith u class_)
       else true) && quiet class_ u
  end.

(** A rule of the class with the text before it. *)
Record css_item : Type := CssItem {
  before : string;
  number : string;
  whole : string;
  fraction : string
}.

Definition item_ok (class_ : string) (it : css_item) : bool :=
  quiet class_ (before it) && number_ok Re.hex_lower 1 3 (number it) &&
  number_ok Py.isdigit 1 3 (whole it) && fraction_ok (fraction it).

Definition sheet_text (class_ property : string) (items : list css_item)
  (tail : string) : string :=
  fold_right
    (λ it s, before it +:+
             rule_text class_ property (number it) (whole it) (fraction it)
             +:+ s)
    tail items.

(** The sizes of the rules, each number at the place of its first rule
    with the size of its last. *)
Definition sheet_sizes (items : list css_item) : dict Z :=
  fold_left
    (λ m it, dict_set (number it) (default 0%Z (int_go 0 (whole it))) m)
    items [].

Definition sample_sheet : list css_item :=
  [ CssItem ".ff0{font-family:sans-serif;}" "0" "40" ".000000";
    CssItem (String "010" "") "1" "48" "";
    CssItem ".y0{bottom:3.5px;}" "0" "7" ".5" ].

(** * Properties *)

(** ** Generic facts *)

Lemma bind_ok {A B : Type} (r : res A) (k : A → res B) (b : B) :
  (r ≫= k) = Ok b → ∃ a, r = Ok a ∧ k a = Ok b.
Proof. destruct r as [a|e]; simpl; [eauto | discriminate]. Qed.

Lemma of_option_ok {A : Type} (e : exn) (o : option A) (a : A) :
  of_option e o = Ok a ↔ o = Some a.
Proof. destruct o; simpl; split; congruence. Qed.

Lemma get_ok (d : dom) (e : nat) (n : node) : get d e = Ok n ↔ d !! e = Some n.
Proof. apply of_option_ok. Qed.

Ltac inv_ok H :=
  let a := fresh "a" in
  let H1 := fresh H in
  first
    [ apply bind_ok in H; destruct H as (a & H1 & H)
    | apply of_option_ok in H
    | apply get_ok in H ].

(** ** The block-reconstruction loop *)

Lemma chained_all_false (new_look space margin : bool) :
  chained new_look space margin = negb new_look && negb space && negb margin.
Proof. by destruct new_look, space, margin. Qed.

(** [analyse] written out: it succeeds as soon as the class attribute and
    its height and font-size tokens are there. *)
Lemma analyse_eq dims h_levels st d l n class_attr height size :
  d !! l = Some n →
  n_class n = Some class_attr →
  get_dimension dims d l "h" = Ok height →
  classn "fs" d l = Ok size →
  analyse dims h_levels st d l =
    let look := look_of class_attr in
    let new_look := negb (bool_decide (p_look st = Some look)) in
    let margin := (MAX_LINE_HEIGHT <? p_height st - height)%Z in
    let default := chained new_look (p_space st) margin in
    let txt := text_content d l in
    let ta := heading_rule h_levels size (li_rule st look txt default) in
    Ok (Analysis look new_look height margin
          (negb (Py.truthy (Py.strip txt))) default txt (snd ta) (fst ta)).
Proof.
  intros Hn Hc Hh Hs. unfold analyse, get. rewrite Hn. simpl.
  rewrite Hc. simpl. rewrite Hh. simpl. rewrite Hs. reflexivity.
Qed.

Lemma analyse_inv dims h_levels st d l a :
  analyse dims h_levels st d l = Ok a →
  ∃ n class_attr size,
    d !! l = Some n ∧ n_class n = Some class_attr ∧
    get_dimension dims d l "h" = Ok (a_height a) ∧
    classn "fs" d l = Ok size.
Proof.
  unfold analyse. intros H.
  apply bind_ok in H as (n & Hn & H). apply get_ok in Hn.
  apply bind_ok in H as (c & Hc & H). apply of_option_ok in Hc.
  apply bind_ok in H as (h & Hh & H).
  apply bind_ok in H as (s & Hs & H).
  injection H as <-. simpl. eauto 10.
Qed.

(** ** Tree primitives *)

Lemma children_of_alter (f : node → node) (p q : nat) (d : dom) :
  children_of (alter f p d) q =
    if decide (p = q)
    then match d !! q with Some n => n_children (f n) | None => [] end
    else children_of d q.
Proof.
  unfold children_of. destruct (decide (p = q)) as [->|Hne].
  - rewrite list_lookup_alter_eq. by destruct (d !! q).
  - by rewrite list_lookup_alter_ne.
Qed.

Lemma children_of_detach (e q : nat) (d : dom) :
  children_of (detach e d) q = without e (children_of d q).
Proof.
  unfold children_of, detach. rewrite list_lookup_fmap.
  by destruct (d !! q).
Qed.

Lemma lookup_detach (e q : nat) (d : dom) :
  detach e d !! q = (λ n, set_children (without e (n_children n)) n) <$> d !! q.
Proof. unfold detach. by rewrite list_lookup_fmap. Qed.

Lemma append_inv d p e d' :
  append d p e = Ok d' →
  is_Some (d !! p) ∧ is_Some (d !! e) ∧
  d' = alter (λ n, set_children (n_children n ++ [e]) n) p (detach e d).
Proof.
  unfold append. intros H.
  apply bind_ok in H as (n & Hn & H). apply get_ok in Hn.
  apply bind_ok in H as (m & Hm & H). apply get_ok in Hm.
  destruct (ancestor_or_self d e p); [discriminate|].
  injection H as <-. eauto.
Qed.

(** After [p.append(e)] the element is the last child of [p]. *)
Lemma append_children d p e d' :
  append d p e = Ok d' →
  children_of d' p = without e (children_of d p) ++ [e].
Proof.
  intros H. apply append_inv in H as ([n Hn] & _ & ->).
  rewrite children_of_alter, decide_True by done.
  rewrite lookup_detach, Hn. simpl. unfold children_of. by rewrite Hn.
Qed.

Lemma append_children_ne d p e d' q :
  append d p e = Ok d' → q ≠ p →
  children_of d' q = without e (children_of d q).
Proof.
  intros H Hne. apply append_inv in H as (_ & _ & ->).
  rewrite children_of_alter, decide_False by done.
  apply children_of_detach.
Qed.

Lemma append_tag d p e d' q :
  append d p e = Ok d' → n_tag <$> d' !! q = n_tag <$> d !! q.
Proof.
  intros H. apply append_inv in H as (_ & _ & ->).
  destruct (decide (p = q)) as [->|Hne].
  - rewrite list_lookup_alter_eq, lookup_detach. by destruct (d !! q).
  - rewrite list_lookup_alter_ne, lookup_detach by done. by destruct (d !! q).
Qed.

Lemma append_length d p e d' : append d p e = Ok d' → length d' = length d.
Proof.
  intros H. apply append_inv in H as (_ & _ & ->).
  unfold detach. by rewrite length_alter, length_map.
Qed.

Lemma modify_inv d e f d' :
  modify d e f = Ok d' → is_Some (d !! e) ∧ d' = alter f e d.
Proof.
  unfold modify. intros H. apply bind_ok in H as (n & Hn & H).
  apply get_ok in Hn. injection H as <-. eauto.
Qed.

(** ** The decision of the block loop *)

Lemma analyse_fields dims h_levels st d l a size :
  analyse dims h_levels st d l = Ok a →
  classn "fs" d l = Ok size →
  a_new_look a = negb (bool_decide (p_look st = Some (a_look a))) ∧
  a_margin a = (MAX_LINE_HEIGHT <? p_height st - a_height a)%Z ∧
  a_space a = negb (Py.truthy (Py.strip (a_txt a))) ∧
  a_txt a = text_content d l ∧
  a_default a = chained (a_new_look a) (p_space st) (a_margin a) ∧
  (a_tag a, a_append a) =
    heading_rule h_levels size (li_rule st (a_look a) (a_txt a) (a_default a)).
Proof.
  intros Ha Hs.
  destruct (analyse_inv _ _ _ _ _ _ Ha) as (n & c & s & Hn & Hc & Hh & Hs').
  rewrite (analyse_eq _ _ _ _ _ _ _ _ _ Hn Hc Hh Hs) in Ha.
  injection Ha as <-. simpl.
  by destruct (heading_rule _ _ _).
Qed.

Lemma line_step_eq dims h_levels st d l a :
  analyse dims h_levels st d l = Ok a →
  line_step dims h_levels (st, d) l =
    r ← merge_line a st d l;
    Ok (LoopState (Some (a_look a)) (a_height a) (a_space a)
                  (Some (a_tag a)) (snd r), fst r).
Proof.
  intros Ha. unfold line_step. rewrite Ha. simpl.
  destruct (merge_line a st d l) as [[d' b]|e]; reflexivity.
Qed.




(** C9, as amended.  The analysis of a line succeeds exactly when its
    class attribute carries a height token and a font-size token; then a
    height class without a dimension entry counts as height 0, a font-size
    class outside the heading map leaves the tag a paragraph or list item,
    and the round goes through whenever the line starts a block or is a
    blank line with a parent.  A line that lacks either token makes
    [classn] raise, and the pass stops with that exception. *)
Theorem missing_style_data dims h_levels st d l :
  match classn "h" d l, classn "fs" d l with
  | Ok kh, Ok kfs =>
      ∃ a, analyse dims h_levels st d l = Ok a ∧
        a_height a = or_zero (dict_get kh (dim_h dims)) ∧
        (dict_get kh (dim_h dims) = None → a_height a = 0%Z) ∧
        (dict_get kfs h_levels = None → a_tag a = "p" ∨ a_tag a = "li") ∧
        (Py.truthy (Py.strip (a_txt a)) = true → a_append a = false →
           is_ok (line_step dims h_levels (st, d) l) = true) ∧
        (Py.truthy (Py.strip (a_txt a)) = false → is_Some (parent d l) →
           is_ok (line_step dims h_levels (st, d) l) = true)
  | Raise e, _ | Ok _, Raise e =>
      analyse dims h_levels st d l = Raise e ∧
      line_step dims h_levels (st, d) l = Raise e
  end.
Proof.
  destruct (classn "h" d l) as [kh|e] eqn:Hh.
  - assert (∃ n c, d !! l = Some n ∧ n_class n = Some c) as (n & c & Hn & Hc).
    { unfold classn in Hh. apply bind_ok in Hh as (n & Hn & Hh).
      apply get_ok in Hn. apply bind_ok in Hh as (c & Hc & _).
      apply of_option_ok in Hc. eauto. }
    assert (get_dimension dims d l "h" = Ok (or_zero (dict_get kh (dim_h dims))))
      as Hgd by (unfold get_dimension; simpl; by rewrite Hh).
    destruct (classn "fs" d l) as [kfs|e] eqn:Hfs.
    + pose proof (analyse_eq dims h_levels st d l n c _ kfs Hn Hc Hgd Hfs) as Ha.
      cbv zeta in Ha.
      match type of Ha with _ = Ok ?x => set (a := x) in * end.
      exists a. split; [exact Ha|].
      split; [done|]. split; [by (intros Hk; subst a; simpl; rewrite Hk)|].
      split.
      { intros Hk. subst a. simpl. unfold heading_rule, li_rule. rewrite Hk.
        destruct (bulleted _); [by right|].
        destruct (_ && _); [by right | by left]. }
      split.
      * intros Htxt Happ. rewrite (line_step_eq _ _ _ _ _ _ Ha).
        unfold merge_line. rewrite Htxt, Happ.
        unfold modify, get. rewrite Hn. reflexivity.
      * intros Htxt [p Hp]. rewrite (line_step_eq _ _ _ _ _ _ Ha).
        unfold merge_line. rewrite Htxt.
        unfold remove. rewrite Hp. reflexivity.
    + assert (analyse dims h_levels st d l = Raise e) as Ha.
      { unfold analyse, get. rewrite Hn. simpl. rewrite Hc. simpl.
        rewrite Hgd. simpl. by rewrite Hfs. }
      split; [done|]. unfold line_step. by rewrite Ha.
  - assert (analyse dims h_levels st d l = Raise e) as Ha.
    { destruct (d !! l) as [n|] eqn:Hn.
      - destruct (n_class n) as [c|] eqn:Hc.
        + unfold analyse, get, get_dimension. rewrite Hn. simpl.
          rewrite Hc. simpl. by rewrite Hh.
        + unfold classn, get in Hh. rewrite Hn in Hh. simpl in Hh.
          rewrite Hc in Hh. unfold analyse, get. rewrite Hn. simpl.
          rewrite Hc. simpl in *. by injection Hh as <-.
      - unfold classn, get in Hh. rewrite Hn in Hh.
        unfold analyse, get. rewrite Hn. simpl in *. by injection Hh as <-. }
    split; [done|]. unfold line_step. by rewrite Ha.
Qed.

(** C9 as stated fails: on a line without a font-size token the pass stops
    with [IndexError]. *)
Lemma missing_token_raises :
  cssselect_class doc_no_fs root "t" = [1] ∧
  classn "fs" doc_no_fs 1 = Raise IndexError ∧
  block_pass sample_dims [] doc_no_fs = Raise IndexError.
Proof. by vm_compute. Qed.

(** C10.  A blank line is removed from the tree, and the values carried to
    the next round are its own: its look, its height and its tag.  The
    block element stays the one of the last line kept.  The next line is
    therefore compared with the blank line that is gone. *)
Theorem blank_line_state dims h_levels st d l a p
  (Ha : analyse dims h_levels st d l = Ok a)
  (Hblank : Py.truthy (Py.strip (a_txt a)) = false)
  (Hp : parent d l = Some p) :
  let st1 :=
    LoopState (Some (a_look a)) (a_height a) true (Some (a_tag a)) (box st) in
  line_step dims h_levels (st, d) l = Ok (st1, detach l d) ∧
  (∃ n class_attr,
     d !! l = Some n ∧ n_class n = Some class_attr ∧
     a_look a = look_of class_attr ∧ a_txt a = text_content d l) ∧
  get_dimension dims d l "h" = Ok (a_height a) ∧
  (l ∉ children_of (detach l d) p) ∧
  (∀ l' a', analyse dims h_levels st1 (detach l d) l' = Ok a' →
     (a_new_look a' = false ↔ a_look a' = a_look a) ∧
     a_margin a' = (MAX_LINE_HEIGHT <? a_height a - a_height a')%Z).
Proof.
  intros st1.
  destruct (analyse_inv _ _ _ _ _ _ Ha) as (n & c & s & Hn & Hc & Hh & Hs).
  destruct (analyse_fields _ _ _ _ _ _ _ Ha Hs)
    as (Hnl & Hm & Hsp & Htxt & Hdef & Hta).
  split.
  { rewrite (line_step_eq _ _ _ _ _ _ Ha). unfold merge_line.
    rewrite Hblank. unfold remove. rewrite Hp. simpl.
    rewrite Hsp, Hblank. reflexivity. }
  split.
  { exists n, c. repeat split; try done.
    rewrite (analyse_eq _ _ _ _ _ _ _ _ _ Hn Hc Hh Hs) in Ha.
    by injection Ha as <-. }
  split; [done|]. split.
  { rewrite children_of_detach. unfold without.
    rewrite list_elem_of_In, filter_In. intros [_ H].
    by rewrite Nat.eqb_refl in H. }
  intros l' a' Ha'.
  destruct (analyse_inv _ _ _ _ _ _ Ha') as (n' & c' & s' & _ & _ & _ & Hs').
  destruct (analyse_fields _ _ _ _ _ _ _ Ha' Hs') as (Hnl' & Hm' & _).
  split; [|done]. rewrite Hnl'. simpl.
  rewrite negb_false_iff, bool_decide_eq_true. split; congruence.
Qed.

Lemma blank_line_state_witness :
  ∃ a,
    analyse sample_dims [("1", 1)]
      (LoopState (Some "t m0 x0 h2 ff1 fs0") 12 false (Some "p") (Some 3))
      doc_heading 4 = Ok a ∧
    line_step sample_dims [("1", 1)]
      (LoopState (Some "t m0 x0 h2 ff1 fs0") 12 false (Some "p") (Some 3),
       doc_heading) 4 =
    Ok (LoopState (Some (a_look a)) (a_height a) true (Some (a_tag a)) (Some 3),
        detach 4 doc_heading).
Proof.
  destruct (analyse sample_dims [("1", 1)]
      (LoopState (Some "t m0 x0 h2 ff1 fs0") 12 false (Some "p") (Some 3))
      doc_heading 4) as [a|e] eqn:Ha; [|vm_compute in Ha; discriminate].
  exists a. split; [reflexivity|].
  refine (proj1 (blank_line_state _ _ _ _ _ a 0 Ha _ eq_refl)).
  vm_compute in Ha. injection Ha as <-. reflexivity.
Defined.

(** ** Geometry resolution *)

Lemma get_dimension_absent dims d el dim_type sizes k :
  dimensions_get dims dim_type = Ok sizes →
  classn dim_type d el = Ok k →
  dict_get k sizes = None →
  get_dimension dims d el dim_type = Ok 0%Z.
Proof.
  intros Hs Hk Hnone. unfold get_dimension.
  rewrite Hs. simpl. rewrite Hk. simpl. by rewrite Hnone.
Qed.

(** C6, as amended.  For a line with its left, bottom and height tokens,
    [x] is the left value of the line and [y] is 850 minus bottom plus
    height; under a clip box, [x] is the left value of the clip box plus
    that of the line, and [y] is 850 minus the bottom value of the clip
    box alone: neither the bottom nor the height of the line enters.  A
    class without a dimension entry counts as 0. *)
Theorem grid_line_resolves dims d l pg p pn n lx ly lh
  (Hpage : page_of d (iterancestors d l) = Ok pg)
  (Hp : parent d l = Some p)
  (Hpn : d !! p = Some pn)
  (Hn : d !! l = Some n)
  (Hx : get_dimension dims d l "x" = Ok lx)
  (Hy : get_dimension dims d l "y" = Ok ly)
  (Hh : get_dimension dims d l "h" = Ok lh) :
  (class_startswith "c " pn = false →
     grid_line (get_dimension dims) d l =
       Ok (NS pg lx (850 - (ly + lh)) l None [] (n_text n))) ∧
  (class_startswith "c " pn = true →
     ∀ cx cy,
       get_dimension dims d p "x" = Ok cx →
       get_dimension dims d p "y" = Ok cy →
       grid_line (get_dimension dims) d l =
         Ok (NS pg (cx + lx) (850 - cy) l (Some p) [] (n_text n))) ∧
  (∀ el dim_type sizes k,
     dimensions_get dims dim_type = Ok sizes →
     classn dim_type d el = Ok k →
     dict_get k sizes = None →
     get_dimension dims d el dim_type = Ok 0%Z).
Proof.
  split; [|split].
  - intros Hc. unfold grid_line, get. rewrite Hpage. simpl.
    rewrite Hp. simpl. rewrite Hpn. simpl. rewrite Hc, Hx. simpl.
    rewrite Hy. simpl. rewrite Hh. simpl. by rewrite Hn.
  - intros Hc cx cy Hcx Hcy. unfold grid_line, get. rewrite Hpage. simpl.
    rewrite Hp. simpl. rewrite Hpn. simpl. rewrite Hc, Hx. simpl.
    rewrite Hy. simpl. rewrite Hh. simpl. rewrite Hcx. simpl.
    rewrite Hcy. simpl. by rewrite Hn.
  - intros. by eapply get_dimension_absent.
Qed.

Lemma grid_line_resolves_witness :
  grid_line (get_dimension sample_dims) doc_grid 4 =
    Ok (NS 1 (300 + 0) (850 - 700) 4 (Some 3) [] "b") ∧
  grid_line (get_dimension sample_dims) doc_grid_plain 3 =
    Ok (NS 1 100 (850 - (600 + 12)) 3 None [] "c").
Proof.
  split.
  - refine (proj1 (proj2
      (grid_line_resolves sample_dims doc_grid 4 1 3 _ _ 0 0 12
         eq_refl eq_refl eq_refl eq_refl eq_refl eq_refl eq_refl))
      eq_refl 300%Z 700%Z eq_refl eq_refl).
  - refine (proj1
      (grid_line_resolves sample_dims doc_grid_plain 3 1 0 _ _ 100 600 12
         eq_refl eq_refl eq_refl eq_refl eq_refl eq_refl eq_refl)
      eq_refl).
Defined.

(** C6 as stated fails: under a clip box whose bottom value is 700, a line
    of height 12 gets [y = 150], not 850 - (700 + 12); and a line without a
    height token makes the resolution raise. *)
Lemma clipped_line_y :
  (∃ r, grid_line (get_dimension sample_dims) doc_grid 2 = Ok r ∧
        get_dimension sample_dims doc_grid 1 "y" = Ok 700%Z ∧
        get_dimension sample_dims doc_grid 2 "h" = Ok 12%Z ∧
        clipbox r = Some 1 ∧ y r = 150%Z ∧
        y r ≠ (850 - (700 + 12))%Z) ∧
  grid_data doc_no_h (get_dimension sample_dims) = Raise IndexError.
Proof.
  split; [|by vm_compute].
  eexists. split; [vm_compute; reflexivity|]. by vm_compute.
Qed.

(** ** Sorting *)

Section Sorting.
Context {A : Type} (le : A → A → bool).
Hypothesis le_total : ∀ a b, le a b = true ∨ le b a = true.
Hypothesis le_trans : ∀ a b c, le a b = true → le b c = true → le a c = true.

Lemma insert_sorted_In a b l : In b (insert_sorted le a l) ↔ b = a ∨ In b l.
Proof.
  induction l as [|c l IH]; simpl.
  - intuition.
  - destruct (le a c); simpl; [intuition|]. rewrite IH. intuition.
Qed.

Lemma sorted_In b l : In b (sorted le l) ↔ In b l.
Proof.
  induction l as [|a l IH]; simpl; [done|].
  rewrite insert_sorted_In, IH. intuition.
Qed.

Lemma insert_sorted_length a l :
  length (insert_sorted le a l) = S (length l).
Proof.
  induction l as [|c l IH]; simpl; [done|].
  destruct (le a c); simpl; by rewrite ?IH.
Qed.

Lemma sorted_length l : length (sorted le l) = length l.
Proof.
  induction l as [|a l IH]; simpl; [done|].
  by rewrite insert_sorted_length, IH.
Qed.

(** The result is sorted: every element is below all that follow it. *)
Lemma insert_sorted_sorted a l :
  StronglySorted (λ x y, le x y = true) l →
  StronglySorted (λ x y, le x y = true) (insert_sorted le a l).
Proof.
  induction 1 as [|c l Hs IH Hall]; simpl.
  - repeat constructor.
  - destruct (le a c) eqn:Hac.
    + constructor; [by constructor|].
      constructor; [done|].
      rewrite List.Forall_forall in Hall. apply List.Forall_forall.
      intros z Hz. eapply le_trans; [exact Hac | by apply Hall].
    + constructor; [done|].
      apply List.Forall_forall. intros z Hz.
      apply insert_sorted_In in Hz as [->|Hz].
      * destruct (le_total a c); congruence.
      * rewrite List.Forall_forall in Hall. by apply Hall.
Qed.

Lemma sorted_sorted l : StronglySorted (λ x y, le x y = true) (sorted le l).
Proof.
  induction l as [|a l IH]; simpl; [constructor|].
  by apply insert_sorted_sorted.
Qed.

(** The first element of the sorted list is below every element. *)
Lemma sorted_head h l :
  head (sorted le l) = Some h → In h l ∧ ∀ a, In a l → le h a = true.
Proof.
  intros Hh. pose proof (sorted_sorted l) as Hs.
  destruct (sorted le l) as [|h' s] eqn:Heq; [discriminate|].
  injection Hh as ->.
  assert (In h l) as Hin by (apply sorted_In; rewrite Heq; by left).
  split; [done|]. intros a Ha.
  apply sorted_In in Ha. rewrite Heq in Ha.
  apply StronglySorted_inv in Hs as [_ Hall].
  destruct Ha as [<-|Ha].
  - destruct (le_total h h); done.
  - rewrite List.Forall_forall in Hall. by apply Hall.
Qed.
End Sorting.

(** ** Dictionaries *)

Lemma dict_get_In {V : Type} (k : string) (v : V) (m : dict V) :
  dict_get k m = Some v → In (k, v) m.
Proof.
  unfold dict_get. destruct (List.find _ m) as [[k' v']|] eqn:Hf; [|discriminate].
  intros [= <-]. apply find_some in Hf as [Hin Heq].
  simpl in Heq. apply String.eqb_eq in Heq as <-. done.
Qed.

Lemma dict_get_NoDup {V : Type} (k : string) (v : V) (m : dict V) :
  NoDup (map fst m) → In (k, v) m → dict_get k m = Some v.
Proof.
  unfold dict_get. induction m as [|[k' v'] m IH]; simpl; [done|].
  intros Hnd Hin. apply NoDup_cons in Hnd as [Hnotin Hnd].
  destruct (String.eqb_spec k' k) as [->|Hne]; simpl.
  - destruct Hin as [[= ->]|Hin]; [done|].
    exfalso. apply Hnotin. apply list_elem_of_In.
    apply in_map_iff. by exists (k, v).
  - destruct Hin as [[= -> ->]|Hin]; [done|]. by apply IH.
Qed.

Lemma dict_set_fresh {V : Type} (k : string) (v : V) (m : dict V) :
  ¬ In k (map fst m) → dict_set k v m = m ++ [(k, v)].
Proof.
  induction m as [|[k' v'] m IH]; simpl; [done|].
  intros Hnotin. destruct (String.eqb_spec k' k) as [->|Hne].
  - exfalso. apply Hnotin. by left.
  - rewrite IH; [done|]. intros Hin. apply Hnotin. by right.
Qed.

(** ** Heading levels *)

Lemma assign_levels_fresh (headings : list (nat * string * Z)) level acc :
  NoDup (map stat_cssn headings ++ map fst acc) →
  assign_levels headings level acc =
    acc ++ combine (map stat_cssn headings) (seq level (length headings)).
Proof.
  revert level acc.
  induction headings as [|s hs IH]; intros level acc Hnd; simpl.
  - by rewrite app_nil_r.
  - simpl in Hnd. apply NoDup_cons in Hnd as [Hnotin Hnd].
    rewrite dict_set_fresh.
    + rewrite IH; [by rewrite <- app_assoc|].
      rewrite map_app. simpl.
      apply NoDup_app in Hnd as (H1 & H2 & H3).
      apply NoDup_app. split; [done|]. split.
      * intros z Hz Hz'. apply elem_of_app in Hz' as [Hz'|Hz'].
        -- by apply (H2 z).
        -- apply list_elem_of_singleton in Hz' as ->.
           apply Hnotin. apply elem_of_app. by left.
      * apply NoDup_app. split; [done|]. split; [|apply NoDup_singleton].
        intros z Hz Hz'. apply list_elem_of_singleton in Hz' as ->.
        apply Hnotin. apply elem_of_app. by right.
    + intros Hin. apply Hnotin. apply elem_of_app. right.
      by apply list_elem_of_In.
Qed.

Lemma NoDup_map_filter {X Y : Type} (g : X → Y) (P : X → bool) (l : list X) :
  NoDup (map g l) → NoDup (map g (List.filter P l)).
Proof.
  induction l as [|a l IH]; simpl; [done|].
  intros Hnd. apply NoDup_cons in Hnd as [Hnotin Hnd].
  destruct (P a); simpl; [|by apply IH].
  apply NoDup_cons. split; [|by apply IH].
  intros Hin. apply Hnotin. apply list_elem_of_In in Hin.
  apply list_elem_of_In. apply in_map_iff in Hin as (b & Hb & Hin).
  apply filter_In in Hin as [Hin _]. apply in_map_iff. eauto.
Qed.

Lemma fs_stats_In d dims s :
  In s (fs_stats d dims) ↔
  In (stat_cssn s, stat_size s) (dim_fs dims) ∧
  stat_count s = length (cssselect_class d root ("fs" +:+ stat_cssn s)).
Proof.
  unfold fs_stats. rewrite in_map_iff. split.
  - intros ([k v] & <- & Hin). by simpl.
  - destruct s as [[c k] v]. unfold stat_cssn, stat_size, stat_count.
    simpl. intros [Hin ->]. exists (k, v). by simpl.
Qed.

Lemma fs_stats_cssn d dims :
  map stat_cssn (fs_stats d dims) = map fst (dim_fs dims).
Proof. unfold fs_stats. rewrite map_map. by apply map_ext. Qed.



(** ** Header removal *)

Lemma for_each_app {S X : Type} (body : S → X → res S) (xs ys : list X) (s : S) :
  for_each body (xs ++ ys) s = for_each body xs s ≫= for_each body ys.
Proof.
  revert s. induction xs as [|a xs IH]; intros s; simpl; [done|].
  destruct (body s a) as [s'|e]; simpl; [apply IH | done].
Qed.

Lemma map_res_inv {X Y : Type} (f : X → res Y) (xs : list X) (ys : list Y) :
  map_res f xs = Ok ys → Forall2 (λ a b, f a = Ok b) xs ys.
Proof.
  revert ys. induction xs as [|a xs IH]; intros ys; simpl.
  - intros [= <-]. constructor.
  - intros H. apply bind_ok in H as (b & Hb & H).
    apply bind_ok in H as (bs & Hbs & H). injection H as <-.
    constructor; [done | by apply IH].
Qed.

Lemma collect_leading_text d leading page :
  collect_leading d = Ok leading → In page leading →
  snd page = header_text d (fst page).
Proof.
  unfold collect_leading. intros H Hin. apply map_res_inv in H.
  apply list_elem_of_In in Hin.
  apply list_elem_of_lookup_1 in Hin as [i Hi].
  destruct (Forall2_lookup_r _ _ _ _ _ H Hi) as (n1 & _ & Hlead).
  unfold leading_of in Hlead.
  apply bind_ok in Hlead as (k & _ & Hlead).
  apply bind_ok in Hlead as (p & _ & Hlead).
  by injection Hlead as <-.
Qed.

(** The pages whose topmost elements go: those whose leading text holds
    the signature. *)
Lemma remove_leading_flat texts leading d :
  for_each (remove_leading texts) leading d =
  for_each remove
    (flat_map (λ page : list nat * string,
                 if Py.contains (List.last texts "") (snd page)
                 then fst page else [])
              leading) d.
Proof.
  revert d. induction leading as [|[topmost txt] leading IH]; intros d; [done|].
  simpl. rewrite for_each_app.
  destruct (Py.contains _ txt); simpl.
  - destruct (for_each remove topmost d); simpl; [apply IH | done].
  - apply IH.
Qed.

Lemma last_filter_truthy (l : list string) :
  List.filter Py.truthy l ≠ [] →
  Py.truthy (List.last (List.filter Py.truthy l) "") = true.
Proof.
  intros Hne.
  assert (In (List.last (List.filter Py.truthy l) "") (List.filter Py.truthy l)) as Hin.
  { destruct (exists_last Hne) as (l' & a & ->).
    rewrite last_last. apply in_or_app. right. by left. }
  by apply filter_In in Hin as [_ ?].
Qed.

Lemma contains_empty (sig : string) :
  Py.truthy sig = true → Py.contains sig "" = false.
Proof. by destruct sig. Qed.

Lemma remove_headers_fires d leading :
  collect_leading d = Ok leading →
  headers_repeat (nonempty_texts leading) = true →
  remove_headers d =
    for_each remove
      (flat_map (λ page : list nat * string,
                   if Py.contains (List.last (nonempty_texts leading) "") (snd page)
                   then fst page else [])
                leading) d.
Proof.
  intros Hlead Hyes. unfold remove_headers. rewrite Hlead. simpl.
  rewrite Hyes. apply remove_leading_flat.
Qed.




(** C4, as amended.  When the three pages read "Annual Report 2020",
    "Annual Report 2021" and "Annual Report 2021" at the top, the three
    signatures are the same once the digits are stripped, and the topmost
    elements of all three pages are removed, those of the first page
    included. *)
Theorem annual_report_headers d leading t1 t2 t3
  (Hlead : collect_leading d = Ok leading)
  (Htop : map fst leading = [t1; t2; t3])
  (H1 : Py.join " " (map (text_content d) t1) = "Annual Report 2020")
  (H2 : Py.join " " (map (text_content d) t2) = "Annual Report 2021")
  (H3 : Py.join " " (map (text_content d) t3) = "Annual Report 2021") :
  map snd leading = ["Annual Report"; "Annual Report"; "Annual Report"] ∧
  remove_headers d = for_each remove (t1 ++ t2 ++ t3) d.
Proof.
  destruct leading as [|[a1 s1] [|[a2 s2] [|[a3 s3] [|]]]]; try discriminate.
  injection Htop as -> -> ->.
  assert (s1 = "Annual Report") as ->.
  { pose proof (collect_leading_text d _ (t1, s1) Hlead) as E.
    simpl in E. rewrite E by auto. unfold header_text. by rewrite H1. }
  assert (s2 = "Annual Report") as ->.
  { pose proof (collect_leading_text d _ (t2, s2) Hlead) as E.
    simpl in E. rewrite E by auto. unfold header_text. by rewrite H2. }
  assert (s3 = "Annual Report") as ->.
  { pose proof (collect_leading_text d _ (t3, s3) Hlead) as E.
    simpl in E. rewrite E by auto. unfold header_text. by rewrite H3. }
  split; [done|].
  rewrite (remove_headers_fires d _ Hlead eq_refl). simpl.
  by rewrite app_nil_r.
Qed.

Lemma annual_report_headers_witness :
  remove_headers doc_report = for_each remove ([2] ++ [5] ++ [8]) doc_report.
Proof.
  exact (proj2 (annual_report_headers doc_report
    [([2], "Annual Report"); ([5], "Annual Report"); ([8], "Annual Report")]
    [2] [5] [8] eq_refl eq_refl eq_refl eq_refl eq_refl)).
Defined.

(** C4 as stated fails: the leading line of the first page is removed. *)
Lemma first_page_header_removed :
  ∃ d',
    remove_headers doc_report = Ok d' ∧
    n_text <$> doc_report !! 2 = Some "Annual Report 2020" ∧
    children_of doc_report 1 = [2; 3] ∧
    children_of d' 1 = [3] ∧ children_of d' 4 = [6] ∧ children_of d' 7 = [9].
Proof. eexists. split; [vm_compute; reflexivity|]. done. Qed.

(** ** Table rows *)

Lemma cell_line_tags el d line d' :
  cell_line el d line = Ok d' →
  length d ≤ length d' ∧
  ∀ q, q < length d → n_tag <$> d' !! q = n_tag <$> d !! q.
Proof.
  unfold cell_line. intros H.
  apply bind_ok in H as (d1 & Hmod & H).
  apply bind_ok in H as (d2 & Hbr & H).
  apply modify_inv in Hmod as (_ & ->). simpl in Hbr.
  pose proof (append_length _ _ _ _ Hbr) as Hlen2.
  pose proof (append_length _ _ _ _ H) as Hlen.
  rewrite length_app, length_alter in Hlen2. simpl in Hlen2.
  split; [lia|]. intros q Hq.
  rewrite (append_tag _ _ _ _ _ H), (append_tag _ _ _ _ _ Hbr).
  rewrite lookup_app_l by (by rewrite length_alter).
  destruct (decide (line = q)) as [->|Hne].
  - rewrite list_lookup_alter_eq. by destruct (d !! q).
  - by rewrite list_lookup_alter_ne.
Qed.

Lemma cell_lines_tags el ls d d' :
  for_each (cell_line el) ls d = Ok d' →
  length d ≤ length d' ∧
  ∀ q, q < length d → n_tag <$> d' !! q = n_tag <$> d !! q.
Proof.
  revert d. induction ls as [|l ls IH]; intros d; simpl.
  - intros [= <-]. done.
  - intros H. apply bind_ok in H as (d1 & H1 & H).
    apply cell_line_tags in H1 as [Hlen1 Htag1].
    apply IH in H as [Hlen Htag]. split; [lia|].
    intros q Hq. rewrite Htag by lia. by apply Htag1.
Qed.

Lemma retag_cell_tags tr d cell d' :
  retag_cell tr d cell = Ok d' →
  length d ≤ length d' ∧
  n_tag <$> d' !! elem cell = Some "td" ∧
  ∀ q, q < length d → q ≠ elem cell → n_tag <$> d' !! q = n_tag <$> d !! q.
Proof.
  unfold retag_cell. intros H.
  apply bind_ok in H as (d1 & Hm1 & H).
  apply bind_ok in H as (d2 & Hm2 & H).
  apply bind_ok in H as (d3 & Hls & H).
  apply modify_inv in Hm1 as ([n Hn] & ->).
  apply modify_inv in Hm2 as (_ & ->).
  apply cell_lines_tags in Hls as [Hlen3 Htag3].
  rewrite !length_alter in Hlen3, Htag3.
  pose proof (append_length _ _ _ _ H) as Hlen.
  assert (elem cell < length d) as Hlt by (by eapply lookup_lt_Some).
  split; [lia|]. split.
  - rewrite (append_tag _ _ _ _ _ H), Htag3 by done.
    by rewrite !list_lookup_alter_eq, Hn.
  - intros q Hq Hne.
    rewrite (append_tag _ _ _ _ _ H), Htag3 by done.
    by rewrite !list_lookup_alter_ne.
Qed.

Lemma retag_cells_tags tr row d d' :
  for_each (retag_cell tr) row d = Ok d' →
  length d ≤ length d' ∧
  (∀ c, In c row → n_tag <$> d' !! elem c = Some "td") ∧
  ∀ q, q < length d → ¬ In q (map elem row) →
       n_tag <$> d' !! q = n_tag <$> d !! q.
Proof.
  revert d. induction row as [|c row IH]; intros d; simpl.
  - intros [= <-]. repeat split; [lia | tauto].
  - intros H. apply bind_ok in H as (d1 & H1 & H).
    pose proof H1 as H1'.
    apply retag_cell_tags in H1 as (Hlen1 & Htd & Hother).
    apply IH in H as (Hlen & Hall & Hrest).
    split; [lia|]. split.
    + intros c' [<-|Hin]; [|by apply Hall].
      destruct (in_dec Nat.eq_dec (elem c) (map elem row)) as [Hi|Hni].
      * apply in_map_iff in Hi as (c'' & Heq & Hi). rewrite <- Heq.
        by apply Hall.
      * rewrite Hrest; [done| |done].
        unfold retag_cell in H1'. apply bind_ok in H1' as (? & Hm & _).
        apply modify_inv in Hm as ([n Hn] & _).
        apply lookup_lt_Some in Hn. lia.
    + intros q Hq Hni. rewrite Hrest; [|lia|tauto].
      apply Hother; [done|]. intros ->. tauto.
Qed.

Lemma retag_rows_skip d rows :
  retag_rows d rows =
  retag_rows d (List.filter (λ row, 1 <? count_text row) rows).
Proof.
  unfold retag_rows. revert d.
  induction rows as [|row rows IH]; intros d; [done|].
  cbn [List.filter for_each].
  destruct (1 <? count_text row) eqn:Hc.
  - cbn [for_each]. destruct (retag_row d row) as [d'|e]; simpl; [apply IH | done].
  - assert (retag_row d row = Ok d) as ->
      by (unfold retag_row; by rewrite Hc).
    simpl. apply IH.
Qed.


(** ** Lines merged into a cell *)

Lemma without_notin (e : nat) (l : list nat) : e ∉ l → without e l = l.
Proof.
  induction l as [|c l IH]; simpl; [done|].
  intros Hni. apply not_elem_of_cons in Hni as [Hne Hni].
  destruct (Nat.eqb_spec c e) as [->|_]; [done|]. simpl. by rewrite IH.
Qed.

Lemma without_app (e : nat) (l k : list nat) :
  without e (l ++ k) = without e l ++ without e k.
Proof. unfold without. apply List.filter_app. Qed.

Lemma append_ne d p e d' : append d p e = Ok d' → p ≠ e.
Proof.
  intros H ->. unfold append in H.
  apply bind_ok in H as (n & _ & H). apply bind_ok in H as (m & _ & H).
  unfold ancestor_or_self in H.
  destruct (length d); simpl in H; by rewrite Nat.eqb_refl in H.
Qed.

Lemma append_text d p e d' q :
  append d p e = Ok d' →
  n_text <$> d' !! q = n_text <$> d !! q ∧
  n_tail <$> d' !! q = n_tail <$> d !! q.
Proof.
  intros H. apply append_inv in H as (_ & _ & ->).
  destruct (decide (p = q)) as [->|Hne].
  - rewrite list_lookup_alter_eq, lookup_detach. by destruct (d !! q).
  - rewrite list_lookup_alter_ne, lookup_detach by done. by destruct (d !! q).
Qed.

Lemma children_of_set_class c line d q :
  children_of (alter (set_class c) line d) q = children_of d q.
Proof.
  rewrite children_of_alter. destruct (decide (line = q)) as [->|]; [|done].
  unfold children_of. by destruct (d !! q).
Qed.

Lemma children_of_set_tag t e d q :
  children_of (alter (set_tag t) e d) q = children_of d q.
Proof.
  rewrite children_of_alter. destruct (decide (e = q)) as [->|]; [|done].
  unfold children_of. by destruct (d !! q).
Qed.

Lemma children_of_app d (n : node) q :
  q < length d → children_of (d ++ [n]) q = children_of d q.
Proof. intros Hq. unfold children_of. by rewrite lookup_app_l. Qed.

(** One merged line: the cell gains a [br] and the line, in this order. *)
Lemma cell_line_children el d line d' :
  cell_line el d line = Ok d' →
  el < length d → line < length d → line ≠ el →
  (∀ c, c ∈ children_of d el → c < length d ∧ c ≠ line) →
  length d' = S (length d) ∧
  children_of d' el = children_of d el ++ [length d; line] ∧
  n_tag <$> d' !! length d = Some "br" ∧
  ∀ q, q < length d → n_text <$> d' !! q = n_text <$> d !! q.
Proof.
  unfold cell_line. intros H Hel Hline Hne Hch.
  apply bind_ok in H as (d1 & Hmod & H).
  apply bind_ok in H as (d2 & Hbr & H).
  apply modify_inv in Hmod as (_ & ->). simpl in Hbr.
  rewrite length_alter in Hbr.
  pose proof (append_length _ _ _ _ Hbr) as Hlen2.
  pose proof (append_length _ _ _ _ H) as Hlen.
  rewrite length_app, length_alter in Hlen2. simpl in Hlen2.
  assert (children_of d2 el = children_of d el ++ [length d]) as Hc2.
  { rewrite (append_children _ _ _ _ Hbr).
    rewrite children_of_app by (by rewrite length_alter).
    rewrite children_of_set_class, without_notin; [done|].
    intros Hin. apply Hch in Hin as [Hlt _]. lia. }
  split; [lia|]. split; [|split].
  - rewrite (append_children _ _ _ _ H), Hc2, without_app.
    rewrite without_notin by (intros Hin; by apply Hch in Hin as [_ ?]).
    rewrite without_notin by (intros Hin%list_elem_of_singleton; lia).
    by rewrite <- app_assoc.
  - rewrite (append_tag _ _ _ _ _ H), (append_tag _ _ _ _ _ Hbr).
    rewrite lookup_app_r by (rewrite length_alter; lia).
    by rewrite length_alter, Nat.sub_diag.
  - intros q Hq.
    rewrite (proj1 (append_text _ _ _ _ q H)), (proj1 (append_text _ _ _ _ q Hbr)).
    rewrite lookup_app_l by (by rewrite length_alter).
    destruct (decide (line = q)) as [->|Hnq].
    + rewrite list_lookup_alter_eq. by destruct (d !! q).
    + by rewrite list_lookup_alter_ne.
Qed.

Lemma cell_lines_children el ls d d' :
  for_each (cell_line el) ls d = Ok d' →
  el < length d → NoDup ls →
  (∀ l, l ∈ ls → l < length d ∧ l ≠ el) →
  (∀ c, c ∈ children_of d el → c < length d ∧ c ∉ ls) →
  length d' = length d + length ls ∧
  children_of d' el = children_of d el ++ breaks_and_lines (length d) ls ∧
  (∀ i, i < length ls → n_tag <$> d' !! (length d + i) = Some "br") ∧
  ∀ q, q < length d → n_text <$> d' !! q = n_text <$> d !! q.
Proof.
  revert d. induction ls as [|l ls IH]; intros d; simpl.
  - intros [= <-] _ _ _ _. rewrite app_nil_r.
    repeat split; [lia | intros; lia].
  - intros H Hel Hnd Hls Hch.
    apply bind_ok in H as (d1 & H1 & H).
    apply NoDup_cons in Hnd as [Hl Hnd].
    pose proof H1 as H1'. apply cell_line_tags in H1' as [_ Htag1].
    apply cell_line_children in H1 as (Hlen1 & Hc1 & Hbr1 & Htxt1).
    2: done.
    2: { apply Hls. by left. }
    2: { apply Hls. by left. }
    2: { intros c Hc. apply Hch in Hc as [? Hni]. split; [done|].
         intros ->. apply Hni. by left. }
    pose proof H as H'. apply cell_lines_tags in H' as [_ Htags].
    apply IH in H as (Hlen & Hc & Hbr & Htxt).
    2: lia.
    2: done.
    2: { intros l' Hl'. destruct (Hls l') as [? ?]; [by right|]. split; [lia|done]. }
    2: { intros c Hc. rewrite Hc1 in Hc.
         apply elem_of_app in Hc as [Hc|Hc].
         - apply Hch in Hc as [? Hni]. split; [lia|].
           intros Hin. apply Hni. by right.
         - apply elem_of_cons in Hc as [->|Hc].
           + split; [lia|]. intros Hin.
             destruct (Hls (length d)) as [? _]; [by right | lia].
           + apply list_elem_of_singleton in Hc as ->.
             split; [|done]. destruct (Hls l) as [? _]; [by left | lia]. }
    split; [lia|]. split; [|split].
    + rewrite Hc, Hc1, Hlen1, <- app_assoc. done.
    + intros [|i] Hi.
      * rewrite Nat.add_0_r, Htags by lia. done.
      * rewrite <- Nat.add_succ_comm, <- Hlen1. apply Hbr. lia.
    + intros q Hq. rewrite Htxt by lia. by apply Htxt1.
Qed.

(** ** Dictionaries in insertion order *)

Section Assoc.
Context {K V : Type} `{EqDecision K}.

Lemma lookup_key_setdefault_eq (k : K) (v : V) (m : list (K * list V)) :
  lookup_key k (setdefault_append k v m) =
    Some (default [] (lookup_key k m) ++ [v]).
Proof.
  unfold lookup_key. induction m as [|[k' vs] m IH]; simpl.
  - by rewrite bool_decide_eq_true_2.
  - destruct (decide (k' = k)) as [->|Hne]; simpl.
    + by rewrite bool_decide_eq_true_2.
    + by rewrite bool_decide_eq_false_2.
Qed.

Lemma lookup_key_setdefault_ne (k k' : K) (v : V) (m : list (K * list V)) :
  k' ≠ k → lookup_key k' (setdefault_append k v m) = lookup_key k' m.
Proof.
  intros Hne. unfold lookup_key. induction m as [|[k0 vs] m IH]; simpl.
  - by rewrite bool_decide_eq_false_2.
  - destruct (decide (k0 = k)) as [->|Hne0]; simpl.
    + by rewrite bool_decide_eq_false_2.
    + destruct (bool_decide (k0 = k')); [done | apply IH].
Qed.

Lemma setdefault_append_snoc (k : K) (v : V) (m : list (K * list V)) vs :
  k ∉ map fst m →
  setdefault_append k v (m ++ [(k, vs)]) = m ++ [(k, vs ++ [v])].
Proof.
  induction m as [|[k' vs'] m IH]; simpl; intros Hni.
  - by rewrite decide_True.
  - apply not_elem_of_cons in Hni as [Hne Hni].
    rewrite decide_False by done. by rewrite IH.
Qed.

Lemma setdefault_append_fresh (k : K) (v : V) (m : list (K * list V)) :
  k ∉ map fst m → setdefault_append k v m = m ++ [(k, [v])].
Proof.
  induction m as [|[k' vs'] m IH]; simpl; intros Hni; [done|].
  apply not_elem_of_cons in Hni as [Hne Hni].
  rewrite decide_False by done. by rewrite IH.
Qed.

Lemma setdefault_append_keys (k : K) (v : V) (m : list (K * list V)) :
  map fst (setdefault_append k v m) =
    if decide (k ∈ map fst m) then map fst m else map fst m ++ [k].
Proof.
  induction m as [|[k' vs'] m IH]; cbn [setdefault_append map fst].
  - destruct (decide (k ∈ [])) as [Hin|_]; [|done].
    by apply elem_of_nil in Hin.
  - destruct (decide (k' = k)) as [->|Hne]; cbn [map fst].
    + rewrite decide_True; [done|]. by left.
    + rewrite IH. destruct (decide (k ∈ map fst m)) as [Hin|Hni].
      * rewrite decide_True; [done|]. by right.
      * rewrite decide_False; [done|].
        intros Hin. apply elem_of_cons in Hin as [->|Hin]; done.
Qed.

Lemma setdefault_append_NoDup (k : K) (v : V) (m : list (K * list V)) :
  NoDup (map fst m) → NoDup (map fst (setdefault_append k v m)).
Proof.
  intros Hnd. rewrite setdefault_append_keys.
  destruct (decide (k ∈ map fst m)) as [Hin|Hni]; [done|].
  apply NoDup_app. split; [done|]. split; [|apply NoDup_singleton].
  intros z Hz Hz'. apply list_elem_of_singleton in Hz' as ->. done.
Qed.

Lemma lookup_key_In {W : Type} (k : K) (w : W) (m : list (K * W)) :
  NoDup (map fst m) → In (k, w) m → lookup_key k m = Some w.
Proof.
  unfold lookup_key. induction m as [|[k' w'] m IH]; simpl; [done|].
  intros Hnd Hin. apply NoDup_cons in Hnd as [Hni Hnd].
  destruct Hin as [[= -> ->]|Hin].
  - by rewrite bool_decide_eq_true_2.
  - rewrite bool_decide_eq_false_2; [by apply IH|].
    intros ->. apply Hni. apply list_elem_of_In.
    apply in_map_iff. by exists (k, w).
Qed.

Lemma lookup_key_map {W : Type} (g : K * W → W) (k : K) (m : list (K * W)) :
  lookup_key k (map (λ kw, (kw.1, g kw)) m) =
  (λ w, g (k, w)) <$> lookup_key k m.
Proof.
  unfold lookup_key. induction m as [|[k' w'] m IH]; simpl; [done|].
  destruct (decide (k' = k)) as [->|Hne].
  - by rewrite !bool_decide_eq_true_2.
  - by rewrite !bool_decide_eq_false_2.
Qed.

Lemma rebind_map_ext {W : Type} (g h : K * W → W) (k : K) (w : W)
  (m : list (K * W)) :
  (∀ kw, In kw m → (if decide (kw.1 = k) then w else g kw) = h kw) →
  rebind k w (map (λ kw, (kw.1, g kw)) m) = map (λ kw, (kw.1, h kw)) m.
Proof.
  intros Hext. unfold rebind. rewrite map_map. apply map_ext_in.
  intros kw Hin. simpl. rewrite <- (Hext kw Hin).
  by destruct (decide (kw.1 = k)).
Qed.

End Assoc.

(** ** The row lists and the clip-box groups *)

Lemma key_le_total a b : key_le a b = true ∨ key_le b a = true.
Proof.
  unfold key_le.
  rewrite !orb_true_iff, !andb_true_iff, !orb_true_iff, !andb_true_iff,
    !Z.ltb_lt, !Z.eqb_eq, !Z.leb_le. lia.
Qed.

Lemma key_le_trans a b c :
  key_le a b = true → key_le b c = true → key_le a c = true.
Proof.
  unfold key_le.
  rewrite !orb_true_iff, !andb_true_iff, !orb_true_iff, !andb_true_iff,
    !Z.ltb_lt, !Z.eqb_eq, !Z.leb_le. lia.
Qed.

(** Between two records of one row there are only records of that row. *)
Lemma key_le_squeeze a z c :
  key_le a z = true → key_le z c = true → key_of a = key_of c →
  key_of z = key_of c.
Proof.
  unfold key_le, key_of.
  rewrite !orb_true_iff, !andb_true_iff, !orb_true_iff, !andb_true_iff,
    !Z.ltb_lt, !Z.eqb_eq, !Z.leb_le.
  intros H1 H2 [= Hp Hy]. f_equal; lia.
Qed.

Lemma bucket_snoc store c :
  bucket (store ++ [c]) = bucket_step (bucket store) (length store, c).
Proof.
  unfold bucket. rewrite imap_app, fold_left_app. simpl.
  by rewrite Nat.add_0_r.
Qed.

Lemma bucket_rows_snoc store c :
  (bucket (store ++ [c])).1 =
  setdefault_append (key_of c) (length store) (bucket store).1.
Proof. rewrite bucket_snoc. by destruct (bucket store). Qed.

Lemma bucket_cboxes_snoc store c :
  (bucket (store ++ [c])).2 =
  setdefault_append (clipbox c) (elem c) (bucket store).2.
Proof. rewrite bucket_snoc. by destruct (bucket store). Qed.

Lemma bucket_keys_NoDup store : NoDup (map fst (bucket store).1).
Proof.
  induction store as [|c store IH] using rev_ind; [constructor|].
  rewrite bucket_rows_snoc. by apply setdefault_append_NoDup.
Qed.

Lemma group_snoc store c cb :
  group (store ++ [c]) cb =
  group store cb ++ (if same_clipbox cb c then [elem c] else []).
Proof.
  unfold group. rewrite List.filter_app, map_app. simpl.
  by destruct (same_clipbox cb c).
Qed.

(** The group of a clip box is what [cboxes] holds for it. *)
Lemma bucket_cboxes_lookup store cb :
  lookup_key cb (bucket store).2 =
  match group store cb with [] => None | g => Some g end.
Proof.
  induction store as [|c store IH] using rev_ind; [done|].
  rewrite bucket_cboxes_snoc, group_snoc. unfold same_clipbox.
  destruct (decide (clipbox c = cb)) as [->|Hne].
  - rewrite lookup_key_setdefault_eq, IH, bool_decide_eq_true_2 by done.
    by destruct (group store _).
  - rewrite lookup_key_setdefault_ne, IH, bool_decide_eq_false_2 by done.
    by rewrite app_nil_r.
Qed.

(** In a sorted store the records of a row are neighbours, so walking the
    rows in the order of their keys visits the records in store order. *)
Lemma bucket_rows_sorted store :
  StronglySorted (λ a b, key_le a b = true) store →
  concat (map snd (bucket store).1) = seq 0 (length store) ∧
  (∀ k, k ∈ map fst (bucket store).1 → ∃ a, a ∈ store ∧ key_of a = k) ∧
  (∀ front z, store = front ++ [z] →
     ∃ m vs, (bucket store).1 = m ++ [(key_of z, vs)]).
Proof.
  induction store as [|c store IH] using rev_ind; intros Hs.
  { split; [done|]. split.
    - intros k Hk. by apply elem_of_nil in Hk.
    - intros front z Hz. by destruct front. }
  apply StronglySorted_app in Hs as (Hle & Hs & Hc).
  destruct (IH Hs) as (Hcat & Hkeys & Hlast).
  pose proof (bucket_keys_NoDup store) as Hnd.
  rewrite bucket_rows_snoc, length_app, Nat.add_1_r, seq_S. simpl.
  destruct (decide (key_of c ∈ map fst (bucket store).1)) as [Hin|Hni].
  - destruct (Hkeys _ Hin) as (a & Ha & Hka).
    destruct (exists_last (l := store)) as (front & z & Hfz).
    { intros ->. by apply elem_of_nil in Ha. }
    destruct (Hlast front z Hfz) as (m & vs & Hrows).
    assert (key_of z = key_of c) as Hkz.
    { apply (key_le_squeeze a).
      - rewrite Hfz in Ha, Hs. apply elem_of_app in Ha as [Ha|Ha].
        + apply StronglySorted_app in Hs as (Hfront & Hf1 & Hf2).
          apply Hfront; [done|]. by apply list_elem_of_singleton.
        + apply list_elem_of_singleton in Ha as ->.
          destruct (key_le_total z z); done.
      - apply Hle; [|by apply list_elem_of_singleton].
        rewrite Hfz. apply elem_of_app. right. by apply list_elem_of_singleton.
      - done. }
    rewrite Hrows, Hkz in *.
    rewrite map_app in Hnd. simpl in Hnd.
    apply NoDup_app in Hnd as (_ & Hdisj & _).
    rewrite setdefault_append_snoc.
    2: { intros Hm. apply (Hdisj _ Hm). by apply list_elem_of_singleton. }
    split; [|split].
    + rewrite map_app, concat_app in Hcat |- *. simpl in *.
      rewrite app_nil_r in Hcat |- *. by rewrite app_assoc, Hcat.
    + intros k Hk. rewrite map_app in Hk. simpl in Hk.
      destruct (Hkeys k) as (a' & Ha' & Hka'); [by rewrite map_app|].
      exists a'. split; [|done]. apply elem_of_app. by left.
    + intros front' z' Heq. apply app_inj_tail in Heq as [_ <-]. eauto.
  - rewrite setdefault_append_fresh by done.
    split; [|split].
    + rewrite map_app, concat_app, Hcat. simpl. done.
    + intros k Hk. rewrite map_app in Hk. apply elem_of_app in Hk as [Hk|Hk].
      * destruct (Hkeys k Hk) as (a' & Ha' & Hka').
        exists a'. split; [|done]. apply elem_of_app. by left.
      * apply list_elem_of_singleton in Hk as ->.
        exists c. split; [|done]. apply elem_of_app. right.
        by apply list_elem_of_singleton.
    + intros front' z' Heq. apply app_inj_tail in Heq as [_ <-]. eauto.
Qed.

(** ** The merge loop *)

Lemma existsb_filter_nil {X : Type} (p : X → bool) (l : list X) :
  existsb p l = false ↔ List.filter p l = [].
Proof.
  induction l as [|a l IH]; simpl; [done|].
  destruct (p a); simpl; [split; discriminate | done].
Qed.

Lemma filter_filter_andb {X : Type} (f g : X → bool) (l : list X) :
  List.filter f (List.filter g l) = List.filter (λ a, g a && f a) l.
Proof.
  induction l as [|a l IH]; simpl; [done|].
  destruct (g a); simpl; [|done]. destruct (f a); by rewrite IH.
Qed.

Lemma ns_eqb_refl a : ns_eqb a a = true.
Proof.
  unfold ns_eqb. rewrite !bool_decide_eq_true_2 by done.
  by rewrite String.eqb_refl.
Qed.

Lemma ns_eqb_elem a b : ns_eqb a b = true → elem a = elem b.
Proof.
  unfold ns_eqb. rewrite !andb_true_iff, !bool_decide_eq_true. tauto.
Qed.

Lemma store_upto_lookup store j i :
  store_upto store j !! i =
  (λ c, if (i <? j) && is_first store i
        then set_lines (group store (clipbox c)) c else c) <$> store !! i.
Proof. unfold store_upto. apply list_lookup_imap. Qed.

Lemma store_upto_elem store j i a :
  store_upto store j !! i = Some a → elem <$> store !! i = Some (elem a).
Proof.
  rewrite store_upto_lookup. destruct (store !! i) as [c|]; [|done].
  simpl. intros [= <-]. by destruct (_ && _).
Qed.

Lemma merged_upto_S store j :
  merged_upto store (S j) =
  merged_upto store j ++
  match store !! j with
  | Some c => if is_first store j then [clipbox c] else []
  | None => []
  end.
Proof.
  unfold merged_upto. rewrite seq_S, flat_map_app. simpl.
  by rewrite app_nil_r.
Qed.

Lemma take_S_lookup {X : Type} (l : list X) j :
  take (S j) l = take j l ++ match l !! j with Some c => [c] | None => [] end.
Proof.
  destruct (l !! j) as [c|] eqn:Hj.
  - by apply take_S_r.
  - apply lookup_ge_None in Hj. rewrite !take_ge by lia. by rewrite app_nil_r.
Qed.

(** A clip box is in [merged] once a record of its group has been seen. *)
Lemma merged_upto_elem store j cb :
  cb ∈ merged_upto store j ↔ existsb (same_clipbox cb) (take j store) = true.
Proof.
  induction j as [|j IH].
  { rewrite take_0. simpl. split; [intros ?%elem_of_nil; done | done]. }
  rewrite merged_upto_S, take_S_lookup, elem_of_app, existsb_app, orb_true_iff, IH.
  destruct (store !! j) as [c|] eqn:Hj.
  2: { simpl. rewrite elem_of_nil. intuition discriminate. }
  cbn [existsb]. rewrite orb_false_r.
  unfold is_first. rewrite Hj.
  assert (same_clipbox cb c = true ↔ clipbox c = cb) as Hsame
    by (unfold same_clipbox; apply bool_decide_eq_true).
  destruct (existsb (same_clipbox (clipbox c)) (take j store)) eqn:He; simpl.
  - rewrite elem_of_nil. split; [intros [?|[]]; auto|].
    intros [H|H]; [auto|]. left. apply Hsame in H. by subst cb.
  - rewrite list_elem_of_singleton, Hsame. split; intros [?|?]; auto.
Qed.

Lemma merged_test store j c :
  store !! j = Some c →
  bool_decide (clipbox c ∈ merged_upto store j) = negb (is_first store j).
Proof.
  intros Hj. unfold is_first. rewrite Hj, negb_involutive.
  destruct (existsb _ _) eqn:He.
  - apply bool_decide_eq_true_2. by apply merged_upto_elem.
  - apply bool_decide_eq_false_2. rewrite merged_upto_elem. congruence.
Qed.

Lemma group_nonempty store j c :
  store !! j = Some c → group store (clipbox c) ≠ [].
Proof.
  intros Hj Hnil. unfold group in Hnil. apply map_eq_nil in Hnil.
  apply existsb_filter_nil in Hnil.
  assert (existsb (same_clipbox (clipbox c)) store = true) as He; [|congruence].
  apply existsb_exists. exists c. split.
  - apply list_elem_of_In. by eapply list_elem_of_lookup_2.
  - unfold same_clipbox. by apply bool_decide_eq_true_2.
Qed.

Lemma concat_NoDup_disjoint {K : Type} (m : list (K * list nat))
  (kr kr' : K * list nat) (j : nat) :
  NoDup (concat (map snd m)) → In kr m → In kr' m → kr ≠ kr' →
  j ∈ kr.2 → j ∉ kr'.2.
Proof.
  induction m as [|kr0 m IH]; simpl; [done|].
  intros Hnd Hin Hin' Hne Hj Hj'.
  apply NoDup_app in Hnd as (_ & Hdisj & Hnd).
  assert (∀ kr1, In kr1 m → ∀ i, i ∈ kr1.2 → i ∈ concat (map snd m)) as Hsub.
  { intros kr1 H1 i Hi. apply list_elem_of_In, in_concat.
    exists kr1.2. split; [by apply in_map | by apply list_elem_of_In]. }
  destruct Hin as [->|Hin], Hin' as [->|Hin'].
  - done.
  - apply (Hdisj j Hj). by apply (Hsub kr').
  - apply (Hdisj j Hj'). by apply (Hsub kr).
  - by apply IH.
Qed.

Section Merge.
Variable store : list ns.
Variable rows : rows_t.
Variable cboxes : cboxes_t.
Hypothesis Helem : NoDup (map elem store).
Hypothesis Hkeys : NoDup (map fst rows).
Hypothesis Hcat : concat (map snd rows) = seq 0 (length store).
Hypothesis Hcb : ∀ cb,
  lookup_key cb cboxes = match group store cb with [] => None | g => Some g end.

Lemma rows_index_lt k row i : In (k, row) rows → i ∈ row → i < length store.
Proof using Hcat.
  intros Hin Hi.
  assert (In i (concat (map snd rows))) as Hc.
  { apply in_concat. exists row. split; [|by apply list_elem_of_In].
    apply in_map_iff. by exists (k, row). }
  rewrite Hcat in Hc. apply in_seq in Hc. lia.
Qed.

(** Two references are different exactly when they are different records:
    the element tells the records apart. *)
Lemma ref_neb_store j i i' :
  i < length store → i' < length store →
  ref_neb (store_upto store j) i i' = negb (i =? i').
Proof using Helem.
  intros Hi Hi'. unfold ref_neb.
  destruct (lookup_lt_is_Some_2 (store_upto store j) i) as [a Ha];
    [unfold store_upto; by rewrite length_imap|].
  destruct (lookup_lt_is_Some_2 (store_upto store j) i') as [a' Ha'];
    [unfold store_upto; by rewrite length_imap|].
  rewrite Ha, Ha'. f_equal.
  destruct (Nat.eqb_spec i i') as [->|Hne].
  - rewrite Ha in Ha'. injection Ha' as <-. apply ns_eqb_refl.
  - destruct (ns_eqb a a') eqn:Heq; [|done]. exfalso. apply Hne.
    apply ns_eqb_elem in Heq.
    apply store_upto_elem in Ha, Ha'.
    rewrite <- list_lookup_fmap in Ha, Ha'.
    apply (NoDup_lookup _ _ _ _ Helem Ha). by rewrite Heq.
Qed.

(** One round of the merge loop takes the state for [j] to the state for
    [j + 1]. *)
Lemma merge_cell_step k row j :
  In (k, row) rows → j ∈ row →
  merge_cell cboxes k (state_upto store rows j) j =
    Ok (state_upto store rows (S j)).
Proof using All.
  intros Hin Hj.
  pose proof (rows_index_lt _ _ _ Hin Hj) as Hlt.
  destruct (lookup_lt_is_Some_2 store j Hlt) as [c Hc].
  unfold merge_cell, state_upto. simpl.
  rewrite store_upto_lookup, Hc. simpl.
  rewrite Nat.ltb_irrefl. simpl.
  rewrite (merged_test _ _ _ Hc).
  destruct (is_first store j) eqn:Hfirst; simpl.
  - (* the representative of its group *)
    rewrite Hcb.
    destruct (group store (clipbox c)) as [|g0 g] eqn:Hg;
      [by apply group_nonempty in Hc|].
    simpl. f_equal. f_equal.
    + apply list_eq. intros i.
      rewrite !store_upto_lookup.
      destruct (decide (j = i)) as [<-|Hne].
      * rewrite list_lookup_alter_eq, store_upto_lookup, Hc. simpl.
        rewrite Nat.ltb_irrefl, (proj2 (Nat.ltb_lt j (S j))), Hfirst by lia.
        simpl. by rewrite Hg.
      * rewrite list_lookup_alter_ne, store_upto_lookup by done.
        destruct (store !! i) as [ci|]; [|done]. simpl.
        replace (i <? S j) with (i <? j); [done|].
        destruct (Nat.ltb_spec i j), (Nat.ltb_spec i (S j)); lia || done.
    + unfold rows_upto. apply map_ext. intros [k' row']. cbn [fst snd]. f_equal.
      apply filter_ext. intros i.
      destruct (decide (i = j)) as [->|Hne].
      * by rewrite Hfirst, !orb_true_r.
      * replace (S j <=? i) with (j <=? i); [done|].
        destruct (Nat.leb_spec j i), (Nat.leb_spec (S j) i); lia || done.
    + rewrite merged_upto_S, Hc, Hfirst. done.
  - (* another record of a group seen before *)
    unfold rows_upto at 1.
    rewrite (lookup_key_map
      (λ kr : row_key * list nat,
         List.filter (λ i, (j <=? i) || is_first store i) kr.2) k rows).
    rewrite (lookup_key_In _ _ _ Hkeys Hin). simpl.
    f_equal. f_equal.
    + apply list_eq. intros i. rewrite !store_upto_lookup.
      destruct (store !! i) as [ci|] eqn:Hi; [|done]. simpl.
      destruct (decide (i = j)) as [->|Hne].
      * by rewrite Hfirst, !andb_false_r.
      * replace (i <? S j) with (i <? j); [done|].
        destruct (Nat.ltb_spec i j), (Nat.ltb_spec i (S j)); lia || done.
    + unfold rows_upto.
      apply (rebind_map_ext
        (λ kr : row_key * list nat,
           List.filter (λ i, (j <=? i) || is_first store i) kr.2)
        (λ kr : row_key * list nat,
           List.filter (λ i, (S j <=? i) || is_first store i) kr.2)).
      intros [k' row'] Hin'. cbn [fst snd].
      destruct (decide (k' = k)) as [->|Hne].
      * assert (row' = row) as ->.
        { pose proof (lookup_key_In _ _ _ Hkeys Hin) as H1.
          pose proof (lookup_key_In _ _ _ Hkeys Hin') as H2. congruence. }
        rewrite filter_filter_andb. apply filter_ext_in.
        intros i Hi. apply list_elem_of_In in Hi.
        rewrite ref_neb_store by (done || by eapply rows_index_lt).
        destruct (Nat.eqb_spec i j) as [->|Hne]; cbn [negb].
        -- by rewrite Hfirst, andb_false_r, (proj2 (Nat.leb_gt _ _)) by lia.
        -- rewrite andb_true_r.
           replace (S j <=? i) with (j <=? i); [done|].
           destruct (Nat.leb_spec j i), (Nat.leb_spec (S j) i); lia || done.
      * apply filter_ext_in. intros i Hi. apply list_elem_of_In in Hi.
        assert (i ≠ j) as Hij.
        { intros ->. revert Hi.
          apply (concat_NoDup_disjoint rows (k, row) (k', row')); try done.
          - rewrite Hcat. apply NoDup_ListNoDup, seq_NoDup.
          - congruence. }
        replace (S j <=? i) with (j <=? i); [done|].
        destruct (Nat.leb_spec j i), (Nat.leb_spec (S j) i); lia || done.
    + rewrite merged_upto_S, Hc, Hfirst. by rewrite app_nil_r.
Qed.

Lemma merge_loop T j :
  map snd T = seq j (length T) →
  (∀ ki, In ki T → ∃ row, In (ki.1, row) rows ∧ ki.2 ∈ row) →
  for_each (λ s (ki : row_key * nat), merge_cell cboxes ki.1 s ki.2) T
           (state_upto store rows j) =
    Ok (state_upto store rows (j + length T)).
Proof using All.
  revert j. induction T as [|[k i] T IH]; intros j Hseq HT.
  - simpl. by rewrite Nat.add_0_r.
  - cbn [map length seq snd] in Hseq. injection Hseq as -> Hseq.
    destruct (HT (k, j)) as (row & Hin & Hj); [by left|].
    cbn [fst snd] in Hin, Hj. cbn [for_each fst snd]. rewrite (merge_cell_step _ _ _ Hin Hj).
    simpl. rewrite IH; [|done|intros ki Hki; apply HT; by right].
    do 2 f_equal. lia.
Qed.

Lemma merged_row_values row :
  (∀ i, i ∈ row → i < length store) →
  map_res (λ i, of_option BadRef (store_upto store (length store) !! i))
    (List.filter (λ i, (length store <=? i) || is_first store i) row) =
  Ok (merged_row store row).
Proof using Type.
  induction row as [|i row IH]; intros Hrow; [done|].
  assert (i < length store) as Hi by (apply Hrow; by left).
  cbn [List.filter merged_row flat_map].
  rewrite (proj2 (Nat.leb_gt _ _) Hi). cbn [orb].
  unfold cell_of at 1.
  destruct (lookup_lt_is_Some_2 store i Hi) as [c Hc]. rewrite Hc.
  fold (merged_row store row).
  destruct (is_first store i) eqn:Hfirst.
  - cbn [map_res]. rewrite store_upto_lookup, Hc. simpl.
    rewrite (proj2 (Nat.ltb_lt _ _) Hi), Hfirst. simpl.
    rewrite IH; [done|]. intros i' Hi'. apply Hrow. by right.
  - simpl. apply IH. intros i' Hi'. apply Hrow. by right.
Qed.

End Merge.

Lemma for_each_map {S X Y : Type} (body : S → Y → res S) (g : X → Y)
  (xs : list X) (s : S) :
  for_each body (map g xs) s = for_each (λ s a, body s (g a)) xs s.
Proof.
  revert s. induction xs as [|a xs IH]; intros s; simpl; [done|].
  destruct (body s (g a)); simpl; [apply IH | done].
Qed.

(** The nested loops walk the cells of all rows in one sweep. *)
Lemma merge_flat cboxes (rows : rows_t) s :
  for_each (λ s (kr : row_key * list nat),
              for_each (merge_cell cboxes kr.1) kr.2 s) rows s =
  for_each (λ s (ki : row_key * nat), merge_cell cboxes ki.1 s ki.2)
           (flat_map (λ kr : row_key * list nat, map (pair kr.1) kr.2) rows) s.
Proof.
  revert s. induction rows as [|[k row] rows IH]; intros s; [done|].
  cbn [for_each flat_map fst snd]. rewrite for_each_app, for_each_map.
  cbn [fst snd].
  destruct (for_each _ row s) as [s'|e]; simpl; [apply IH | done].
Qed.

Lemma flat_pairs_snd (rows : rows_t) :
  map snd (flat_map (λ kr : row_key * list nat, map (pair kr.1) kr.2) rows) =
  concat (map snd rows).
Proof.
  induction rows as [|[k row] rows IH]; [done|].
  cbn [flat_map map concat fst snd]. rewrite map_app, IH, map_map. simpl.
  by rewrite map_id.
Qed.

Lemma state_upto_0 store rows :
  state_upto store rows 0 = MergeState store rows [].
Proof.
  unfold state_upto. f_equal.
  - apply list_eq. intros i. rewrite store_upto_lookup.
    by destruct (store !! i).
  - unfold rows_upto. rewrite <- (map_id rows) at 2. apply map_ext.
    intros [k row]. simpl. f_equal.
    induction row as [|i row IH]; simpl; by rewrite ?IH.
Qed.

(** The merge loop refines the merging the specification describes. *)
Lemma merge_refines store rows cboxes :
  NoDup (map elem store) →
  NoDup (map fst rows) →
  concat (map snd rows) = seq 0 (length store) →
  (∀ cb, lookup_key cb cboxes =
         match group store cb with [] => None | g => Some g end) →
  ∃ s, merge cboxes rows store = Ok s ∧
       rows_values s = Ok (map (λ kr, merged_row store kr.2) rows).
Proof.
  intros Helem Hkeys Hcat Hcb.
  exists (state_upto store rows (length store)). split.
  - unfold merge. rewrite merge_flat, <- state_upto_0.
    assert (length (flat_map (λ kr : row_key * list nat, map (pair kr.1) kr.2) rows)
            = length store) as Hlen.
    { rewrite <- (length_map snd), flat_pairs_snd, Hcat. apply length_seq. }
    rewrite (merge_loop store rows cboxes Helem Hkeys Hcat Hcb).
    + by rewrite Hlen.
    + by rewrite flat_pairs_snd, Hlen.
    + intros [k i] Hin. apply in_flat_map in Hin as ([k' row] & Hin & Hi).
      apply in_map_iff in Hi as (i' & [= <- <-] & Hi).
      exists row. split; [done | by apply list_elem_of_In].
  - unfold rows_values, state_upto, rows_upto. cbn [m_rows m_store].
    assert (∀ kr, In kr rows → ∀ i, i ∈ kr.2 → i < length store) as Hvalid.
    { intros [k row] Hin i Hi. by eapply (rows_index_lt store rows Hcat). }
    clear Hkeys Hcat. induction rows as [|kr rows IH]; [done|].
    cbn [map map_res fst snd].
    rewrite merged_row_values by (apply Hvalid; by left). simpl.
    rewrite IH; [done|]. intros kr' Hin. apply Hvalid. by right.
Qed.

Lemma merged_row_app store row row' :
  merged_row store (row ++ row') = merged_row store row ++ merged_row store row'.
Proof. unfold merged_row. apply flat_map_app. Qed.

Lemma merged_rows_concat store (rows : rows_t) :
  concat (map (λ kr, merged_row store kr.2) rows) =
  merged_row store (concat (map snd rows)).
Proof.
  induction rows as [|kr rows IH]; [done|].
  cbn [map concat]. by rewrite merged_row_app, IH.
Qed.

(** ** Sorting keeps the records *)

Lemma insert_sorted_Permutation {A : Type} (le : A → A → bool) a l :
  insert_sorted le a l ≡ₚ a :: l.
Proof.
  induction l as [|b l IH]; simpl; [done|].
  destruct (le a b); [done|]. rewrite IH. apply Permutation_swap.
Qed.

Lemma sorted_Permutation {A : Type} (le : A → A → bool) l : sorted le l ≡ₚ l.
Proof.
  induction l as [|a l IH]; simpl; [done|].
  by rewrite insert_sorted_Permutation, IH.
Qed.

Lemma sorted_NoDup_elem data :
  NoDup (map elem data) → NoDup (map elem (sorted key_le data)).
Proof.
  intros Hnd.
  assert (map elem (sorted key_le data) ≡ₚ map elem data) as ->; [|done].
  apply Permutation_map, sorted_Permutation.
Qed.

(** ** The representatives of the clip-box groups *)

Lemma merged_row_snoc store j :
  merged_row store (seq 0 (S j)) = merged_row store (seq 0 j) ++ cell_of store j.
Proof.
  rewrite seq_S, merged_row_app. unfold merged_row at 2. simpl.
  by rewrite app_nil_r.
Qed.

Lemma representatives_upto store cb j :
  List.filter (same_clipbox cb) (merged_row store (seq 0 j)) =
  match List.filter (same_clipbox cb) (take j store) with
  | [] => []
  | r :: _ => [set_lines (group store cb) r]
  end.
Proof.
  induction j as [|j IH]; [by rewrite take_0|].
  rewrite merged_row_snoc, take_S_lookup, !List.filter_app, IH.
  unfold cell_of, is_first.
  destruct (store !! j) as [c|] eqn:Hj; [|by rewrite !app_nil_r].
  assert (∀ g, same_clipbox cb (set_lines g c) = same_clipbox cb c) as Hset
    by done.
  destruct (existsb (same_clipbox (clipbox c)) (take j store)) eqn:He;
    destruct (same_clipbox cb c) eqn:Hsame;
    cbn [negb List.filter]; rewrite ?Hset, ?Hsame, ?app_nil_r; try done.
  - apply bool_decide_eq_true in Hsame as <-.
    destruct (List.filter _ (take j store)) as [|r F] eqn:HF; [|done].
    apply existsb_filter_nil in HF. congruence.
  - apply bool_decide_eq_true in Hsame as <-.
    apply existsb_filter_nil in He. by rewrite He.
Qed.

(** Of each group exactly one record stays: the first, with the lines of
    the whole group. *)
Lemma representatives_group store cb :
  List.filter (same_clipbox cb) (representatives store) =
  match List.filter (same_clipbox cb) store with
  | [] => []
  | r :: _ => [set_lines (group store cb) r]
  end.
Proof.
  unfold representatives. rewrite representatives_upto.
  by rewrite take_ge.
Qed.

Lemma merged_row_In store row c :
  In c (merged_row store row) →
  ∃ i c0, i ∈ row ∧ store !! i = Some c0 ∧
          c = set_lines (group store (clipbox c0)) c0.
Proof.
  unfold merged_row. intros Hin. apply in_flat_map in Hin as (i & Hi & Hc).
  unfold cell_of in Hc. destruct (store !! i) as [c0|] eqn:Hi0; [|done].
  destruct (is_first store i); [|done].
  destruct Hc as [<-|[]]. exists i, c0. split; [by apply list_elem_of_In|done].
Qed.

Lemma group_In store cb l :
  In l (group store cb) → ∃ c, In c store ∧ elem c = l ∧ clipbox c = cb.
Proof.
  unfold group. intros Hin. apply in_map_iff in Hin as (c & <- & Hc).
  apply filter_In in Hc as [Hc Hcb]. exists c. split; [done|]. split; [done|].
  unfold same_clipbox in Hcb. by apply bool_decide_eq_true in Hcb.
Qed.

Lemma setdefault_append_In {K V : Type} `{EqDecision K} (k k' : K) (v : V)
  (vs' : list V) (m : list (K * list V)) :
  In (k', vs') (setdefault_append k v m) →
  In (k', vs') m ∨
  (k' = k ∧ ∃ vs, vs' = vs ++ [v] ∧ (In (k, vs) m ∨ vs = [])).
Proof.
  induction m as [|[k0 vs0] m IH]; simpl.
  - intros [[= <- <-]|[]]. right. split; [done|]. exists []. auto.
  - destruct (decide (k0 = k)) as [->|Hne]; simpl.
    + intros [[= <- <-]|Hin]; [|auto].
      right. split; [done|]. exists vs0. auto.
    + intros [Heq|Hin]; [auto|].
      destruct (IH Hin) as [?|(-> & vs & -> & [?| ->])]; [auto|..].
      * right. split; [done|]. exists vs. auto.
      * right. split; [done|]. exists []. auto.
Qed.

(** The records of a row list have the key of the row. *)
Lemma bucket_rows_key store k row i :
  In (k, row) (bucket store).1 → i ∈ row →
  key_of <$> store !! i = Some k.
Proof.
  revert k row i.
  induction store as [|c store IH] using rev_ind; intros k row i; [done|].
  rewrite bucket_rows_snoc. intros Hin Hi.
  assert (∀ k row, In (k, row) (bucket store).1 → i ∈ row →
          key_of <$> (store ++ [c]) !! i = Some k) as Hold.
  { intros k0 row0 H0 Hi0. pose proof (IH _ _ _ H0 Hi0) as Hk.
    destruct (store !! i) as [ci|] eqn:Hci; [|done].
    by rewrite (lookup_app_l_Some _ _ _ _ Hci). }
  apply setdefault_append_In in Hin as [Hin|(-> & vs & -> & Hvs)].
  - by eapply Hold.
  - apply elem_of_app in Hi as [Hi|Hi].
    + destruct Hvs as [Hvs| ->]; [by eapply Hold | by apply elem_of_nil in Hi].
    + apply list_elem_of_singleton in Hi as ->.
      by rewrite lookup_app_r, Nat.sub_diag by lia.
Qed.

Lemma breaks_and_lines_In n ls c :
  c ∈ breaks_and_lines n ls → n ≤ c ∨ c ∈ ls.
Proof.
  revert n. induction ls as [|l ls IH]; intros n; simpl.
  - by intros ?%elem_of_nil.
  - intros Hc. apply elem_of_cons in Hc as [->|Hc]; [left; lia|].
    apply elem_of_cons in Hc as [->|Hc]; [right; by left|].
    apply IH in Hc as [?|?]; [left; lia | right; by right].
Qed.

(** The cell made of a representative: it is re-tagged [td], gains a
    break and a line for every further line of its group, and ends up as
    the last child of the row element. *)
Lemma retag_cell_children tr d cell rest d' :
  retag_cell tr d cell = Ok d' →
  lines cell = elem cell :: rest →
  NoDup (elem cell :: rest) →
  (∀ l, l ∈ rest → l < length d) →
  (∀ c, c ∈ children_of d (elem cell) →
        c < length d ∧ c ∉ elem cell :: rest) →
  n_tag <$> d' !! elem cell = Some "td" ∧
  children_of d' (elem cell) =
    children_of d (elem cell) ++ breaks_and_lines (length d) rest ∧
  (∀ i, i < length rest → n_tag <$> d' !! (length d + i) = Some "br") ∧
  (∀ q, q < length d → n_text <$> d' !! q = n_text <$> d !! q) ∧
  ∃ before, children_of d' tr = before ++ [elem cell].
Proof.
  intros H Hlines Hnd Hrest Hch.
  pose proof (retag_cell_tags _ _ _ _ H) as (_ & Htd & _).
  unfold retag_cell in H. rewrite Hlines in H. cbn [List.tl] in H.
  apply bind_ok in H as (d1 & Hm1 & H).
  apply bind_ok in H as (d2 & Hm2 & H).
  apply bind_ok in H as (d3 & Hls & H).
  apply modify_inv in Hm1 as ([n Hn] & ->).
  apply modify_inv in Hm2 as (_ & ->).
  assert (elem cell < length d) as Hlt by (by eapply lookup_lt_Some).
  apply NoDup_cons in Hnd as [Hni Hnd].
  apply cell_lines_children in Hls as (Hlen3 & Hc3 & Hbr3 & Htxt3).
  2: by rewrite !length_alter.
  2: done.
  2: { intros l Hl. rewrite !length_alter. split; [by apply Hrest|].
       intros ->. done. }
  2: { intros c. rewrite children_of_set_class, children_of_set_tag, !length_alter.
       intros Hc. apply Hch in Hc as [? Hc]. split; [done|].
       intros Hin. apply Hc. by right. }
  rewrite !length_alter in Hlen3, Hbr3, Hc3, Htxt3.
  rewrite children_of_set_class, children_of_set_tag in Hc3.
  pose proof (append_ne _ _ _ _ H) as Htr.
  split; [done|]. split; [|split; [|split]].
  - rewrite (append_children_ne _ _ _ _ _ H) by done.
    rewrite Hc3. apply without_notin. intros Hin.
    apply elem_of_app in Hin as [Hin|Hin].
    + apply Hch in Hin as [_ Hin]. apply Hin. by left.
    + apply breaks_and_lines_In in Hin as [?|?]; [lia | done].
  - intros i Hi. rewrite (append_tag _ _ _ _ _ H). by apply Hbr3.
  - intros q Hq. rewrite (proj1 (append_text _ _ _ _ q H)), Htxt3 by done.
    destruct (decide (elem cell = q)) as [<-|Hne].
    + rewrite !list_lookup_alter_eq, Hn. done.
    + by rewrite !list_lookup_alter_ne.
  - eexists. apply (append_children _ _ _ _ H).
Qed.





(** ** Table reconstruction as a whole *)

(** With the merge loop replaced by what it computes. *)
Lemma reconstruct_tables_eq d data :
  NoDup (map elem data) →
  reconstruct_tables d data =
    let store := sorted key_le data in
    d ← retag_rows d (map (λ kr : row_key * list nat, merged_row store kr.2)
                          (bucket store).1);
    d ← drop_empty d;
    wrap_set d "tr" "table".
Proof.
  intros Hnd. cbv zeta.
  set (store := sorted key_le data).
  pose proof (sorted_NoDup_elem data Hnd) as Hnds. fold store in Hnds.
  assert (StronglySorted (λ a b, key_le a b = true) store) as Hsorted
    by (apply sorted_sorted; [apply key_le_total | apply key_le_trans]).
  destruct (bucket_rows_sorted store Hsorted) as (Hcat & _ & _).
  destruct (merge_refines store (bucket store).1 (bucket store).2 Hnds
              (bucket_keys_NoDup store) Hcat (bucket_cboxes_lookup store))
    as (s & Hmerge & Hvalues).
  unfold reconstruct_tables. fold store.
  destruct (bucket store) as [rows cboxes]. simpl in *.
  rewrite Hmerge. simpl. rewrite Hvalues. reflexivity.
Qed.

(** Two rows of two records. *)
Lemma bucket_two_rows a b c d :
  key_of a = key_of b → key_of c = key_of d → key_of a ≠ key_of c →
  (bucket [a; b; c; d]).1 = [(key_of a, [0; 1]); (key_of c, [2; 3])].
Proof.
  intros Hab Hcd Hac.
  change [a; b; c; d] with (((([] ++ [a]) ++ [b]) ++ [c]) ++ [d]).
  rewrite !bucket_rows_snoc. simpl.
  rewrite <- Hab, <- Hcd.
  rewrite decide_True by done. simpl.
  rewrite decide_False by done. simpl.
  rewrite decide_False by done. simpl.
  rewrite decide_True by done. done.
Qed.

(** ** A grid of four clipped lines *)

Lemma truthy_length s : Py.truthy s = true ↔ 0 < String.length s.
Proof. destruct s; simpl; split; (lia || done). Qed.

Lemma eqb_length_ne (s t : string) :
  String.length s ≠ String.length t → String.eqb s t = false.
Proof. intros Hne. apply String.eqb_neq. by intros ->. Qed.

Lemma append_empty_r s : s +:+ "" = s.
Proof.
  induction s as [|a s IH]; [done|].
  change (String a (s +:+ "") = String a s). by rewrite IH.
Qed.

Lemma append_empty_l s : "" +:+ s = s.
Proof. reflexivity. Qed.

Lemma length_append s t :
  String.length (s +:+ t) = String.length s + String.length t.
Proof.
  induction s as [|a s IH]; [done|].
  change (S (String.length (s +:+ t)) = S (String.length s) + String.length t).
  by rewrite IH.
Qed.

Lemma key_le_true a b :
  key_le a b = true →
  (page a < page b ∨
   (page a = page b ∧ (y a < y b ∨ (y a = y b ∧ x a ≤ x b))))%Z.
Proof.
  unfold key_le.
  rewrite !orb_true_iff, !andb_true_iff, !orb_true_iff, !andb_true_iff,
    !Z.ltb_lt, !Z.eqb_eq, !Z.leb_le. tauto.
Qed.

Lemma key_le_false a b :
  key_le a b = false →
  ¬ (page a < page b ∨
     (page a = page b ∧ (y a < y b ∨ (y a = y b ∧ x a ≤ x b))))%Z.
Proof.
  intros Hf Ht. rewrite <- Bool.not_true_iff_false in Hf. apply Hf.
  unfold key_le.
  rewrite !orb_true_iff, !andb_true_iff, !orb_true_iff, !andb_true_iff,
    !Z.ltb_lt, !Z.eqb_eq, !Z.leb_le. tauto.
Qed.

Lemma drop_empty_go_step k d e :
  drop_empty_go (S k) d (Some e) =
  (if droppable d e then drop_tag d e else Ok d) ≫=
    λ d', drop_empty_go k d' (next_node d root e).
Proof. reflexivity. Qed.

(** The sort, run on records whose coordinates are variables: every
    comparison is settled from the hypotheses, or splits the proof. *)
Ltac sort_records :=
  unfold sorted;
  repeat first
    [ progress cbn [foldr insert_sorted]
    | match goal with
      | |- context [key_le ?a ?b] =>
          let H := fresh in
          destruct (key_le a b) eqn:H;
          [ apply key_le_true in H | apply key_le_false in H ];
          cbn [page x y] in H; try lia
      end ].

Ltac eval_sub t :=
  let v := eval vm_compute in t in change t with v.

(** A text is not a single space: by hypothesis, or because it is made of
    two non-empty parts. *)
Ltac text_ne :=
  rewrite ?append_empty_r, ?append_empty_l;
  first
    [ apply String.eqb_neq; assumption
    | apply eqb_length_ne; rewrite ?length_append; simpl;
      repeat match goal with
             | H : Py.truthy _ = true |- _ => apply truthy_length in H
             end;
      lia ].

Ltac text_truthy :=
  apply truthy_length; rewrite ?length_append; simpl;
  repeat match goal with
         | H : Py.truthy _ = true |- _ => apply truthy_length in H
         end;
  lia.

(** One round of the loop that drops empty containers. *)
Ltac droppable_step :=
  rewrite drop_empty_go_step;
  match goal with
  | |- context [droppable ?d ?e] =>
      let H := fresh in
      first
        [ assert (droppable d e = true) as H by (vm_compute; reflexivity)
        | assert (droppable d e = false) as H by
            (unfold droppable; cbn;
             first
               [ apply orb_false_intro;
                 [ first [reflexivity | apply negb_false_iff; text_truthy]
                 | text_ne ]
               | text_ne ]) ];
      rewrite H; clear H
  end.

Ltac drop_pass :=
  unfold drop_empty; cbn [length];
  repeat (droppable_step;
          repeat match goal with
                 | |- context [next_node ?d ?t ?e] => eval_sub (next_node d t e)
                 | |- context [drop_tag ?d ?e] => eval_sub (drop_tag d e)
                 end;
          cbn [mbind res_bind]);
  cbn [drop_empty_go].

Ltac retag_pass :=
  match goal with
  | |- context [retag_rows ?d ?rows] =>
      let H := fresh in
      eassert (retag_rows d rows = Ok _) as H;
      [ unfold retag_rows, for_each, retag_row, count_text;
        cbn [List.filter text];
        repeat match goal with
               | Ht : Py.truthy _ = true |- _ => rewrite Ht
               end;
        cbn [List.filter text length Nat.ltb Nat.leb];
        vm_compute; reflexivity
      | rewrite H; clear H ]
  end.

(** C8, as amended.  Four lines whose texts are neither empty nor a
    single space, each in a clip box of its own on one page, two at one
    height and two at another, the two of a row at different left
    positions: table reconstruction gives one table holding two rows, each
    row holding two cells. *)
Theorem grid_table p xa xb xc xd y1 y2 ta tb tc td
  (Hx1 : xa ≠ xb) (Hx2 : xc ≠ xd) (Hy : y1 ≠ y2)
  (Ha : Py.truthy ta = true) (Hb : Py.truthy tb = true)
  (Hc : Py.truthy tc = true) (Hd : Py.truthy td = true)
  (Ha' : ta ≠ " ") (Hb' : tb ≠ " ") (Hc' : tc ≠ " ") (Hd' : td ≠ " ") :
  ∃ d' t r1 r2 c1 c2 c3 c4,
    reconstruct_tables (grid_doc ta tb tc td)
      (grid_records p xa xb xc xd y1 y2 ta tb tc td) = Ok d' ∧
    cssselect_tag d' root "table" = [t] ∧
    cssselect_tag d' root "tr" = [r1; r2] ∧
    cssselect_tag d' root "td" = [c1; c2; c3; c4] ∧
    children_of d' t = [r1; r2] ∧
    children_of d' r1 = [c1; c2] ∧
    children_of d' r2 = [c3; c4].
Proof.
  rewrite reconstruct_tables_eq
    by (refine (@bool_decide_unpack (NoDup _) _ _); vm_compute; exact I).
  cbv zeta. unfold grid_records.
  sort_records.
  all: rewrite bucket_two_rows
    by (unfold key_of; cbn [page y]; first [reflexivity | intros [=]; lia]).
  all: cbn [map snd].
  all: repeat match goal with
       | |- context [merged_row ?s ?r] => eval_sub (merged_row s r)
       end.
  all: retag_pass.
  all: cbn [mbind res_bind].
  all: drop_pass.
  all: eexists _, _, _, _, _, _, _, _.
  all: split; [vm_compute; reflexivity|].
  all: vm_compute; repeat split.
Qed.

Lemma grid_table_witness :
  grid_data doc_grid (get_dimension sample_dims) =
    Ok (grid_records 1 100 300 100 300 150 250 "a" "b" "c" "d") ∧
  ∃ d' t r1 r2 c1 c2 c3 c4,
    reconstruct_tables doc_grid
      (grid_records 1 100 300 100 300 150 250 "a" "b" "c" "d") = Ok d' ∧
    cssselect_tag d' root "table" = [t] ∧
    cssselect_tag d' root "tr" = [r1; r2] ∧
    cssselect_tag d' root "td" = [c1; c2; c3; c4] ∧
    children_of d' t = [r1; r2] ∧
    children_of d' r1 = [c1; c2] ∧
    children_of d' r2 = [c3; c4].
Proof.
  split; [reflexivity|].
  apply (grid_table 1 100 300 100 300 150 250 "a" "b" "c" "d");
    first [reflexivity | discriminate | lia].
Defined.

(** C8 as stated fails.  Four lines in clip boxes of their own give one
    table of two rows, not of one.  The same four lines without clip boxes
    give no table.  And a cell whose text is a single space loses its tag,
    which leaves one cell in its row. *)
Lemma grid_is_not_one_row :
  (∃ data d',
     grid_data doc_grid (get_dimension sample_dims) = Ok data ∧
     reconstruct_tables doc_grid data = Ok d' ∧
     cssselect_tag d' root "table" = [9] ∧
     cssselect_tag d' root "tr" = [1; 5] ∧
     children_of d' 9 = [1; 5] ∧
     children_of d' 1 = [2; 4] ∧ children_of d' 5 = [6; 8]) ∧
  (∃ data d',
     grid_data doc_grid_plain (get_dimension sample_dims) = Ok data ∧
     map (λ c, (x c, y c)) data =
       [(100, 138); (300, 138); (100, 238); (300, 238)]%Z ∧
     reconstruct_tables doc_grid_plain data = Ok d' ∧
     cssselect_tag d' root "table" = [] ∧ cssselect_tag d' root "tr" = []) ∧
  (∃ d',
     reconstruct_tables (grid_doc "a" " " "c" "d")
       (grid_records 1 100 300 100 300 150 250 "a" " " "c" "d") = Ok d' ∧
     cssselect_tag d' root "tr" = [1; 5] ∧ children_of d' 1 = [2]).
Proof.
  split; [|split].
  - eexists _, _. split; [vm_compute; reflexivity|].
    split; [vm_compute; reflexivity|]. by vm_compute.
  - eexists _, _. split; [vm_compute; reflexivity|].
    split; [reflexivity|]. split; [vm_compute; reflexivity|]. by vm_compute.
  - eexists. split; [vm_compute; reflexivity|]. by vm_compute.
Qed.

(** * Further properties of the passes *)

(** ** Strings *)

Lemma append_cons a s t : String a s +:+ t = String a (s +:+ t).
Proof. done. Qed.

Lemma append_assoc s t u : (s +:+ t) +:+ u = s +:+ (t +:+ u).
Proof.
  induction s as [|a s IH]; [by rewrite !append_empty_l|].
  by rewrite !append_cons, IH.
Qed.

Lemma snoc_append s a t : Py.snoc s a +:+ t = s +:+ String a t.
Proof. unfold Py.snoc. by rewrite append_assoc, append_cons, append_empty_l. Qed.

Lemma class_of_cons t ts : class_of (t :: ts) = t +:+ spaced ts.
Proof.
  unfold class_of, Py.join. revert t.
  induction ts as [|t' ts IH]; intros t.
  - simpl. by rewrite append_empty_r.
  - change (String.concat " " (t :: t' :: ts))
      with (t +:+ " " +:+ String.concat " " (t' :: ts)).
    rewrite IH. cbn [spaced]. by rewrite append_cons, append_empty_l.
Qed.

Lemma isspace_space : Py.isspace " " = true.
Proof. done. Qed.

Lemma no_space_head a s : no_space (String a s) = true → Ascii.eqb " " a = false.
Proof.
  intros H. cbn [no_space] in H. apply andb_true_iff in H as [H _].
  destruct (Ascii.eqb_spec " " a) as [<-|]; [|reflexivity].
  vm_compute in H. discriminate.
Qed.

Lemma token_inv t :
  token t = true → ∃ a t', t = String a t' ∧ no_space t = true.
Proof.
  unfold token. intros H. apply andb_true_iff in H as [H1 H2].
  destruct t as [|a t']; [done|]. eauto.
Qed.

(** *** [str.split()] on a token list *)

Lemma words_go_no_space t cur rest :
  no_space t = true →
  Py.words_go Py.isspace cur (t +:+ rest) =
  Py.words_go Py.isspace
    (match t with EmptyString => cur | _ => Some (default "" cur +:+ t) end)
    rest.
Proof.
  revert cur. induction t as [|a t IH]; intros cur Ht.
  - by rewrite append_empty_l.
  - simpl in Ht. apply andb_true_iff in Ht as [Ha Ht].
    rewrite append_cons. cbn [Py.words_go].
    apply negb_true_iff in Ha. rewrite Ha, IH by done.
    destruct t as [|b t]; [done|].
    cbn [default id]. by rewrite snoc_append.
Qed.

Lemma words_spaced ts :
  forallb token ts = true →
  Py.words_go Py.isspace None (spaced ts) = ts.
Proof.
  induction ts as [|t ts IH]; [done|]. intros H.
  cbn [forallb] in H. apply andb_true_iff in H as [Ht Hts].
  destruct (token_inv t Ht) as (a & t' & -> & Hns).
  cbn [spaced Py.words_go]. rewrite isspace_space.
  rewrite words_go_no_space by done. cbn [default id].
  rewrite append_empty_l.
  destruct ts as [|t2 ts]; [done|].
  cbn [spaced Py.words_go] in IH |- *. rewrite isspace_space in IH |- *.
  f_equal. by apply IH.
Qed.

Lemma words_class_of ts :
  forallb token ts = true → Py.words (class_of ts) = ts.
Proof.
  destruct ts as [|t ts]; [done|]. intros H.
  cbn [forallb] in H. apply andb_true_iff in H as [Ht Hts].
  rewrite class_of_cons. unfold Py.words.
  destruct (token_inv t Ht) as (a & t' & -> & Hns).
  rewrite words_go_no_space by done. cbn [default id]. rewrite append_empty_l.
  destruct ts as [|t2 ts]; [done|].
  cbn [spaced Py.words_go]. rewrite isspace_space. f_equal.
  by apply (words_spaced (t2 :: ts)).
Qed.

(** *** [str.split(sep)] with a separator that starts with a space *)

Lemma startswith_refl c rest : Py.startswith c (c +:+ rest) = true.
Proof.
  induction c as [|a c IH]; [by destruct rest|].
  rewrite append_cons. cbn [Py.startswith]. by rewrite Ascii.eqb_refl, IH.
Qed.

(** A class name that does not begin a token does not begin the token
    followed by further tokens either. *)
Lemma startswith_token c t ts :
  no_space c = true → Py.startswith c t = false →
  Py.startswith c (t +:+ spaced ts) = false.
Proof.
  revert t. induction c as [|a c IH]; intros t Hc H; [by destruct t|].
  destruct t as [|b t].
  - rewrite append_empty_l. destruct ts as [|t2 ts]; [done|].
    cbn [spaced Py.startswith].
    rewrite Ascii.eqb_sym, (no_space_head a c Hc). done.
  - rewrite append_cons. cbn [Py.startswith] in H |- *.
    destruct (Ascii.eqb a b); [|done]. simpl in H |- *.
    apply IH; [|done]. cbn [no_space] in Hc.
    by apply andb_true_iff in Hc as [_ Hc].
Qed.

Lemma split_go_no_space c cur t rest :
  no_space t = true →
  Py.split_go (String " " c) 0 cur (t +:+ rest) =
  Py.split_go (String " " c) 0 (cur +:+ t) rest.
Proof.
  revert cur. induction t as [|a t IH]; intros cur Ht.
  - by rewrite append_empty_l, append_empty_r.
  - rewrite append_cons. cbn [Py.split_go Py.startswith].
    rewrite (no_space_head a t Ht). cbn [andb].
    cbn [no_space] in Ht. apply andb_true_iff in Ht as [_ Ht].
    rewrite IH by done. by rewrite snoc_append.
Qed.

Lemma split_go_skip sep u cur rest :
  Py.split_go sep (String.length u) cur (u +:+ rest) =
  Py.split_go sep 0 cur rest.
Proof.
  induction u as [|a u IH]; [by rewrite append_empty_l|].
  rewrite append_cons. cbn [String.length Py.split_go].
  destruct rest; apply IH.
Qed.

(** A space that the class name does not follow is ordinary text. *)
Lemma split_go_space_miss c cur rest :
  Py.startswith c rest = false →
  Py.split_go (String " " c) 0 cur (String " " rest) =
  Py.split_go (String " " c) 0 (cur +:+ " ") rest.
Proof.
  intros H. cbn [Py.split_go Py.startswith]. by rewrite Ascii.eqb_refl, H.
Qed.

(** A space that the class name follows ends the current piece. *)
Lemma split_go_space_hit c cur rest :
  Py.split_go (String " " c) 0 cur (String " " (c +:+ rest)) =
  cur :: Py.split_go (String " " c) 0 "" rest.
Proof.
  cbn [Py.split_go Py.startswith].
  rewrite Ascii.eqb_refl, startswith_refl. cbn [andb String.length].
  rewrite Nat.sub_succ, Nat.sub_0_r. f_equal. apply split_go_skip.
Qed.

Lemma split_go_miss c cur ts :
  no_space c = true →
  forallb token ts = true →
  forallb (λ t, negb (Py.startswith c t)) ts = true →
  Py.split_go (String " " c) 0 cur (spaced ts) = [cur +:+ spaced ts].
Proof.
  intros Hc. revert cur. induction ts as [|t ts IH]; intros cur Ht Hm.
  - simpl. by rewrite append_empty_r.
  - cbn [forallb] in Ht, Hm.
    apply andb_true_iff in Ht as [Ht Hts]. apply andb_true_iff in Hm as [Hm Hms].
    apply negb_true_iff in Hm.
    destruct (token_inv t Ht) as (a & t' & -> & Hns).
    cbn [spaced].
    rewrite split_go_space_miss by by apply startswith_token.
    rewrite split_go_no_space, IH by done.
    by rewrite !append_assoc.
Qed.

Lemma split_go_hit c cur pre tok post :
  no_space c = true →
  forallb token pre = true →
  forallb (λ t, negb (Py.startswith c t)) pre = true →
  Py.split_go (String " " c) 0 cur (spaced (pre ++ (c +:+ tok) :: post)) =
  (cur +:+ spaced pre) ::
  Py.split_go (String " " c) 0 "" (tok +:+ spaced post).
Proof.
  intros Hc. revert cur. induction pre as [|t pre IH]; intros cur Ht Hm.
  - cbn [app spaced]. rewrite append_assoc, split_go_space_hit.
    by rewrite append_empty_r.
  - cbn [forallb] in Ht, Hm.
    apply andb_true_iff in Ht as [Ht Hts]. apply andb_true_iff in Hm as [Hm Hms].
    apply negb_true_iff in Hm.
    destruct (token_inv t Ht) as (a & t' & -> & Hns).
    change ((String a t' :: pre) ++ (c +:+ tok) :: post)
      with (String a t' :: (pre ++ (c +:+ tok) :: post)).
    cbn [spaced].
    rewrite split_go_space_miss by by apply startswith_token.
    rewrite split_go_no_space, IH by done.
    by rewrite !append_assoc.
Qed.

(** The first piece that [split] cuts starts with what was gathered and
    goes on with a prefix of the text. *)
Lemma split_go_head c s cur :
  ∃ pfx tl,
    Py.split_go (String " " c) 0 cur s = (cur +:+ pfx) :: tl ∧
    (pfx = "" ∨ ∃ a s' p', s = String a s' ∧ pfx = String a p').
Proof.
  revert cur. induction s as [|a s IH]; intros cur.
  - exists "", []. split; [by rewrite append_empty_r | by left].
  - cbn [Py.split_go].
    destruct (Py.startswith (String " " c) (String a s)).
    + eexists "", _. split; [by rewrite append_empty_r | by left].
    + destruct (IH (Py.snoc cur a)) as (pfx & tl & -> & _).
      exists (String a pfx), tl. split; [by rewrite snoc_append|].
      right. eauto.
Qed.

(** ** [classn] *)

Lemma classn_attr c d el n cls :
  d !! el = Some n → n_class n = Some cls →
  classn c d el =
    (part ← of_option IndexError (Py.split (String " " c) cls !! 1);
     of_option IndexError (Py.words part !! 0)).
Proof.
  intros Hn Hc. unfold classn, get. rewrite Hn. simpl. by rewrite Hc.
Qed.

(** The piece after the first separator, and its first word. *)
Lemma split_words c t0 pre tok post :
  no_space c = true →
  token t0 = true →
  forallb token pre = true →
  token tok = true →
  forallb (λ t, negb (Py.startswith c t)) pre = true →
  ∃ part,
    Py.split (String " " c) (class_of (t0 :: pre ++ (c +:+ tok) :: post)) !! 1
      = Some part ∧
    Py.words part !! 0 = Some tok.
Proof.
  intros Hc Ht0 Hpre Htok Hmiss. rewrite class_of_cons.
  destruct (token_inv t0 Ht0) as (a0 & t0' & -> & Hns0).
  destruct (token_inv tok Htok) as (a & tok' & -> & Hns).
  unfold Py.split.
  rewrite split_go_no_space, split_go_hit, split_go_no_space by done.
  rewrite !append_empty_l.
  destruct (split_go_head c (spaced post) (String a tok'))
    as (pfx & tl & -> & Hpfx).
  eexists. split; [reflexivity|].
  unfold Py.words. rewrite words_go_no_space by done.
  cbn [default id]. rewrite append_empty_l.
  destruct Hpfx as [->|(b & s' & p' & Hs & ->)]; [done|].
  destruct post as [|t2 post]; [done|].
  cbn [spaced] in Hs. injection Hs as <- _.
  cbn [Py.words_go]. by rewrite isspace_space.
Qed.



(** X2.  [classn] looks for the class name after a space: when no token
    after the first starts with the class name it raises [IndexError],
    even if the first token of the attribute does start with it. *)
Theorem classn_missing d el n c t0 rest
  (Hn : d !! el = Some n)
  (Hcls : n_class n = Some (class_of (t0 :: rest)))
  (Hc : no_space c = true)
  (Ht0 : token t0 = true)
  (Hrest : forallb token rest = true)
  (Hmiss : forallb (λ t, negb (Py.startswith c t)) rest = true) :
  classn c d el = Raise IndexError.
Proof.
  rewrite (classn_attr c d el n _ Hn Hcls), class_of_cons.
  destruct (token_inv t0 Ht0) as (a0 & t0' & -> & Hns0).
  unfold Py.split.
  by rewrite split_go_no_space, split_go_miss.
Qed.

Lemma classn_missing_witness :
  classn "y" [Node "div" (Some "y9 t m0 x0") "" "" []] 0 = Raise IndexError.
Proof.
  apply (classn_missing _ 0 (Node "div" (Some "y9 t m0 x0") "" "" [])
           "y" "y9" ["t"; "m0"; "x0"]); reflexivity.
Defined.

(** ** The look of a line *)

(** X3.  The look of a line is its class tokens without those that start
    with [y] or with [fc], so two lines whose classes differ only in such
    tokens have the same look. *)
Theorem look_ignores_position_and_colour toks toks'
  (Htoks : forallb token toks = true)
  (Htoks' : forallb token toks' = true)
  (Hsame : List.filter keeps toks = List.filter keeps toks') :
  look_of (class_of toks) = Py.join " " (List.filter keeps toks) ∧
  look_of (class_of toks) = look_of (class_of toks') ∧
  (∀ t, In t (List.filter keeps toks) →
        Py.startswith "y" t = false ∧ Py.startswith "fc" t = false).
Proof.
  unfold look_of. rewrite !words_class_of by done.
  split; [done|]. split; [by rewrite Hsame|].
  intros t Ht. apply filter_In in Ht as [_ Ht]. unfold keeps in Ht.
  apply andb_true_iff in Ht as [H1 H2].
  by apply negb_true_iff in H1, H2.
Qed.

Lemma look_ignores_position_and_colour_witness :
  look_of "t m0 x0 h3 y9 ff1 fs1 fc0" = "t m0 x0 h3 ff1 fs1" ∧
  look_of "t m0 x0 h3 y9 ff1 fs1 fc0" = look_of "t m0 x0 h3 y8 ff1 fs1 fc2".
Proof.
  destruct (look_ignores_position_and_colour
              ["t"; "m0"; "x0"; "h3"; "y9"; "ff1"; "fs1"; "fc0"]
              ["t"; "m0"; "x0"; "h3"; "y8"; "ff1"; "fs1"; "fc2"])
    as (H1 & H2 & _); [reflexivity..|].
  split; [exact H1 | exact H2].
Defined.

(** ** Geometry records *)

Lemma class_startswith_pc n toks :
  n_class n = Some (class_of ("pc" :: toks)) → toks ≠ [] →
  class_startswith "pc " n = true.
Proof.
  intros Hc Hne. unfold class_startswith. rewrite Hc, class_of_cons.
  destruct toks as [|t toks]; [done|]. cbn [spaced default].
  by rewrite !append_cons, append_empty_l.
Qed.

(** X4.  The page of a line is read from the nearest ancestor whose class
    attribute starts with [pc ]: it is the hexadecimal value of the number
    in that ancestor's [pcN] token, and a number that is not hexadecimal
    raises [ValueError].  With no such ancestor the page is 0. *)
Theorem page_of_container d ancs :
  ((∀ a, In a ancs →
      ∃ m, d !! a = Some m ∧ class_startswith "pc " m = false) →
   page_of d ancs = Ok 0%Z) ∧
  (∀ before anc after n N rest,
     ancs = before ++ anc :: after →
     (∀ a, In a before →
        ∃ m, d !! a = Some m ∧ class_startswith "pc " m = false) →
     d !! anc = Some n →
     n_class n = Some (class_of ("pc" :: ("pc" +:+ N) :: rest)) →
     token N = true →
     page_of d ancs = Py.int16 N).
Proof.
  split.
  - induction ancs as [|a ancs IH]; intros H; [done|].
    destruct (H a) as (m & Hm & Hpc); [by left|].
    cbn [page_of]. unfold get. rewrite Hm. simpl. rewrite Hpc.
    apply IH. intros a' Ha'. apply H. by right.
  - intros before anc after n N rest -> Hbefore Hn Hcls HN.
    induction before as [|a before IH].
    + cbn [app page_of]. unfold get. rewrite Hn. simpl.
      rewrite (class_startswith_pc n _ Hcls) by done.
      rewrite (classn_attr "pc" d anc n _ Hn Hcls).
      destruct (split_words "pc" "pc" [] N rest) as (part & Hp & Hw);
        try done.
      cbn [app] in Hp. rewrite Hp.
      cbn [of_option mbind res_bind]. by rewrite Hw.
    + destruct (Hbefore a) as (m & Hm & Hpc); [by left|].
      cbn [app page_of]. unfold get. rewrite Hm. simpl. rewrite Hpc.
      apply IH. intros a' Ha'. apply Hbefore. by right.
Qed.

Lemma page_of_container_witness :
  page_of doc_cell (iterancestors doc_cell 2) = Ok 1%Z ∧
  page_of [Node "div" (Some "t x0") "" "" []] [] = Ok 0%Z.
Proof.
  split.
  - apply (proj2 (page_of_container doc_cell (iterancestors doc_cell 2))
             [1] 0 [] (Node "div" (Some "pc pc1 w0 h0") "" "" [1; 4]) "1"
             ["w0"; "h0"]); try reflexivity.
    intros a [<-|[]]. eexists. split; reflexivity.
  - apply (proj1 (page_of_container _ [])). intros a [].
Defined.

Lemma map_res_elem {X Y : Type} (f : X → res Y) (g : Y → X) xs ys :
  (∀ x y, f x = Ok y → g y = x) →
  map_res f xs = Ok ys → map g ys = xs.
Proof.
  intros Hg. revert ys. induction xs as [|x xs IH]; intros ys H.
  - by injection H as <-.
  - cbn [map_res] in H. apply bind_ok in H as (y & Hy & H).
    apply bind_ok in H as (ys' & Hys & H). injection H as <-.
    simpl. by rewrite (Hg _ _ Hy), (IH _ Hys).
Qed.

Lemma map_res_Forall {X Y : Type} (f : X → res Y) (P : Y → Prop) xs ys :
  (∀ x y, f x = Ok y → P y) →
  map_res f xs = Ok ys → Forall P ys.
Proof.
  intros HP. revert ys. induction xs as [|x xs IH]; intros ys H.
  - injection H as <-. constructor.
  - cbn [map_res] in H. apply bind_ok in H as (y & Hy & H).
    apply bind_ok in H as (ys' & Hys & H). injection H as <-.
    constructor; eauto.
Qed.

Lemma grid_line_inv gd d l c :
  grid_line gd d l = Ok c →
  elem c = l ∧ lines c = [] ∧
  (∃ n, d !! l = Some n ∧ text c = n_text n) ∧
  ∃ p pn, parent d l = Some p ∧ d !! p = Some pn ∧
          clipbox c = (if class_startswith "c " pn then Some p else None).
Proof.
  unfold grid_line. intros H.
  apply bind_ok in H as (pg & _ & H).
  apply bind_ok in H as (p & Hp & H). apply of_option_ok in Hp.
  apply bind_ok in H as (pn & Hpn & H). apply get_ok in Hpn.
  apply bind_ok in H as (x0 & _ & H).
  apply bind_ok in H as (yb & _ & H).
  apply bind_ok in H as (yh & _ & H).
  apply bind_ok in H as ([x1 y1] & _ & H).
  apply bind_ok in H as (n & Hn & H). apply get_ok in Hn.
  injection H as <-. cbn [elem lines text clipbox]. eauto 10.
Qed.

(** X5.  [grid_data] makes one record for every element of class [t], in
    document order.  A record starts with no lines, holds the text that
    stands directly in its element, and names the parent of the element as
    its clip box exactly when the parent's class attribute starts with
    [c ].  In a tree no two records share an element. *)
Theorem grid_data_records d gd data
  (Hdata : grid_data d gd = Ok data) :
  map elem data = cssselect_class d root "t" ∧
  Forall (λ c,
    lines c = [] ∧
    (∃ n, d !! elem c = Some n ∧ text c = n_text n) ∧
    ∃ p pn, parent d (elem c) = Some p ∧ d !! p = Some pn ∧
            clipbox c = (if class_startswith "c " pn then Some p else None))
    data ∧
  (NoDup (iter d root) → NoDup (map elem data)).
Proof.
  unfold grid_data in Hdata. split; [|split].
  - apply (map_res_elem _ _ _ _ (λ l c H, proj1 (grid_line_inv gd d l c H)) Hdata).
  - eapply map_res_Forall; [|exact Hdata].
    intros l c H. destruct (grid_line_inv gd d l c H) as (-> & H1 & H2 & H3).
    done.
  - intros Hnd.
    rewrite (map_res_elem _ _ _ _ (λ l c H, proj1 (grid_line_inv gd d l c H)) Hdata).
    unfold cssselect_class, select. apply NoDup_ListNoDup, List.NoDup_filter. by apply NoDup_ListNoDup.
Qed.

Lemma grid_data_records_witness :
  ∃ data, grid_data doc_cell (get_dimension sample_dims) = Ok data ∧
          map elem data = [2; 3; 5] ∧ map clipbox data = [Some 1; Some 1; Some 4].
Proof.
  destruct (grid_data doc_cell (get_dimension sample_dims)) as [data|e] eqn:H;
    [|vm_compute in H; discriminate].
  destruct (grid_data_records _ _ _ H) as (H1 & _ & _).
  exists data. split; [done|]. split; [exact H1|].
  vm_compute in H. by injection H as <-.
Defined.

(** ** Heading levels without font sizes *)

(** X6.  [heading_levels] raises [IndexError] exactly when the stylesheet
    gave no font-size class; with at least one class it returns a map, in
    which at most all classes but one have a level. *)
Theorem heading_levels_total d dims :
  match dim_fs dims with
  | [] => heading_levels d dims = Raise IndexError
  | _ :: _ =>
      ∃ h_levels, heading_levels d dims = Ok h_levels ∧
                  length h_levels < length (dim_fs dims)
  end.
Proof.
  destruct (dim_fs dims) as [|kv fs] eqn:Hfs.
  - unfold heading_levels, fs_stats. by rewrite Hfs.
  - unfold heading_levels.
    set (stats := fs_stats d dims).
    set (le := λ a b : nat * string * Z, stat_count b <=? stat_count a).
    assert (length stats = S (length fs)) as Hlen
      by (unfold stats, fs_stats; by rewrite Hfs, length_map).
    destruct (head (top_stats stats)) as [top|] eqn:Htop.
    2: { exfalso. unfold top_stats in Htop.
         pose proof (sorted_length le stats) as Hl.
         fold le in Htop. destruct (sorted le stats); [|done].
         simpl in Hl. lia. }
    simpl. eexists. split; [done|].
    assert (In top stats) as Hin.
    { apply (sorted_In le). unfold top_stats in Htop. fold le in Htop.
      destruct (sorted le stats); [done|]. injection Htop as ->. by left. }
    set (above := λ s : nat * string * Z, (stat_size top <? stat_size s)%Z).
    assert (∀ hs lvl acc,
              length (assign_levels hs lvl acc) ≤ length acc + length hs) as Hal.
    { clear. induction hs as [|s hs IH]; intros lvl acc; simpl; [lia|].
      etransitivity; [apply IH|].
      assert (length (dict_set (stat_cssn s) lvl acc) ≤ S (length acc)); [|lia].
      clear. induction acc as [|[k v] acc IH]; simpl; [lia|].
      destruct (String.eqb k (stat_cssn s)); simpl; lia. }
    specialize (Hal (List.filter above (rev stats)) 1 []).
    simpl in Hal.
    assert (length (List.filter above (rev stats)) < length stats); [|simpl; lia].
    rewrite <- (length_rev stats).
    assert (In top (rev stats)) as Hin' by by apply in_rev in Hin.
    assert (above top = false) as Htop' by (unfold above; lia).
    clear -Hin' Htop'. induction (rev stats) as [|s l IH]; [done|].
    simpl. destruct Hin' as [->|Hin].
    + rewrite Htop'. pose proof (List.filter_length_le above l). lia.
    + specialize (IH Hin). destruct (above s); simpl; lia.
Qed.

(** ** The rows after merging *)

(** The merge loop goes through on the records of distinct elements, and
    what it leaves in the rows are the representatives of the clip-box
    groups, row by row. *)
Lemma merge_rows data :
  NoDup (map elem data) →
  ∃ s,
    merge (bucket (sorted key_le data)).2 (bucket (sorted key_le data)).1
          (sorted key_le data) = Ok s ∧
    rows_values s =
      Ok (map (λ kr : row_key * list nat, merged_row (sorted key_le data) kr.2)
              (bucket (sorted key_le data)).1) ∧
    concat (map (λ kr : row_key * list nat, merged_row (sorted key_le data) kr.2)
                (bucket (sorted key_le data)).1) =
      representatives (sorted key_le data).
Proof.
  intros Hnd. set (store := sorted key_le data).
  pose proof (sorted_NoDup_elem data Hnd) as Hnds. fold store in Hnds.
  assert (StronglySorted (λ a b, key_le a b = true) store) as Hsorted
    by (apply sorted_sorted; [apply key_le_total | apply key_le_trans]).
  destruct (bucket_rows_sorted store Hsorted) as (Hcat & _ & _).
  destruct (merge_refines store (bucket store).1 (bucket store).2 Hnds
              (bucket_keys_NoDup store) Hcat (bucket_cboxes_lookup store))
    as (s & Hmerge & Hvalues).
  exists s. split; [done|]. split; [done|].
  by rewrite merged_rows_concat, Hcat.
Qed.

Lemma cell_of_key store i c :
  In c (cell_of store i) →
  ∃ c0, store !! i = Some c0 ∧ is_first store i = true ∧
        c = set_lines (group store (clipbox c0)) c0.
Proof.
  unfold cell_of. destruct (store !! i) as [c0|]; [|done].
  destruct (is_first store i); [|done]. intros [<-|[]]. eauto.
Qed.

Lemma key_le_set_lines g h a b :
  key_le (set_lines g a) (set_lines h b) = key_le a b.
Proof. done. Qed.

Lemma representatives_sorted store :
  StronglySorted (λ a b, key_le a b = true) store →
  StronglySorted (λ a b, key_le a b = true) (representatives store).
Proof.
  intros Hs. unfold representatives.
  assert (∀ j, j ≤ length store →
            StronglySorted (λ a b, key_le a b = true)
                           (merged_row store (seq 0 j))) as H;
    [|by apply H].
  induction j as [|j IH]; intros Hj; [constructor|].
  rewrite merged_row_snoc. apply StronglySorted_app_2.
  - intros a b Ha Hb.
    apply list_elem_of_In, merged_row_In in Ha as (i & ci & Hi & Hci & ->).
    apply list_elem_of_In, cell_of_key in Hb as (cj & Hcj & _ & ->).
    rewrite key_le_set_lines.
    apply list_elem_of_In, in_seq in Hi.
    rewrite <- (take_drop j store) in Hs.
    apply (StronglySorted_app_1_elem_of _ _ _ _ _ Hs).
    + apply list_elem_of_lookup. exists i. rewrite lookup_take_lt by lia. done.
    + apply list_elem_of_lookup. exists 0. by rewrite lookup_drop, Nat.add_0_r.
  - apply IH. lia.
  - destruct (cell_of store j) as [|c [|c' l]] eqn:Hc;
      [constructor | repeat constructor |].
    unfold cell_of in Hc. destruct (store !! j); [|done].
    by destruct (is_first store j).
Qed.

(** X7.  After the merge loop the rows are in reading order: listing the
    records row after row gives them sorted by page, then height, then
    left position; the records of one row share their page and height,
    and no two rows have the same page and height. *)
Theorem rows_in_reading_order data
  (Hnd : NoDup (map elem data)) :
  ∃ s rows,
    merge (bucket (sorted key_le data)).2 (bucket (sorted key_le data)).1
          (sorted key_le data) = Ok s ∧
    rows_values s = Ok rows ∧
    StronglySorted (λ a b, key_le a b = true) (concat rows) ∧
    (∀ row c c', In row rows → In c row → In c' row → key_of c = key_of c') ∧
    (∀ i j row row' c c',
       i ≠ j → rows !! i = Some row → rows !! j = Some row' →
       In c row → In c' row' → key_of c ≠ key_of c').
Proof.
  destruct (merge_rows data Hnd) as (s & Hm & Hv & Hcat).
  set (store := sorted key_le data) in *.
  eexists s, _. split; [done|]. split; [done|].
  assert (∀ k r c, In (k, r) (bucket store).1 → In c (merged_row store r) →
                   key_of c = k) as Hk.
  { intros k r c Hkr Hc. apply merged_row_In in Hc as (i & c0 & Hi & Hc0 & ->).
    pose proof (bucket_rows_key store k r i Hkr Hi) as Hkey.
    rewrite Hc0 in Hkey. by injection Hkey. }
  split; [|split].
  - rewrite Hcat. apply representatives_sorted.
    apply sorted_sorted; [apply key_le_total | apply key_le_trans].
  - intros row c c' Hrow Hc Hc'.
    apply in_map_iff in Hrow as ([k r] & <- & Hkr). simpl in *.
    by rewrite (Hk k r c), (Hk k r c').
  - intros i j row row' c c' Hij Hi Hj Hc Hc'.
    apply list_lookup_fmap_Some in Hi as ([k r] & -> & Hki).
    apply list_lookup_fmap_Some in Hj as ([k' r'] & -> & Hkj).
    cbn [snd] in Hc, Hc'.
    rewrite (Hk k r c), (Hk k' r' c'); try done.
    + intros ->. apply Hij.
      apply (NoDup_lookup (map fst (bucket store).1) i j k');
        [apply bucket_keys_NoDup|..]; rewrite list_lookup_fmap.
      * by rewrite Hki.
      * by rewrite Hkj.
    + apply list_elem_of_In, list_elem_of_lookup. eauto.
    + apply list_elem_of_In, list_elem_of_lookup. eauto.
Qed.

Lemma rows_in_reading_order_witness :
  ∃ s rows,
    merge (bucket (sorted key_le data_cell)).2
          (bucket (sorted key_le data_cell)).1 (sorted key_le data_cell) = Ok s ∧
    rows_values s = Ok rows ∧
    StronglySorted (λ a b, key_le a b = true) (concat rows).
Proof.
  destruct (rows_in_reading_order data_cell) as (s & rows & H1 & H2 & H3 & _).
  - refine (@bool_decide_unpack (NoDup (map elem data_cell)) _ _).
    vm_compute. exact I.
  - eauto.
Defined.

(** *** No line is lost *)

Lemma lines_of_cell store i :
  flat_map lines (cell_of store i) =
  match store !! i with
  | Some c => if is_first store i then group store (clipbox c) else []
  | None => []
  end.
Proof.
  unfold cell_of. destruct (store !! i) as [c|]; [|done].
  destruct (is_first store i); [|done]. simpl. by rewrite app_nil_r.
Qed.

Lemma is_first_snoc store c i :
  i < length store → is_first (store ++ [c]) i = is_first store i.
Proof.
  intros Hi. unfold is_first.
  rewrite lookup_app_l by done. by rewrite take_app_le by lia.
Qed.

Lemma lines_of_snoc store c j :
  j ≤ length store →
  flat_map (λ i, flat_map lines (cell_of (store ++ [c]) i)) (seq 0 j) ≡ₚ
  flat_map (λ i, flat_map lines (cell_of store i)) (seq 0 j) ++
  (if existsb (same_clipbox (clipbox c)) (take j store) then [elem c] else []).
Proof.
  induction j as [|j IH]; intros Hj; [by rewrite take_0|].
  rewrite seq_S, !flat_map_app, IH by lia. cbn [flat_map plus].
  rewrite !app_nil_r, !lines_of_cell.
  rewrite is_first_snoc, lookup_app_l by lia.
  destruct (store !! j) as [cj|] eqn:Hcj.
  2: { apply lookup_ge_None in Hcj. lia. }
  rewrite (take_S_r _ _ _ Hcj), existsb_app. cbn [existsb].
  rewrite orb_false_r, group_snoc.
  unfold is_first. rewrite Hcj.
  destruct (decide (clipbox c = clipbox cj)) as [Heq|Hne].
  - rewrite Heq.
    assert (same_clipbox (clipbox cj) c = true) as ->
      by (unfold same_clipbox; by rewrite bool_decide_eq_true_2).
    assert (same_clipbox (clipbox cj) cj = true) as ->
      by (unfold same_clipbox; by rewrite bool_decide_eq_true_2).
    destruct (existsb (same_clipbox (clipbox cj)) (take j store));
      cbn [negb orb]; by rewrite ?app_nil_r, <- ?app_assoc.
  - assert (same_clipbox (clipbox cj) c = false) as ->
      by (unfold same_clipbox; by rewrite bool_decide_eq_false_2).
    assert (same_clipbox (clipbox c) cj = false) as ->
      by (unfold same_clipbox; by rewrite bool_decide_eq_false_2).
    rewrite orb_false_r.
    destruct (negb _); rewrite ?app_nil_r; [|done].
    rewrite <- !app_assoc. apply Permutation_app_head, Permutation_app_comm.
Qed.

Lemma representatives_lines store :
  flat_map lines (representatives store) ≡ₚ map elem store.
Proof.
  unfold representatives, merged_row.
  assert (∀ row, flat_map lines (flat_map (cell_of store) row) =
                 flat_map (λ i, flat_map lines (cell_of store i)) row) as ->.
  { induction row as [|i row IH]; [done|]. cbn [flat_map].
    by rewrite flat_map_app, IH. }
  induction store as [|c store IH] using rev_ind; [done|].
  rewrite length_app, Nat.add_1_r, seq_S, flat_map_app.
  rewrite lines_of_snoc, IH by done. cbn [flat_map plus].
  rewrite app_nil_r, lines_of_cell, take_ge by done.
  rewrite lookup_app_r, Nat.sub_diag by done. cbn [lookup list_lookup].
  unfold is_first. rewrite lookup_app_r, Nat.sub_diag by done.
  cbn [lookup list_lookup]. rewrite take_app_length, group_snoc.
  unfold same_clipbox at 3. rewrite bool_decide_eq_true_2 by done.
  rewrite map_app. cbn [map].
  destruct (existsb (same_clipbox (clipbox c)) store) eqn:He; cbn [negb].
  - by rewrite app_nil_r.
  - apply existsb_filter_nil in He. unfold group. rewrite He. simpl.
    by rewrite app_nil_r.
Qed.

Lemma group_head store i c :
  store !! i = Some c → is_first store i = true →
  head (group store (clipbox c)) = Some (elem c).
Proof.
  intros Hi Hf. unfold is_first in Hf. rewrite Hi in Hf.
  apply negb_true_iff, existsb_filter_nil in Hf.
  unfold group. rewrite <- (take_drop_middle _ _ _ Hi).
  rewrite List.filter_app, Hf. cbn [app List.filter].
  unfold same_clipbox at 1. by rewrite bool_decide_eq_true_2.
Qed.

(** X8.  Merging loses no line and repeats none: the lines carried by the
    records left in the rows are, taken together, the elements of all the
    records that came in, each once; and every record left carries its own
    element as its first line. *)
Theorem merge_keeps_every_line data
  (Hnd : NoDup (map elem data)) :
  ∃ s rows,
    merge (bucket (sorted key_le data)).2 (bucket (sorted key_le data)).1
          (sorted key_le data) = Ok s ∧
    rows_values s = Ok rows ∧
    flat_map lines (concat rows) ≡ₚ map elem data ∧
    (∀ c, In c (concat rows) → head (lines c) = Some (elem c)).
Proof.
  destruct (merge_rows data Hnd) as (s & Hm & Hv & Hcat).
  eexists s, _. split; [done|]. split; [done|]. rewrite Hcat. split.
  - rewrite representatives_lines.
    apply Permutation_map, sorted_Permutation.
  - intros c Hc. unfold representatives, merged_row in Hc.
    apply in_flat_map in Hc as (i & _ & Hc).
    apply cell_of_key in Hc as (c0 & Hc0 & Hf & ->).
    cbn [lines elem set_lines]. by eapply group_head.
Qed.

Lemma merge_keeps_every_line_witness :
  ∃ s rows,
    merge (bucket (sorted key_le data_cell)).2
          (bucket (sorted key_le data_cell)).1 (sorted key_le data_cell) = Ok s ∧
    rows_values s = Ok rows ∧
    flat_map lines (concat rows) ≡ₚ [2; 3; 5].
Proof.
  destruct (merge_keeps_every_line data_cell) as (s & rows & H1 & H2 & H3 & _).
  - refine (@bool_decide_unpack (NoDup (map elem data_cell)) _ _).
    vm_compute. exact I.
  - eauto.
Defined.

(** *** Lines outside clip boxes *)



(** ** Parents and siblings *)

Lemma mem_true e l : mem e l = true ↔ e ∈ l.
Proof.
  unfold mem. rewrite existsb_exists. split.
  - intros (x & Hx & Heq). apply Nat.eqb_eq in Heq as ->.
    by apply list_elem_of_In.
  - intros H. exists e. split; [by apply list_elem_of_In | apply Nat.eqb_refl].
Qed.

Lemma find_parent_spec e ns i :
  match find_parent e ns i with
  | Some j =>
      i ≤ j ∧ (∃ n, ns !! (j - i) = Some n ∧ e ∈ n_children n) ∧
      ∀ k n, k < j - i → ns !! k = Some n → e ∉ n_children n
  | None => ∀ k n, ns !! k = Some n → e ∉ n_children n
  end.
Proof.
  revert i. induction ns as [|n ns IH]; intros i; cbn [find_parent].
  - intros k n Hk. by rewrite lookup_nil in Hk.
  - destruct (mem e (n_children n)) eqn:Hm.
    + split; [lia|]. rewrite Nat.sub_diag. split.
      * exists n. split; [done | by apply mem_true].
      * intros k n' Hk. lia.
    + assert (e ∉ n_children n) as Hni.
      { intros H%mem_true. congruence. }
      specialize (IH (S i)). destruct (find_parent e ns (S i)) as [j|].
      * destruct IH as (Hle & (n' & Hn' & He) & Hbefore). split; [lia|].
        replace (j - i) with (S (j - S i)) by lia. split.
        -- exists n'. by split.
        -- intros [|k] n'' Hk Hl; simpl in Hl.
           ++ by injection Hl as <-.
           ++ apply (Hbefore k); [lia | done].
      * intros [|k] n' Hl; simpl in Hl.
        -- by injection Hl as <-.
        -- by apply (IH k).
Qed.

(** The parent is the first node that lists the element. *)
Lemma getparent_spec d e :
  match getparent d e with
  | Some q =>
      e ∈ children_of d q ∧ q < length d ∧ ∀ k, k < q → e ∉ children_of d k
  | None => ∀ k, e ∉ children_of d k
  end.
Proof.
  unfold getparent. pose proof (find_parent_spec e d 0) as H.
  destruct (find_parent e d 0) as [q|].
  - destruct H as (_ & (n & Hn & He) & Hbefore).
    rewrite Nat.sub_0_r in Hn, Hbefore. split; [|split].
    + unfold children_of. by rewrite Hn.
    + by eapply lookup_lt_Some.
    + intros k Hk. unfold children_of.
      destruct (d !! k) as [m|] eqn:Hm; [by eapply Hbefore | apply not_elem_of_nil].
  - intros k. unfold children_of.
    destruct (d !! k) as [m|] eqn:Hm; [by eapply H | apply not_elem_of_nil].
Qed.

Lemma getparent_unique d e q :
  e ∈ children_of d q → (∀ q', e ∈ children_of d q' → q' = q) →
  getparent d e = Some q.
Proof.
  intros He Hu. pose proof (getparent_spec d e) as H.
  destruct (getparent d e) as [q0|].
  - destruct H as (H & _). by rewrite (Hu _ H).
  - by destruct (H q).
Qed.

Lemma getparent_None d e : (∀ q, e ∉ children_of d q) → getparent d e = None.
Proof.
  intros Hn. pose proof (getparent_spec d e) as H.
  destruct (getparent d e) as [q0|]; [|done].
  destruct H as (H & _). by destruct (Hn q0).
Qed.

Lemma closed_lt d q c : closed d = true → c ∈ children_of d q → c < length d.
Proof.
  unfold closed, children_of. intros Hc Hin.
  destruct (d !! q) as [n|] eqn:Hn; [|by apply elem_of_nil in Hin].
  rewrite forallb_forall in Hc.
  specialize (Hc n (proj1 (list_elem_of_In _ _) (list_elem_of_lookup_2 _ _ _ Hn))).
  rewrite forallb_forall in Hc.
  apply Nat.ltb_lt, Hc. by apply list_elem_of_In.
Qed.

Lemma ordered_lt d q c : ordered d = true → c ∈ children_of d q → q < c.
Proof.
  unfold ordered, children_of. intros Ho Hin.
  destruct (d !! q) as [n|] eqn:Hn; [|by apply elem_of_nil in Hin].
  rewrite forallb_forall in Ho.
  assert (In (q, n) (imap (λ i n, (i, n)) d)) as Hqn.
  { apply list_elem_of_In, list_elem_of_lookup. exists q.
    by rewrite list_lookup_imap, Hn. }
  specialize (Ho _ Hqn). cbn beta iota in Ho.
  rewrite forallb_forall in Ho.
  apply Nat.ltb_lt, Ho. by apply list_elem_of_In.
Qed.

Lemma index_of_middle e l1 l2 :
  e ∉ l1 → index_of e (l1 ++ e :: l2) = Some (length l1).
Proof.
  induction l1 as [|c l1 IH]; intros Hni; cbn [app index_of length].
  - by rewrite Nat.eqb_refl.
  - apply not_elem_of_cons in Hni as [Hne Hni].
    destruct (Nat.eqb_spec c e) as [->|_]; [done|].
    by rewrite IH.
Qed.

Lemma getnext_at d e q l1 l2 :
  getparent d e = Some q → children_of d q = l1 ++ e :: l2 → e ∉ l1 →
  getnext d e = head l2.
Proof.
  intros Hp Hch Hni. unfold getnext. rewrite Hp. cbn [mbind option_bind].
  rewrite Hch, index_of_middle by done. cbn [mbind option_bind].
  rewrite lookup_app_r by lia.
  replace (S (length l1) - length l1) with 1 by lia.
  by destruct l2.
Qed.

Lemma getprevious_at d e a q l1 l2 :
  getparent d e = Some q → children_of d q = l1 ++ a :: e :: l2 →
  e ∉ l1 → e ≠ a →
  getprevious d e = Some a.
Proof.
  intros Hp Hch Hni Hne. unfold getprevious. rewrite Hp. cbn [mbind option_bind].
  rewrite Hch.
  replace (l1 ++ a :: e :: l2) with ((l1 ++ [a]) ++ e :: l2)
    by by rewrite <- app_assoc.
  rewrite index_of_middle.
  2: { intros Hin. apply elem_of_app in Hin as [Hin|Hin]; [done|].
       by apply list_elem_of_singleton in Hin. }
  cbn [mbind option_bind]. rewrite length_app, Nat.add_1_r.
  rewrite <- app_assoc. by rewrite lookup_app_r, Nat.sub_diag by lia.
Qed.

(** In a tree whose nodes can be ranked, parents below children, nothing
    is its own ancestor. *)
Lemma ancestor_ranked (r : nat → nat) d a :
  (∀ q c, c ∈ children_of d q → r q < r c) →
  ∀ k x, r x < r a → ancestor_or_self_go k d a x = false.
Proof.
  intros Hr. induction k as [|k IH]; intros x Hx; cbn [ancestor_or_self_go].
  - destruct (Nat.eqb_spec a x) as [->|_]; [lia|done].
  - destruct (Nat.eqb_spec a x) as [->|_]; [lia|]. cbn [orb].
    pose proof (getparent_spec d x) as Hp.
    destruct (getparent d x) as [q|]; [|done].
    destruct Hp as (Hp & _). apply IH. specialize (Hr q x Hp). lia.
Qed.

(** ** Grouping siblings under a new parent *)

Lemma set_children_same n : set_children (n_children n) n = n.
Proof. by destruct n. Qed.

Lemma without_middle e l1 l2 :
  e ∉ l1 → e ∉ l2 → without e (l1 ++ e :: l2) = l1 ++ l2.
Proof.
  intros H1 H2. rewrite without_app. cbn [without List.filter].
  rewrite Nat.eqb_refl. cbn [negb].
  fold (without e l1). fold (without e l2).
  by rewrite !without_notin.
Qed.

Section Regrouped.

Variables (d : list node) (p : nat) (t : string) (rank : nat → nat).
Hypothesis Hclosed : closed d = true.
Hypothesis Hrank : ∀ q c, c ∈ children_of d q → rank q < rank c.
Hypothesis Hp : p < length d.

Lemma regrouped_length L R : length (regrouped d p t L R) = S (length d).
Proof. unfold regrouped. rewrite length_app, length_alter. simpl. lia. Qed.

Lemma regrouped_new L R :
  regrouped d p t L R !! length d = Some (Node t None "" "" R).
Proof.
  unfold regrouped. rewrite lookup_app_r; rewrite length_alter; [|done].
  by rewrite Nat.sub_diag.
Qed.

Lemma regrouped_old L R q :
  q < length d →
  regrouped d p t L R !! q =
  if decide (q = p) then set_children L <$> d !! q else d !! q.
Proof.
  intros Hq. unfold regrouped. rewrite lookup_app_l by by rewrite length_alter.
  destruct (decide (q = p)) as [->|Hne].
  - by rewrite list_lookup_alter_eq.
  - by rewrite list_lookup_alter_ne.
Qed.

Lemma regrouped_children L R q :
  children_of (regrouped d p t L R) q =
  if decide (q = p) then L
  else if decide (q = length d) then R
  else children_of d q.
Proof.
  unfold children_of. destruct (decide (q = p)) as [->|Hne].
  - rewrite regrouped_old, decide_True by done.
    destruct (lookup_lt_is_Some_2 d p Hp) as [n ->]. done.
  - destruct (decide (q = length d)) as [->|Hne'].
    + by rewrite regrouped_new.
    + destruct (decide (q < length d)).
      * by rewrite regrouped_old, decide_False.
      * rewrite !(proj2 (lookup_ge_None _ _)); [done|lia|].
        rewrite regrouped_length. lia.
Qed.

Lemma regrouped_same : regrouped d p t (children_of d p) [] = d ++ [Node t None "" "" []].
Proof.
  unfold regrouped. f_equal. apply list_eq. intros q.
  destruct (decide (p = q)) as [<-|Hne].
  - rewrite list_lookup_alter_eq. unfold children_of.
    destruct (d !! p) as [n|]; [|done]. simpl. by rewrite set_children_same.
  - by rewrite list_lookup_alter_ne.
Qed.

(** Changing the children of [p] or of the new element keeps the shape. *)
Lemma regrouped_alter_old L R (g : list nat → list nat) :
  alter (λ n, set_children (g (n_children n)) n) p (regrouped d p t L R) =
  regrouped d p t (g L) R.
Proof.
  unfold regrouped.
  rewrite alter_app_l by by rewrite length_alter.
  f_equal. apply list_eq. intros q.
  destruct (decide (p = q)) as [<-|Hne].
  - rewrite !list_lookup_alter_eq. by destruct (d !! p).
  - by rewrite !list_lookup_alter_ne.
Qed.

Lemma regrouped_alter_new L R (g : list nat → list nat) :
  alter (λ n, set_children (g (n_children n)) n) (length d) (regrouped d p t L R) =
  regrouped d p t L (g R).
Proof.
  unfold regrouped.
  rewrite alter_app_r_alt by by rewrite length_alter.
  by rewrite length_alter, Nat.sub_diag.
Qed.

(** Unlinking an element that [d] lists under [p] only. *)
Lemma regrouped_detach L R e :
  (∀ q, e ∈ children_of d q → q = p) →
  detach e (regrouped d p t L R) = regrouped d p t (without e L) (without e R).
Proof.
  intros Honly. unfold regrouped, detach. rewrite map_app. cbn [map set_children n_children n_tag n_class n_text n_tail].
  f_equal. apply list_eq. intros q.
  rewrite list_lookup_fmap.
  destruct (decide (p = q)) as [<-|Hne].
  - rewrite !list_lookup_alter_eq. by destruct (d !! p).
  - rewrite !list_lookup_alter_ne by done.
    destruct (d !! q) as [n|] eqn:Hn; [|done]. simpl. f_equal.
    rewrite without_notin; [apply set_children_same|].
    intros Hin. apply Hne. symmetry. apply Honly.
    unfold children_of. by rewrite Hn.
Qed.

Lemma regrouped_ranked L R :
  (∀ c, c ∈ L → c = length d ∨ c ∈ children_of d p) →
  (∀ c, c ∈ R → c ∈ children_of d p) →
  ∀ q c, c ∈ children_of (regrouped d p t L R) q →
    (if decide (q = length d) then 2 * rank p + 1 else 2 * rank q) <
    (if decide (c = length d) then 2 * rank p + 1 else 2 * rank c).
Proof.
  intros HL HR q c. rewrite regrouped_children.
  destruct (decide (q = p)) as [->|Hne].
  - intros Hc. rewrite decide_False by lia.
    destruct (HL c Hc) as [->|Hc'].
    + rewrite decide_True by done. lia.
    + pose proof (closed_lt _ _ _ Hclosed Hc').
      rewrite decide_False by lia. specialize (Hrank _ _ Hc'). lia.
  - destruct (decide (q = length d)) as [->|Hne'].
    + intros Hc. specialize (HR c Hc).
      pose proof (closed_lt _ _ _ Hclosed HR).
      rewrite decide_False by lia. specialize (Hrank _ _ HR). lia.
    + intros Hc. pose proof (closed_lt _ _ _ Hclosed Hc).
      rewrite decide_False by lia. specialize (Hrank _ _ Hc). lia.
Qed.

Lemma regrouped_parent_new L R :
  length d ∈ L → (∀ c, c ∈ R → c ∈ children_of d p) →
  getparent (regrouped d p t L R) (length d) = Some p.
Proof.
  intros HL HR. apply getparent_unique.
  - by rewrite regrouped_children, decide_True.
  - intros q. rewrite regrouped_children.
    destruct (decide (q = p)); [done|].
    destruct (decide (q = length d)).
    + intros Hc. pose proof (closed_lt _ _ _ Hclosed (HR _ Hc)). lia.
    + intros Hc. pose proof (closed_lt _ _ _ Hclosed Hc). lia.
Qed.

Lemma regrouped_parent_inside L R e :
  e ∈ R → e ∉ L → (∀ q, e ∈ children_of d q → q = p) →
  getparent (regrouped d p t L R) e = Some (length d).
Proof.
  intros HR HL Honly. apply getparent_unique.
  - rewrite regrouped_children, decide_False by lia. by rewrite decide_True.
  - intros q. rewrite regrouped_children.
    destruct (decide (q = p)); [done|].
    destruct (decide (q = length d)); [done|].
    intros Hc. by destruct (Honly q Hc).
Qed.

Lemma regrouped_parent_outside L R e :
  e ∈ L → e ∉ R → (∀ q, e ∈ children_of d q → q = p) →
  getparent (regrouped d p t L R) e = Some p.
Proof.
  intros HL HR Honly. apply getparent_unique.
  - by rewrite regrouped_children, decide_True.
  - intros q. rewrite regrouped_children.
    destruct (decide (q = p)); [done|].
    destruct (decide (q = length d)); [done|].
    apply Honly.
Qed.

(** [box.append(e)] for an element [e] listed next to the box. *)
Lemma regrouped_append L R e :
  length d ∈ L →
  (∀ c, c ∈ L → c = length d ∨ c ∈ children_of d p) →
  (∀ c, c ∈ R → c ∈ children_of d p) →
  e ∈ children_of d p → e ∉ R →
  (∀ q, e ∈ children_of d q → q = p) →
  append (regrouped d p t L R) (length d) e =
  Ok (regrouped d p t (without e L) (R ++ [e])).
Proof.
  intros Hb HL HR He HeR Honly.
  pose proof (closed_lt _ _ _ Hclosed He) as Hlt.
  unfold append, get. rewrite regrouped_new. cbn [of_option mbind res_bind].
  rewrite regrouped_old by done.
  destruct (lookup_lt_is_Some_2 d e Hlt) as [n Hn]. rewrite Hn.
  assert (∃ m, (if decide (e = p) then set_children L <$> Some n else Some n)
               = Some m) as [m ->] by (destruct (decide (e = p)); eauto).
  cbn [of_option mbind res_bind].
  unfold ancestor_or_self. rewrite regrouped_length.
  cbn [ancestor_or_self_go].
  destruct (Nat.eqb_spec e (length d)) as [->|_]; [lia|]. cbn [orb].
  rewrite regrouped_parent_new by done.
  rewrite (ancestor_ranked
             (λ x, if decide (x = length d) then 2 * rank p + 1 else 2 * rank x)
             _ e (regrouped_ranked L R HL HR)).
  2: { rewrite !decide_False by lia. specialize (Hrank _ _ He). lia. }
  rewrite regrouped_detach by done.
  rewrite (without_notin e R) by done.
  by rewrite (regrouped_alter_new _ _ (λ l, l ++ [e])).
Qed.

(** The first round of [wrap_set]: a new box is put after the element and
    the element moved into it. *)
Lemma wrap_step_first pre e rest :
  children_of d p = pre ++ e :: rest →
  NoDup (pre ++ e :: rest) →
  (∀ q, e ∈ children_of d q → q = p) →
  wrap_step t (d, None, None) e =
  Ok (regrouped d p t (pre ++ length d :: rest) [e], head rest, Some (length d)).
Proof.
  intros Hch Hnd Honly.
  assert (e ∈ children_of d p) as He
    by (rewrite Hch; apply elem_of_app; right; by left).
  pose proof (closed_lt _ _ _ Hclosed He) as Hlt.
  assert (length d ∉ children_of d p) as Hb.
  { intros H. pose proof (closed_lt _ _ _ Hclosed H). lia. }
  apply NoDup_app in Hnd as (Hnd1 & Hdisj & Hnd2).
  apply NoDup_cons in Hnd2 as [Hrest Hnd2].
  assert (e ∉ pre) as Hpre.
  { intros H. apply (Hdisj _ H). by left. }
  unfold wrap_step. rewrite bool_decide_eq_false_2 by done.
  unfold Element. rewrite <- regrouped_same.
  (* insert_after *)
  unfold insert_after, parent.
  rewrite regrouped_parent_outside; [|done|apply not_elem_of_nil|done].
  cbn [of_option mbind res_bind].
  rewrite regrouped_children, decide_True by done.
  rewrite Hch at 1. rewrite index_of_middle by done.
  cbn [of_option mbind res_bind].
  unfold insert, get. rewrite (regrouped_old _ _ p), decide_True by done.
  destruct (lookup_lt_is_Some_2 d p Hp) as [n Hn]. rewrite Hn.
  cbn [fmap option_fmap option_map of_option mbind res_bind].
  rewrite regrouped_new. cbn [of_option mbind res_bind].
  unfold ancestor_or_self.
  rewrite (ancestor_ranked
             (λ x, if decide (x = length d) then 2 * rank p + 1 else 2 * rank x)
             _ (length d)
             (regrouped_ranked _ _ (λ c Hc, or_intror Hc)
                (λ c Hc, False_ind _ (not_elem_of_nil c Hc)))).
  2: { rewrite decide_False, decide_True by lia. lia. }
  rewrite regrouped_detach.
  2: { intros q Hq. pose proof (closed_lt _ _ _ Hclosed Hq). lia. }
  rewrite (without_notin _ (children_of d p)) by done.
  cbn [without List.filter].
  rewrite (regrouped_alter_old _ _
             (λ l, take (S (length pre)) l ++ length d :: drop (S (length pre)) l)).
  rewrite Hch.
  replace (pre ++ e :: rest) with ((pre ++ [e]) ++ rest) at 1 2
    by by rewrite <- app_assoc.
  rewrite take_app_length', drop_app_length' by (rewrite length_app; simpl; lia).
  rewrite <- app_assoc. cbn [app].
  (* box.append(e) *)
  cbn [of_option mbind res_bind].
  rewrite regrouped_append; try done.
  2: { apply elem_of_app. right. right. by left. }
  2: { intros c Hc. rewrite Hch. apply elem_of_app in Hc as [Hc|Hc].
       - right. apply elem_of_app. by left.
       - apply elem_of_cons in Hc as [->|Hc]; [right; apply elem_of_app; right; by left|].
         apply elem_of_cons in Hc as [->|Hc]; [by left|].
         right. apply elem_of_app. right. by right. }
  2: { intros c Hc. by apply elem_of_nil in Hc. }
  2: apply not_elem_of_nil.
  rewrite without_middle; [|done|].
  2: { intros Hin. apply elem_of_cons in Hin as [->|Hin]; [lia|done]. }
  cbn [of_option mbind res_bind app].
  assert (e ∉ pre ++ length d :: rest) as HeL.
  { intros Hin. apply elem_of_app in Hin as [Hin|Hin]; [done|].
    apply elem_of_cons in Hin as [->|Hin]; [lia|done]. }
  rewrite regrouped_parent_inside; [|by left|done|done].
  cbn [of_option mbind res_bind].
  rewrite (getnext_at _ (length d) p pre rest).
  2: { apply regrouped_parent_new; [apply elem_of_app; right; by left|].
       intros c Hc. apply list_elem_of_singleton in Hc as ->. done. }
  2: by rewrite regrouped_children, decide_True.
  2: { intros Hin. apply Hb. rewrite Hch. apply elem_of_app. by left. }
  destruct rest as [|r rest]; [|done]. cbn [head].
  rewrite (getnext_at _ e (length d) [] []); [done| |..].
  - apply regrouped_parent_inside; [by left|done|done].
  - rewrite regrouped_children, decide_False by lia. by rewrite decide_True.
  - apply not_elem_of_nil.
Qed.

(** A later round, on the element that follows the box: it is moved into
    the box. *)
Lemma wrap_step_next pre R e rest :
  children_of d p = pre ++ R ++ e :: rest →
  NoDup (pre ++ R ++ e :: rest) →
  (∀ q, e ∈ children_of d q → q = p) →
  wrap_step t (regrouped d p t (pre ++ length d :: e :: rest) R,
               Some e, Some (length d)) e =
  Ok (regrouped d p t (pre ++ length d :: rest) (R ++ [e]),
      head rest, Some (length d)).
Proof.
  intros Hch Hnd Honly.
  assert (e ∈ children_of d p) as He.
  { rewrite Hch. apply elem_of_app. right. apply elem_of_app. right. by left. }
  pose proof (closed_lt _ _ _ Hclosed He) as Hlt.
  assert (length d ∉ children_of d p) as Hb.
  { intros H. pose proof (closed_lt _ _ _ Hclosed H). lia. }
  apply NoDup_app in Hnd as (Hnd1 & Hdisj & Hnd2).
  apply NoDup_app in Hnd2 as (HndR & HdisjR & Hnd3).
  apply NoDup_cons in Hnd3 as [Hrest Hnd3].
  assert (e ∉ pre) as Hpre.
  { intros H. apply (Hdisj _ H). apply elem_of_app. right. by left. }
  assert (e ∉ R) as HeR.
  { intros H. apply (HdisjR _ H). by left. }
  assert (∀ c, c ∈ R → c ∈ children_of d p) as HR.
  { intros c Hc. rewrite Hch. apply elem_of_app. right. apply elem_of_app. by left. }
  unfold wrap_step. rewrite bool_decide_eq_true_2 by done.
  cbn [of_option mbind res_bind].
  rewrite regrouped_append; try done.
  2: { apply elem_of_app. right. by left. }
  2: { intros c Hc. rewrite Hch. apply elem_of_app in Hc as [Hc|Hc].
       - right. apply elem_of_app. by left.
       - apply elem_of_cons in Hc as [->|Hc]; [by left|].
         right. apply elem_of_app. right. apply elem_of_app. by right. }
  replace (pre ++ length d :: e :: rest) with ((pre ++ [length d]) ++ e :: rest)
    by by rewrite <- app_assoc.
  rewrite without_middle; [|..|done].
  2: { intros Hin. apply elem_of_app in Hin as [Hin|Hin]; [done|].
       apply list_elem_of_singleton in Hin. lia. }
  rewrite <- app_assoc. cbn [of_option mbind res_bind app].
  assert (e ∉ pre ++ length d :: rest) as HeL.
  { intros Hin. apply elem_of_app in Hin as [Hin|Hin]; [done|].
    apply elem_of_cons in Hin as [->|Hin]; [lia|done]. }
  assert (∀ c, c ∈ R ++ [e] → c ∈ children_of d p) as HR'.
  { intros c Hc. apply elem_of_app in Hc as [Hc|Hc]; [by apply HR|].
    by apply list_elem_of_singleton in Hc as ->. }
  rewrite regrouped_parent_inside; [|apply elem_of_app; right; by left|done|done].
  cbn [of_option mbind res_bind].
  rewrite (getnext_at _ (length d) p pre rest).
  2: { apply regrouped_parent_new; [apply elem_of_app; right; by left|done]. }
  2: by rewrite regrouped_children, decide_True.
  2: { intros Hin. apply Hb. rewrite Hch. apply elem_of_app. by left. }
  destruct rest as [|r rest]; [|done]. cbn [head].
  rewrite (getnext_at _ e (length d) R []); [done| |..].
  - apply regrouped_parent_inside; [apply elem_of_app; right; by left|done|done].
  - rewrite regrouped_children, decide_False by lia. by rewrite decide_True.
  - done.
Qed.

Lemma wrap_loop pre post run2 : ∀ R,
  children_of d p = pre ++ R ++ run2 ++ post →
  NoDup (pre ++ R ++ run2 ++ post) →
  (∀ q e, e ∈ run2 → e ∈ children_of d q → q = p) →
  for_each (wrap_step t) run2
    (regrouped d p t (pre ++ length d :: run2 ++ post) R,
     head (run2 ++ post), Some (length d)) =
  Ok (regrouped d p t (pre ++ length d :: post) (R ++ run2),
      head post, Some (length d)).
Proof.
  induction run2 as [|e run2 IH]; intros R Hch Hnd Honly.
  - cbn [for_each app]. by rewrite app_nil_r.
  - cbn [for_each app head].
    rewrite (wrap_step_next pre R e (run2 ++ post)); [|done|done|].
    2: { intros q. apply Honly. by left. }
    cbn [mbind res_bind].
    rewrite (IH (R ++ [e])).
    + by rewrite <- app_assoc.
    + by rewrite <- app_assoc.
    + by rewrite <- app_assoc.
    + intros q e' He'. apply Honly. by right.
Qed.

End Regrouped.

(** X11.  [wrap_set] on a run of siblings.  When the elements with the
    child tag are the children [run] of one parent, next to each other
    between its children [pre] and [post], a single new element with the
    parent tag takes their place among the children of the parent and
    holds them all, in their order; nothing else changes. *)
Theorem wrap_set_run d child_tag parent_tag p pre run post (rank : nat → nat)
  (Hclosed : closed d = true)
  (Hrank : ∀ q c, c ∈ children_of d q → rank q < rank c)
  (Hsel : cssselect_tag d root child_tag = run)
  (Hne : run ≠ [])
  (Hch : children_of d p = pre ++ run ++ post)
  (Hnd : NoDup (pre ++ run ++ post))
  (Honly : ∀ q e, e ∈ run → e ∈ children_of d q → q = p) :
  wrap_set d child_tag parent_tag =
  Ok (regrouped d p parent_tag (pre ++ length d :: post) run).
Proof.
  assert (p < length d) as Hp.
  { unfold children_of in Hch. destruct (d !! p) as [n|] eqn:Hn.
    - by eapply lookup_lt_Some.
    - destruct pre, run; done. }
  unfold wrap_set. rewrite Hsel.
  destruct run as [|e run]; [done|]. cbn [for_each].
  rewrite (wrap_step_first d p parent_tag rank Hclosed Hrank Hp pre e (run ++ post));
    [|done|done|].
  2: { intros q. apply Honly. by left. }
  cbn [mbind res_bind].
  rewrite (wrap_loop d p parent_tag rank Hclosed Hrank Hp pre post run [e]);
    [done|done|done|].
  intros q e' He'. apply Honly. by right.
Qed.

Lemma wrap_set_run_witness :
  wrap_set doc_items "li" "ul" =
  Ok [ Node "div" None "" "" [1; 5; 4];
       Node "p" None "intro" "" [];
       Node "li" None "one" "" [];
       Node "li" None "two" "" [];
       Node "p" None "outro" "" [];
       Node "ul" None "" "" [2; 3] ].
Proof.
  apply (wrap_set_run doc_items "li" "ul" 0 [1] [2; 3] [4] (λ x, x)).
  - reflexivity.
  - intros q c Hc. exact (ordered_lt doc_items q c eq_refl Hc).
  - reflexivity.
  - discriminate.
  - reflexivity.
  - refine (@bool_decide_unpack (NoDup _) _ _). vm_compute. exact I.
  - intros q e _ Hc. destruct q as [|q]; [reflexivity|]. exfalso.
    do 4 (destruct q as [|q]; [vm_compute in Hc; inversion Hc|]).
    vm_compute in Hc. inversion Hc.
Defined.

(** ** [insert_after] *)

Lemma find_parent_app e ns n i :
  mem e (n_children n) = false →
  find_parent e (ns ++ [n]) i = find_parent e ns i.
Proof.
  intros Hn. revert i. induction ns as [|m ns IH]; intros i; cbn [app find_parent].
  - by rewrite Hn.
  - destruct (mem e (n_children m)); [done | apply IH].
Qed.

Lemma getparent_first d e q :
  e ∈ children_of d q → (∀ k, k < q → e ∉ children_of d k) →
  getparent d e = Some q.
Proof.
  intros He Hmin. pose proof (getparent_spec d e) as H.
  destruct (getparent d e) as [q0|]; [|by destruct (H q)].
  destruct H as (H0 & _ & Hmin0). f_equal.
  destruct (Nat.lt_trichotomy q0 q) as [Hlt|[->|Hlt]]; [|done|].
  - by destruct (Hmin q0 Hlt).
  - by destruct (Hmin0 q Hlt).
Qed.

Lemma index_of_split e l i :
  index_of e l = Some i →
  ∃ l1 l2, l = l1 ++ (e :: l2) ∧ (e ∉ l1) ∧ length l1 = i.
Proof.
  revert i. induction l as [|c l IH]; intros i; cbn [index_of]; [done|].
  destruct (Nat.eqb_spec c e) as [->|Hne].
  - intros [= <-]. exists [], l. split; [done|]. split; [apply not_elem_of_nil|done].
  - destruct (index_of e l) as [j|]; [|done]. intros [= <-].
    destruct (IH j eq_refl) as (l1 & l2 & -> & Hni & <-).
    exists (c :: l1), l2. split; [done|]. split; [|done].
    apply not_elem_of_cons. split; [congruence|done].
Qed.

Lemma index_of_elem e l : e ∈ l → is_Some (index_of e l).
Proof.
  induction l as [|c l IH]; [by intros ?%elem_of_nil|].
  intros Hin. cbn [index_of]. destruct (Nat.eqb_spec c e) as [->|Hne]; [eauto|].
  apply elem_of_cons in Hin as [->|Hin]; [done|].
  destruct (IH Hin) as [j ->]. eauto.
Qed.

(** X10.  [insert_after] with a new element, as [wrap_set] calls it: the
    element becomes the sibling right after [a], so that [a.getnext()] is
    the new element and its [getprevious()] is [a], and the children of no
    other node change.  When [a] has no parent the call raises
    [AttributeError]. *)
Theorem insert_after_new d tag a (rank : nat → nat)
  (Hclosed : closed d = true)
  (Hrank : ∀ q c, c ∈ children_of d q → rank q < rank c) :
  match getparent d a with
  | None =>
      insert_after (Element d tag).1 (Element d tag).2 a = Raise AttributeError
  | Some p =>
      ∃ d', insert_after (Element d tag).1 (Element d tag).2 a = Ok d' ∧
            getnext d' a = Some (length d) ∧
            getprevious d' (length d) = Some a ∧
            getparent d' (length d) = Some p ∧
            getparent d' a = Some p ∧
            d' !! length d = Some (Node tag None "" "" []) ∧
            ∀ q, q ≠ p → q < length d → d' !! q = d !! q
  end.
Proof.
  cbn [Element fst snd]. unfold insert_after, parent.
  assert (getparent (d ++ [Node tag None "" "" []]) a = getparent d a) as ->
    by (unfold getparent; by apply find_parent_app).
  pose proof (getparent_spec d a) as Hspec.
  destruct (getparent d a) as [p|]; [|done].
  destruct Hspec as (Ha & Hp & Hmin).
  cbn [of_option mbind res_bind].
  rewrite children_of_app by done.
  destruct (index_of_elem a _ Ha) as [i Hi]. rewrite Hi.
  destruct (index_of_split a _ i Hi) as (l1 & l2 & Hch & Hni & <-).
  cbn [of_option mbind res_bind].
  assert (length d ∉ children_of d p) as Hb.
  { intros H. pose proof (closed_lt _ _ _ Hclosed H). lia. }
  exists (regrouped d p tag (l1 ++ a :: length d :: l2) []). split.
  { rewrite <- (regrouped_same d p tag).
    unfold insert, get. rewrite (regrouped_old d p tag _ _ p), decide_True by done.
    destruct (lookup_lt_is_Some_2 d p Hp) as [n Hn]. rewrite Hn.
    cbn [fmap option_fmap option_map of_option mbind res_bind].
    rewrite regrouped_new. cbn [of_option mbind res_bind].
    unfold ancestor_or_self.
    rewrite (ancestor_ranked
               (λ x, if decide (x = length d) then 2 * rank p + 1 else 2 * rank x)
               _ (length d)
               (regrouped_ranked d p tag rank Hclosed Hrank Hp _ _
                  (λ c Hc, or_intror Hc)
                  (λ c Hc, False_ind _ (not_elem_of_nil c Hc)))).
    2: { rewrite decide_False, decide_True by lia. lia. }
    rewrite regrouped_detach.
    2: { intros q Hq. pose proof (closed_lt _ _ _ Hclosed Hq). lia. }
    rewrite (without_notin _ (children_of d p)) by done.
    cbn [without List.filter].
    rewrite (regrouped_alter_old d p tag Hp _ _
               (λ l, take (S (length l1)) l ++ length d :: drop (S (length l1)) l)).
    rewrite Hch.
    replace (l1 ++ a :: l2) with ((l1 ++ [a]) ++ l2) at 1 2
      by by rewrite <- app_assoc.
    rewrite take_app_length', drop_app_length' by (rewrite length_app; simpl; lia).
    by rewrite <- app_assoc. }
  assert (a < length d) as Halt by by eapply closed_lt.
  assert (getparent (regrouped d p tag (l1 ++ a :: length d :: l2) []) a = Some p)
    as Hpa.
  { apply getparent_first.
    - rewrite (regrouped_children d p tag Hp), decide_True by done.
      apply elem_of_app. right. by left.
    - intros k Hk. rewrite (regrouped_children d p tag Hp), !decide_False by lia.
      by apply Hmin. }
  assert (getparent (regrouped d p tag (l1 ++ a :: length d :: l2) []) (length d)
          = Some p) as Hpb.
  { apply regrouped_parent_new; try done.
    - apply elem_of_app. right. right. by left.
    - intros c Hc. by apply elem_of_nil in Hc. }
  split; [|split; [|split; [done|split; [done|split]]]].
  - apply (getnext_at _ a p l1 (length d :: l2)); [done| |done].
    by rewrite (regrouped_children d p tag Hp), decide_True.
  - apply (getprevious_at _ (length d) a p l1 l2); [done| | |lia].
    + by rewrite (regrouped_children d p tag Hp), decide_True.
    + intros Hin. apply Hb. rewrite Hch. apply elem_of_app. by left.
  - apply regrouped_new.
  - intros q Hne Hq. by rewrite regrouped_old, decide_False.
Qed.

Lemma insert_after_new_witness :
  ∃ d', insert_after (Element doc_items "ul").1 (Element doc_items "ul").2 2
          = Ok d' ∧
        getnext d' 2 = Some 5 ∧ getprevious d' 5 = Some 2 ∧
        children_of d' 0 = [1; 2; 5; 3; 4].
Proof.
  pose proof (insert_after_new doc_items "ul" 2 (λ x, x) eq_refl
                (λ q c Hc, ordered_lt doc_items q c eq_refl Hc)) as H.
  change (getparent doc_items 2) with (Some 0) in H.
  destruct H as (d' & H1 & H2 & H3 & _).
  exists d'. split; [exact H1|]. split; [exact H2|]. split; [exact H3|].
  vm_compute in H1. by injection H1 as <-.
Defined.

(** ** The block element is bound when a line appends *)

Lemma rev_app_empty s w : String.rev_app s w = "" → w = "".
Proof.
  revert w. induction s as [|a s IH]; intros w; cbn [String.rev_app]; [done|].
  intros H. by apply IH in H.
Qed.

Lemma lstrip_rev_app s w :
  Py.lstrip w ≠ "" → Py.lstrip (String.rev_app s w) ≠ "".
Proof.
  revert w. induction s as [|a s IH]; intros w Hw; cbn [String.rev_app]; [done|].
  apply IH. cbn [Py.lstrip]. by destruct (Py.isspace a).
Qed.

(** Text that starts with a character other than whitespace is not blank. *)
Lemma strip_truthy c s :
  Py.isspace c = false → Py.truthy (Py.strip (String c s)) = true.
Proof.
  intros Hc. unfold Py.strip. cbn [Py.lstrip]. rewrite Hc.
  unfold String.rev at 2. cbn [String.rev_app].
  assert (Py.lstrip (String.rev_app s (String c "")) ≠ "") as Hne.
  { apply lstrip_rev_app. cbn [Py.lstrip]. by rewrite Hc. }
  unfold Py.truthy, String.rev.
  destruct (String.eqb_spec (String.rev_app (Py.lstrip (String.rev_app s (String c ""))) "") "")
    as [Heq|]; [|done].
  destruct (Py.lstrip (String.rev_app s (String c ""))) as [|a u]; [done|].
  cbn [String.rev_app] in Heq. by apply rev_app_empty in Heq.
Qed.

Lemma bulleted_truthy txt :
  bulleted txt = true → Py.truthy (Py.strip txt) = true.
Proof.
  unfold bulleted, BULLETS. cbn [existsb]. intros H.
  destruct txt as [|c s]; [done|].
  apply strip_truthy.
  cbn [Py.startswith] in H.
  rewrite !orb_true_iff, !andb_true_iff in H.
  destruct H as [[H _]|[[H _]|[[H _]|H]]]; [..|done];
    apply Ascii.eqb_eq in H; by subst c.
Qed.

Lemma heading_tag_not_li level : heading_tag level ≠ "li".
Proof. unfold heading_tag. by rewrite append_cons, append_empty_l. Qed.

Lemma line_step_inv dims h_levels st d l st' d' :
  line_step dims h_levels (st, d) l = Ok (st', d') →
  ∃ a size b,
    analyse dims h_levels st d l = Ok a ∧
    classn "fs" d l = Ok size ∧
    merge_line a st d l = Ok (d', b) ∧
    st' = LoopState (Some (a_look a)) (a_height a) (a_space a)
                    (Some (a_tag a)) b.
Proof.
  intros H. destruct (analyse dims h_levels st d l) as [a|e] eqn:Ha.
  2: { unfold line_step in H. by rewrite Ha in H. }
  rewrite (line_step_eq _ _ _ _ _ _ Ha) in H.
  apply bind_ok in H as ([d1 b] & Hm & H). injection H as <- <-.
  destruct (analyse_inv _ _ _ _ _ _ Ha) as (n & c & size & _ & _ & _ & Hs).
  exists a, size, b. done.
Qed.

(** Why a line appends: it goes on the look of a line with text, or it is
    indented under a list item. *)
Lemma append_reason dims h_levels st d l a :
  analyse dims h_levels st d l = Ok a → a_append a = true →
  (p_look st = Some (a_look a) ∧ p_space st = false) ∨ p_tag st = Some "li".
Proof.
  intros Ha Happ.
  destruct (analyse_inv _ _ _ _ _ _ Ha) as (n & c & size & _ & _ & _ & Hs).
  destruct (analyse_fields _ _ _ _ _ _ _ Ha Hs)
    as (Hnl & _ & _ & _ & Hdef & Hta).
  unfold heading_rule, li_rule in Hta. rewrite Happ in Hta.
  destruct (dict_get size h_levels); [congruence|].
  destruct (bulleted (a_txt a)); [congruence|].
  destruct (negb (Py.contains "x0" (a_look a)) &&
            bool_decide (p_tag st = Some "li")) eqn:Hli.
  - right. apply andb_true_iff in Hli as [_ Hli].
    by apply bool_decide_eq_true in Hli.
  - left. injection Hta as _ Hd. rewrite <- Hd, chained_all_false in Hdef.
    symmetry in Hdef. rewrite !andb_true_iff, !negb_true_iff in Hdef.
    destruct Hdef as [[Hn Hsp] _]. split; [|done].
    rewrite Hn in Hnl. symmetry in Hnl. apply negb_false_iff in Hnl.
    by apply bool_decide_eq_true in Hnl.
Qed.

Lemma line_step_bound dims h_levels st d l st' d' :
  line_step dims h_levels (st, d) l = Ok (st', d') →
  box_bound st →
  box_bound st' ∧ (∀ b, box st' = Some b → box st = Some b ∨ b = l).
Proof.
  intros H [Hli Hlook].
  apply line_step_inv in H as (a & size & b & Ha & Hs & Hm & ->).
  destruct (analyse_fields _ _ _ _ _ _ _ Ha Hs)
    as (_ & _ & Hsp & _ & _ & Hta).
  unfold merge_line in Hm.
  destruct (Py.truthy (Py.strip (a_txt a))) eqn:Htxt.
  - destruct (a_append a) eqn:Happ.
    + apply bind_ok in Hm as (b0 & Hb0 & Hm). apply of_option_ok in Hb0.
      apply bind_ok in Hm as (d1 & _ & Hm).
      apply bind_ok in Hm as (d2 & _ & Hm). injection Hm as _ <-.
      split; [|intros b' Hb'; by left].
      split; cbn [box p_tag p_look p_space]; by rewrite Hb0.
    + apply bind_ok in Hm as (d1 & _ & Hm). injection Hm as _ <-.
      split; [|intros b' [= <-]; by right].
      split; cbn [box]; eauto.
  - apply bind_ok in Hm as (d1 & _ & Hm). injection Hm as _ <-.
    split; [|intros b' Hb'; by left].
    split; cbn [box p_tag p_look p_space].
    + intros [= Htag]. apply Hli.
      unfold heading_rule, li_rule in Hta.
      destruct (dict_get size h_levels) as [level|].
      { injection Hta as Ht _. rewrite Htag in Ht.
        by destruct (heading_tag_not_li level). }
      destruct (bulleted (a_txt a)) eqn:Hb.
      { apply bulleted_truthy in Hb. congruence. }
      destruct (negb (Py.contains "x0" (a_look a)) &&
                bool_decide (p_tag st = Some "li")) eqn:Hcont.
      * apply andb_true_iff in Hcont as [_ Hcont].
        by apply bool_decide_eq_true in Hcont.
      * injection Hta as Ht _. by rewrite Htag in Ht.
    + intros _ Hspace. rewrite Hsp in Hspace. by rewrite ?Htxt in Hspace.
Qed.

Lemma block_pass_bound dims h_levels lines : ∀ st d st' d',
  for_each (line_step dims h_levels) lines (st, d) = Ok (st', d') →
  box_bound st →
  box_bound st' ∧ (∀ b, box st' = Some b → box st = Some b ∨ In b lines).
Proof.
  induction lines as [|l lines IH]; intros st d st' d' H Hb.
  - injection H as <- <-. split; [done|]. intros b Hbox. by left.
  - cbn [for_each] in H. apply bind_ok in H as ([st1 d1] & H1 & H).
    apply line_step_bound in H1 as [Hb1 Hbox1]; [|done].
    destruct (IH _ _ _ _ H Hb1) as [Hb' Hbox']. split; [done|].
    intros b Hbox. destruct (Hbox' b Hbox) as [H1|H1].
    + destruct (Hbox1 b H1) as [?| ->]; [by left | right; by left].
    + right. by right.
Qed.

(** X12.  The block element starts out unbound, as the integer 0.  Yet
    whenever the loop, after any number of rounds, decides that the next
    line appends, a block has been bound by then: it is one of the lines
    visited before.  So [box.append] is never called on the 0. *)
Theorem block_is_bound dims h_levels d lines st' d' l a
  (Hrun : for_each (line_step dims h_levels) lines (initial_state, d)
          = Ok (st', d'))
  (Ha : analyse dims h_levels st' d' l = Ok a)
  (Happ : a_append a = true) :
  ∃ b, box st' = Some b ∧ In b lines.
Proof.
  assert (box_bound initial_state) as H0.
  { split; [done|]. intros [? H]. done. }
  destruct (block_pass_bound _ _ _ _ _ _ _ Hrun H0) as [[Hli Hlook] Hin].
  assert (is_Some (box st')) as [b Hb].
  { destruct (append_reason _ _ _ _ _ _ Ha Happ) as [[H1 H2]|H1].
    - apply Hlook; [by rewrite H1 | done].
    - by apply Hli. }
  exists b. split; [done|]. by destruct (Hin b Hb).
Qed.

Lemma block_is_bound_witness :
  ∃ st' d' a,
    for_each (line_step sample_dims []) [1; 2] (initial_state, doc_list)
      = Ok (st', d') ∧
    analyse sample_dims [] st' d' 3 = Ok a ∧
    box st' = Some 1.
Proof.
  destruct (for_each (line_step sample_dims []) [1; 2] (initial_state, doc_list))
    as [[st' d']|e] eqn:Hrun; [|vm_compute in Hrun; discriminate].
  destruct (analyse sample_dims [] st' d' 3) as [a|e] eqn:Ha.
  2: { vm_compute in Hrun. injection Hrun as <- <-. vm_compute in Ha. discriminate. }
  destruct (block_is_bound sample_dims [] doc_list [1; 2] st' d' 3 a Hrun Ha)
    as (b & Hb & _).
  - vm_compute in Hrun. injection Hrun as <- <-.
    vm_compute in Ha. by injection Ha as <-.
  - exists st', d', a. split; [done|]. split; [done|].
    vm_compute in Hrun. by injection Hrun as <- <-.
Defined.

(** ** Table cells are no lines any more *)

Lemma append_class d p e d' q :
  append d p e = Ok d' → n_class <$> d' !! q = n_class <$> d !! q.
Proof.
  intros H. apply append_inv in H as (_ & _ & ->).
  destruct (decide (p = q)) as [->|Hne].
  - rewrite list_lookup_alter_eq, lookup_detach. by destruct (d !! q).
  - rewrite list_lookup_alter_ne, lookup_detach by done. by destruct (d !! q).
Qed.

Lemma cell_line_class el d line d' :
  cell_line el d line = Ok d' →
  n_class <$> d' !! line = Some (Some "") ∧
  ∀ q, n_class <$> d !! q = Some (Some "") →
       n_class <$> d' !! q = Some (Some "").
Proof.
  unfold cell_line. intros H.
  apply bind_ok in H as (d1 & Hmod & H).
  apply bind_ok in H as (d2 & Hbr & H).
  apply modify_inv in Hmod as ([n Hn] & ->). simpl in Hbr.
  assert (∀ q, q < length d →
            n_class <$> d' !! q =
            n_class <$> alter (set_class (Some "")) line d !! q) as Hq.
  { intros q Hq.
    rewrite (append_class _ _ _ _ _ H), (append_class _ _ _ _ _ Hbr).
    by rewrite lookup_app_l by by rewrite length_alter. }
  split.
  - rewrite Hq by by eapply lookup_lt_Some.
    by rewrite list_lookup_alter_eq, Hn.
  - intros q Hc.
    assert (q < length d) as Hlt.
    { destruct (d !! q) eqn:Hdq; [by eapply lookup_lt_Some | done]. }
    rewrite Hq by done.
    destruct (decide (line = q)) as [->|Hne].
    + by rewrite list_lookup_alter_eq, Hn.
    + by rewrite list_lookup_alter_ne.
Qed.

Lemma cell_lines_class el ls d d' :
  for_each (cell_line el) ls d = Ok d' →
  (∀ l, In l ls → n_class <$> d' !! l = Some (Some "")) ∧
  ∀ q, n_class <$> d !! q = Some (Some "") →
       n_class <$> d' !! q = Some (Some "").
Proof.
  revert d. induction ls as [|l ls IH]; intros d; cbn [for_each].
  - intros [= <-]. by split.
  - intros H. apply bind_ok in H as (d1 & H1 & H).
    apply cell_line_class in H1 as [Hl Hkeep1].
    apply IH in H as [Hls Hkeep]. split.
    + intros l' [<-|Hin]; [by apply Hkeep | by apply Hls].
    + intros q Hq. by apply Hkeep, Hkeep1.
Qed.

Lemma retag_cell_class tr d cell d' :
  retag_cell tr d cell = Ok d' →
  n_class <$> d' !! elem cell = Some (Some "") ∧
  (∀ l, In l (List.tl (lines cell)) → n_class <$> d' !! l = Some (Some "")) ∧
  ∀ q, n_class <$> d !! q = Some (Some "") →
       n_class <$> d' !! q = Some (Some "").
Proof.
  unfold retag_cell. intros H.
  apply bind_ok in H as (d1 & Hm1 & H).
  apply bind_ok in H as (d2 & Hm2 & H).
  apply bind_ok in H as (d3 & Hls & H).
  apply modify_inv in Hm1 as ([n Hn] & ->).
  apply modify_inv in Hm2 as (_ & ->).
  apply cell_lines_class in Hls as [Hl Hkeep].
  split; [|split].
  - rewrite (append_class _ _ _ _ _ H). apply Hkeep.
    by rewrite !list_lookup_alter_eq, Hn.
  - intros l Hin. rewrite (append_class _ _ _ _ _ H). by apply Hl.
  - intros q Hq. rewrite (append_class _ _ _ _ _ H). apply Hkeep.
    destruct (decide (elem cell = q)) as [<-|Hne].
    + by rewrite !list_lookup_alter_eq, Hn.
    + by rewrite !list_lookup_alter_ne.
Qed.

Lemma retag_cells_class tr row d d' :
  for_each (retag_cell tr) row d = Ok d' →
  (∀ c, In c row →
     n_class <$> d' !! elem c = Some (Some "") ∧
     ∀ l, In l (List.tl (lines c)) → n_class <$> d' !! l = Some (Some "")) ∧
  ∀ q, n_class <$> d !! q = Some (Some "") →
       n_class <$> d' !! q = Some (Some "").
Proof.
  revert d. induction row as [|c row IH]; intros d; cbn [for_each].
  - intros [= <-]. by split.
  - intros H. apply bind_ok in H as (d1 & H1 & H).
    apply retag_cell_class in H1 as (He & Hl & Hkeep1).
    apply IH in H as [Hrow Hkeep]. split.
    + intros c' [<-|Hin]; [|by apply Hrow]. split.
      * by apply Hkeep.
      * intros l Hin. by apply Hkeep, Hl.
    + intros q Hq. by apply Hkeep, Hkeep1.
Qed.

Lemma cleared_not_selected d e tok :
  n_class <$> d !! e = Some (Some "") → ¬ In e (cssselect_class d root tok).
Proof.
  intros Hc Hin. unfold cssselect_class, select in Hin.
  apply filter_In in Hin as [_ Hin].
  destruct (d !! e) as [n|]; [|done]. injection Hc as Hc.
  unfold has_class in Hin. by rewrite Hc in Hin.
Qed.

(** X13.  The members of a table row, and the lines merged into them,
    lose their class tokens: no class selector finds them afterwards.  In
    particular the main loop, which visits the elements of class [t], does
    not visit the cells of a table. *)
Theorem cells_are_no_lines d row d'
  (Hcount : 1 < count_text row)
  (Hrow : retag_row d row = Ok d') :
  ∀ c, In c row →
    n_class <$> d' !! elem c = Some (Some "") ∧
    ¬ In (elem c) (cssselect_class d' root "t") ∧
    ∀ l, In l (List.tl (lines c)) → ¬ In l (cssselect_class d' root "t").
Proof.
  unfold retag_row in Hrow.
  rewrite (proj2 (Nat.ltb_lt _ _) Hcount) in Hrow.
  apply bind_ok in Hrow as (c0 & _ & Hrow).
  apply bind_ok in Hrow as (tr & _ & Hrow).
  apply bind_ok in Hrow as (d1 & _ & Hrow).
  apply retag_cells_class in Hrow as [Hcells _].
  intros c Hc. destruct (Hcells c Hc) as [He Hl].
  split; [done|]. split.
  - by apply cleared_not_selected.
  - intros l Hin. by apply cleared_not_selected, Hl.
Qed.

Lemma cells_are_no_lines_witness :
  ∃ d', retag_row doc_cell
          [NS 1 100 150 2 (Some 1) [2; 3] "first line";
           NS 1 300 150 5 (Some 4) [5] "other"] = Ok d' ∧
        cssselect_class doc_cell root "t" = [2; 3; 5] ∧
        ¬ In 2 (cssselect_class d' root "t") ∧
        ¬ In 3 (cssselect_class d' root "t").
Proof.
  set (row := [NS 1 100 150 2 (Some 1) [2; 3] "first line";
               NS 1 300 150 5 (Some 4) [5] "other"]).
  destruct (retag_row doc_cell row) as [d'|e] eqn:H;
    [|vm_compute in H; discriminate].
  assert (1 < count_text row) as Hcount by (vm_compute; lia).
  destruct (cells_are_no_lines doc_cell row d' Hcount H
              (NS 1 100 150 2 (Some 1) [2; 3] "first line"))
    as (_ & H2 & H3); [by left|].
  exists d'. split; [done|]. split; [reflexivity|]. split; [exact H2|].
  apply H3. by left.
Defined.

(** ** Batches *)

Lemma batch_go_spec semanticize limit paths : ∀ i,
  batch_go semanticize limit i paths =
  map (λ path, (path, semanticize path))
      match limit with
      | Some n => if (i <=? n)%Z then take (Z.to_nat (n - i)) paths else paths
      | None => paths
      end.
Proof.
  induction paths as [|path rest IH]; intros i; cbn [batch_go].
  - destruct limit as [n|]; [|done]. destruct (i <=? n)%Z; [|done].
    by rewrite take_nil.
  - destruct limit as [n|].
    + destruct (decide (i = n)) as [->|Hne].
      * rewrite bool_decide_eq_true_2 by done.
        by rewrite Z.leb_refl, Z.sub_diag.
      * rewrite bool_decide_eq_false_2 by congruence. rewrite IH.
        destruct (Z.leb_spec i n) as [Hle|Hgt].
        -- rewrite (proj2 (Z.leb_le (i + 1) n)) by lia.
           replace (Z.to_nat (n - i)) with (S (Z.to_nat (n - (i + 1)))) by lia.
           done.
        -- by rewrite (proj2 (Z.leb_gt (i + 1) n)) by lia.
    + rewrite bool_decide_eq_false_2 by done. by rewrite IH.
Qed.

(** X14.  [batch_process] converts the paths in their order and goes on
    after a conversion that raised.  With a limit [n ≥ 0] it converts the
    first [n] paths (all of them if there are fewer); with no limit, or a
    negative one, it converts every path. *)
Theorem batch_process_limit semanticize paths limit :
  batch_process semanticize paths limit =
  map (λ path, (path, semanticize path))
      match limit with
      | Some n => if (0 <=? n)%Z then take (Z.to_nat n) paths else paths
      | None => paths
      end.
Proof.
  unfold batch_process. rewrite batch_go_spec.
  destruct limit as [n|]; [|done]. by rewrite Z.sub_0_r.
Qed.

(** ** Pages without rows *)

Lemma retag_rows_none d rows :
  (∀ row, In row rows → count_text row ≤ 1) → retag_rows d rows = Ok d.
Proof.
  unfold retag_rows. induction rows as [|row rows IH]; intros H; [done|].
  cbn [for_each].
  assert (retag_row d row = Ok d) as ->.
  { unfold retag_row.
    by rewrite (proj2 (Nat.ltb_ge 1 (count_text row))) by (apply H; by left). }
  cbn [mbind res_bind]. apply IH. intros r Hr. apply H. by right.
Qed.

Lemma count_text_length row : count_text row ≤ length row.
Proof. unfold count_text. apply List.filter_length_le. Qed.

Lemma merged_row_length store row : length (merged_row store row) ≤ length row.
Proof.
  unfold merged_row. induction row as [|i row IH]; [done|].
  cbn [flat_map]. rewrite length_app. unfold cell_of at 1.
  destruct (store !! i); [|simpl; lia].
  destruct (is_first store i); simpl; lia.
Qed.

Lemma NoDup_concat_In (ls : list (list nat)) l :
  NoDup (concat ls) → In l ls → NoDup l.
Proof.
  induction ls as [|l0 ls IH]; [done|]. cbn [concat].
  intros Hnd [->|Hin]; apply NoDup_app in Hnd as (H1 & _ & H2); [done|].
  by apply IH.
Qed.

(** Records that share no page and height leave no row with two members. *)
Lemma single_rows data :
  NoDup (map key_of data) →
  ∀ row,
    In row (map (λ kr : row_key * list nat,
                   merged_row (sorted key_le data) kr.2)
                (bucket (sorted key_le data)).1) →
    count_text row ≤ 1.
Proof.
  intros Hkeys. set (store := sorted key_le data).
  assert (NoDup (map key_of store)) as Hks.
  { assert (map key_of store ≡ₚ map key_of data) as ->; [|done].
    apply Permutation_map, sorted_Permutation. }
  assert (StronglySorted (λ a b, key_le a b = true) store) as Hsorted
    by (apply sorted_sorted; [apply key_le_total | apply key_le_trans]).
  destruct (bucket_rows_sorted store Hsorted) as (Hcat & _ & _).
  intros row Hrow. apply in_map_iff in Hrow as ([k r] & <- & Hkr).
  cbn [snd]. etransitivity; [apply count_text_length|].
  etransitivity; [apply merged_row_length|].
  assert (NoDup r) as Hr.
  { apply (NoDup_concat_In (map snd (bucket store).1)).
    - rewrite Hcat. apply NoDup_ListNoDup, seq_NoDup.
    - apply in_map_iff. by exists (k, r). }
  destruct r as [|i [|j r]]; [simpl; lia..|]. exfalso.
  pose proof (bucket_rows_key store k _ i Hkr ltac:(by left)) as Hi.
  pose proof (bucket_rows_key store k _ j Hkr ltac:(right; by left)) as Hj.
  apply NoDup_cons in Hr as [Hij _]. apply Hij, elem_of_cons. left.
  apply (NoDup_lookup (map key_of store) i j k Hks);
    by rewrite list_lookup_fmap.
Qed.

(** X15.  When no two records share page and height, no row has two
    members, no table row is made, and [reconstruct_tables] does what it
    does without any records: it drops the empty containers and finds no
    rows to wrap. *)
Theorem no_shared_row_no_table d data
  (Hnd : NoDup (map elem data))
  (Hkeys : NoDup (map key_of data)) :
  reconstruct_tables d data = reconstruct_tables d [] ∧
  reconstruct_tables d [] = (d1 ← drop_empty d; wrap_set d1 "tr" "table").
Proof.
  split; [|done].
  rewrite reconstruct_tables_eq by done. cbv zeta.
  rewrite retag_rows_none; [done|].
  by apply single_rows.
Qed.

Lemma no_shared_row_no_table_witness :
  reconstruct_tables doc_grid_plain
    [NS 1 100 138 1 None [] "a"; NS 1 100 238 3 None [] "c"] =
  reconstruct_tables doc_grid_plain [].
Proof.
  apply (no_shared_row_no_table doc_grid_plain
           [NS 1 100 138 1 None [] "a"; NS 1 100 238 3 None [] "c"]);
    refine (@bool_decide_unpack (NoDup _) _ _); vm_compute; exact I.
Defined.

(** ** Header removal without a position *)

Lemma map_res_raise {X Y : Type} (f : X → res Y) before x after e :
  (∀ b, In b before → is_ok (f b) = true) → f x = Raise e →
  map_res f (before ++ x :: after) = Raise e.
Proof.
  intros Hb Hx. induction before as [|b before IH]; cbn [app map_res].
  - by rewrite Hx.
  - specialize (Hb b (or_introl eq_refl)) as Hb0.
    destruct (f b) as [y|]; [|done]. cbn [mbind res_bind].
    rewrite IH; [done|]. intros b' Hb'. apply Hb. by right.
Qed.

Lemma first_child_parent d x :
  In x (cssselect_pc_first_child d root) → is_Some (parent d x).
Proof.
  unfold cssselect_pc_first_child, parent. intros H.
  apply filter_In in H as [_ H]. destruct (getparent d x); [eauto|done].
Qed.

(** X16.  [remove_headers] reads the position of the first element of
    every page before it removes anything: at the first page whose first
    element has no class attribute, or no [y] token after its first token,
    it raises what [classn] raises there ([KeyError], [IndexError]). *)
Theorem remove_headers_needs_position d before n1 after e
  (Hsel : cssselect_pc_first_child d root = before ++ n1 :: after)
  (Hbefore : ∀ x, In x before → is_ok (classn "y" d x) = true)
  (Hn1 : classn "y" d n1 = Raise e) :
  collect_leading d = Raise e ∧ remove_headers d = Raise e.
Proof.
  assert (collect_leading d = Raise e) as Hc.
  { unfold collect_leading. rewrite Hsel. apply map_res_raise.
    - intros x Hx. unfold leading_of.
      specialize (Hbefore x Hx).
      destruct (classn "y" d x) as [y|]; [|done]. cbn [mbind res_bind].
      destruct (first_child_parent d x) as [p ->]; [|done].
      rewrite Hsel. apply in_or_app. by left.
    - unfold leading_of. by rewrite Hn1. }
  split; [done|]. unfold remove_headers. by rewrite Hc.
Qed.

Lemma remove_headers_needs_position_witness :
  remove_headers
    [ Node "div" None "" "" [1; 3];
      Node "div" (Some "pc pc1 w0 h0") "" "" [2];
      Node "div" (Some "t m0 x0 h2 y9 ff1 fs0 fc0") "Report" "" [];
      Node "div" (Some "pc pc2 w0 h0") "" "" [4];
      Node "img" None "" "" [] ] = Raise KeyError.
Proof.
  apply (remove_headers_needs_position _ [2] 4 [] KeyError).
  - reflexivity.
  - intros x [<-|[]]. reflexivity.
  - reflexivity.
Defined.

(** ** Lines that make one block *)

Lemma leaf_not_ancestor d x :
  children_of d x = [] → ∀ k y, y ≠ x → ancestor_or_self_go k d x y = false.
Proof.
  intros Hx. induction k as [|k IH]; intros y Hy; cbn [ancestor_or_self_go].
  - destruct (Nat.eqb_spec x y) as [->|_]; done.
  - destruct (Nat.eqb_spec x y) as [->|_]; [done|]. cbn [orb].
    pose proof (getparent_spec d y) as Hp.
    destruct (getparent d y) as [q|]; [|done].
    destruct Hp as (Hp & _). apply IH. intros ->.
    rewrite Hx in Hp. by apply elem_of_nil in Hp.
Qed.

Lemma text_content_leaf d l n :
  d !! l = Some n → n_children n = [] → text_content d l = n_text n.
Proof.
  intros Hn Hc. unfold text_content.
  destruct (length d) as [|k] eqn:Hlen.
  - apply lookup_lt_Some in Hn. lia.
  - cbn [text_content_go]. rewrite Hn, Hc. simpl. apply append_empty_r.
Qed.

Lemma classn_class c d d' l :
  n_class <$> d' !! l = n_class <$> d !! l → classn c d' l = classn c d l.
Proof.
  intros H. unfold classn, get.
  destruct (d' !! l) as [n'|], (d !! l) as [n|]; try done.
  simpl in *. injection H as H. by rewrite H.
Qed.

Lemma get_dimension_class dims t d d' l :
  n_class <$> d' !! l = n_class <$> d !! l →
  get_dimension dims d' l t = get_dimension dims d l t.
Proof.
  intros H. unfold get_dimension. by rewrite (classn_class t d d' l H).
Qed.

Lemma detach_absent d e : (∀ q, e ∉ children_of d q) → detach e d = d.
Proof.
  intros H. unfold detach. apply list_eq. intros q.
  rewrite list_lookup_fmap. destruct (d !! q) as [n|] eqn:Hn; [|done].
  simpl. f_equal. rewrite without_notin; [apply set_children_same|].
  specialize (H q). unfold children_of in H. by rewrite Hn in H.
Qed.

Lemma breaks_and_lines_snoc n ls l :
  breaks_and_lines n (ls ++ [l]) = breaks_and_lines n ls ++ [n + length ls; l].
Proof.
  revert n. induction ls as [|x ls IH]; intros n; cbn [app breaks_and_lines length].
  - by rewrite Nat.add_0_r.
  - rewrite IH. by rewrite Nat.add_succ_comm.
Qed.

Lemma breaks_and_lines_elem n ls c :
  c ∈ breaks_and_lines n ls → (n ≤ c < n + length ls) ∨ c ∈ ls.
Proof.
  revert n. induction ls as [|l ls IH]; intros n; cbn [breaks_and_lines length].
  - by intros ?%elem_of_nil.
  - intros Hc. apply elem_of_cons in Hc as [->|Hc]; [left; lia|].
    apply elem_of_cons in Hc as [->|Hc]; [right; by left|].
    apply IH in Hc as [?|?]; [left; lia | right; by right].
Qed.

Lemma filter_not_mem_snoc done l (ch : list nat) :
  without l (List.filter (λ c, negb (mem c done)) ch) =
  List.filter (λ c, negb (mem c (done ++ [l]))) ch.
Proof.
  unfold without. rewrite filter_filter_andb. apply List.filter_ext.
  intros c. unfold mem. rewrite existsb_app. cbn [existsb].
  rewrite orb_false_r, negb_orb. done.
Qed.

Lemma filter_not_mem_nil (l : list nat) :
  List.filter (λ c, negb (mem c [])) l = l.
Proof.
  induction l as [|a l IH]; [done|]. simpl. f_equal. exact IH.
Qed.

Section Block.

Variables (d : list node) (tag : string) (l1 : nat).
Hypothesis Hclosed : closed d = true.
Hypothesis Hl1 : l1 < length d.
Hypothesis Hleaf1 : children_of d l1 = [].

Lemma block_of_length done : length (block_of d tag l1 done) = length d + length done.
Proof.
  unfold block_of, strip_lines.
  by rewrite length_app, length_alter, length_map, length_replicate.
Qed.

Lemma block_of_old done q :
  q < length d →
  block_of d tag l1 done !! q =
  (λ n, if decide (q = l1)
        then Node tag (n_class n) (n_text n) (n_tail n)
                  (breaks_and_lines (length d) done)
        else set_children (List.filter (λ c, negb (mem c done)) (n_children n)) n)
    <$> d !! q.
Proof.
  intros Hq. unfold block_of, strip_lines.
  rewrite lookup_app_l by by rewrite length_alter, length_map.
  destruct (decide (q = l1)) as [->|Hne].
  - rewrite list_lookup_alter_eq, list_lookup_fmap.
    by destruct (d !! l1).
  - rewrite list_lookup_alter_ne by done. by rewrite list_lookup_fmap.
Qed.

Lemma block_of_new done q :
  length d ≤ q →
  block_of d tag l1 done !! q =
  if decide (q < length d + length done) then Some (Node "br" None "" "" [])
  else None.
Proof.
  intros Hq. unfold block_of, strip_lines.
  rewrite lookup_app_r; rewrite length_alter, length_map; [|done].
  destruct (decide (q < length d + length done)).
  - apply lookup_replicate_2. lia.
  - apply lookup_ge_None. rewrite length_replicate. lia.
Qed.

Lemma block_of_children done q :
  children_of (block_of d tag l1 done) q =
  if decide (q = l1) then breaks_and_lines (length d) done
  else List.filter (λ c, negb (mem c done)) (children_of d q).
Proof.
  unfold children_of. destruct (decide (q < length d)) as [Hq|Hq].
  - rewrite block_of_old by done.
    destruct (lookup_lt_is_Some_2 d q Hq) as [n ->].
    simpl. by destruct (decide (q = l1)).
  - rewrite block_of_new by lia.
    destruct (decide (q = l1)) as [->|_]; [lia|].
    rewrite (proj2 (lookup_ge_None d q)) by lia.
    by destruct (decide (q < length d + length done)).
Qed.

Lemma block_of_nil : block_of d tag l1 [] = alter (set_tag tag) l1 d.
Proof.
  unfold block_of, strip_lines. cbn [length replicate breaks_and_lines].
  rewrite app_nil_r. apply list_eq. intros q.
  destruct (decide (l1 = q)) as [<-|Hne].
  - rewrite !list_lookup_alter_eq, list_lookup_fmap.
    unfold children_of in Hleaf1.
    destruct (d !! l1) as [n|]; [|done]. simpl. f_equal.
    destruct n. simpl in *. by subst.
  - rewrite !list_lookup_alter_ne, list_lookup_fmap by done.
    destruct (d !! q) as [n|]; [|done]. simpl. f_equal.
    rewrite filter_not_mem_nil.
    apply set_children_same.
Qed.

(** Everything listed as a child in the block tree is an old node or one
    of the breaks. *)
Lemma block_of_closed done q c :
  (∀ x, x ∈ done → x < length d) →
  c ∈ children_of (block_of d tag l1 done) q → c < length d + length done.
Proof.
  intros Hdone. rewrite block_of_children.
  destruct (decide (q = l1)).
  - intros Hc. apply breaks_and_lines_elem in Hc as [?|Hc]; [lia|].
    specialize (Hdone c Hc). lia.
  - intros Hc. apply list_elem_of_In, filter_In in Hc as [Hc _].
    apply list_elem_of_In in Hc. pose proof (closed_lt _ _ _ Hclosed Hc). lia.
Qed.

(** A line with text that appends: a break and the line go under the
    block element. *)
Lemma block_of_same done l :
  l < length d → l ≠ l1 → children_of d l = [] →
  block_of d tag l1 done !! l = d !! l.
Proof.
  intros Hl Hne Hleaf. rewrite block_of_old by done.
  unfold children_of in Hleaf. destruct (d !! l) as [n|]; [|done].
  cbn [fmap option_fmap option_map]. rewrite decide_False by done.
  rewrite Hleaf. cbn [List.filter]. f_equal. rewrite <- Hleaf.
  apply set_children_same.
Qed.

Lemma block_of_append done l :
  (∀ x, x ∈ done → x < length d) →
  l < length d → l ≠ l1 → l ∉ done → children_of d l = [] →
  ∃ d2,
    append (block_of d tag l1 done ++ [Node "br" None "" "" []]) l1
           (length (block_of d tag l1 done)) = Ok d2 ∧
    append d2 l1 l = Ok (block_of d tag l1 (done ++ [l])).
Proof.
  intros Hdone Hl Hne Hnot Hleaf.
  set (D := block_of d tag l1 done).
  assert (length D = length d + length done) as HlenD by apply block_of_length.
  set (D1 := D ++ [Node "br" None "" "" []]).
  assert (∀ q, children_of D1 q = children_of D q) as Hch1.
  { intros q. unfold children_of, D1.
    destruct (decide (q < length D)) as [Hq|Hq].
    - by rewrite lookup_app_l.
    - rewrite (proj2 (lookup_ge_None D q)) by lia.
      destruct (decide (q = length D)) as [->|].
      + by rewrite lookup_app_r, Nat.sub_diag.
      + rewrite (proj2 (lookup_ge_None _ q)); [done|].
        rewrite length_app. simpl. lia. }
  destruct (lookup_lt_is_Some_2 d l1 Hl1) as [n1 Hn1].
  destruct (lookup_lt_is_Some_2 d l Hl) as [n Hn].
  (* the break *)
  assert (append D1 l1 (length D) =
          Ok (alter (λ m, set_children (n_children m ++ [length D]) m) l1 D1))
    as Hbr.
  { unfold append, get.
    assert (is_Some (D1 !! l1)) as [m1 ->].
    { apply lookup_lt_is_Some. unfold D1. rewrite length_app. lia. }
    assert (is_Some (D1 !! length D)) as [m2 ->].
    { apply lookup_lt_is_Some. unfold D1. rewrite length_app. simpl. lia. }
    cbn [of_option mbind res_bind].
    unfold ancestor_or_self.
    rewrite leaf_not_ancestor; [|rewrite Hch1|lia].
    2: { unfold children_of. by rewrite (proj2 (lookup_ge_None D (length D))). }
    rewrite detach_absent; [done|].
    intros q Hq. rewrite Hch1 in Hq.
    pose proof (block_of_closed done q _ Hdone Hq). lia. }
  set (D2 := alter (λ m, set_children (n_children m ++ [length D]) m) l1 D1) in *.
  exists D2. split; [exact Hbr|].
  assert (∀ q, children_of D2 q =
               if decide (q = l1) then children_of D q ++ [length D]
               else children_of D q) as Hch2.
  { intros q. unfold D2. rewrite children_of_alter.
    destruct (decide (l1 = q)) as [<-|Hq].
    - rewrite decide_True by done. rewrite <- Hch1. unfold children_of.
      assert (is_Some (D1 !! l1)) as [m1 ->]; [|done].
      apply lookup_lt_is_Some. unfold D1. rewrite length_app. lia.
    - rewrite decide_False by done. apply Hch1. }
  unfold append, get.
  assert (is_Some (D2 !! l1)) as [m1 ->].
  { apply lookup_lt_is_Some. unfold D2, D1. rewrite length_alter, length_app. lia. }
  assert (is_Some (D2 !! l)) as [m2 ->].
  { apply lookup_lt_is_Some. unfold D2, D1. rewrite length_alter, length_app. lia. }
  cbn [of_option mbind res_bind].
  unfold ancestor_or_self.
  rewrite leaf_not_ancestor; [|rewrite Hch2, decide_False by done|done].
  2: { unfold D. rewrite block_of_children, decide_False by done.
       by rewrite Hleaf. }
  f_equal. apply list_eq. intros q.
  unfold D2, D1, D.
  destruct (decide (q < length d)) as [Hq|Hq].
  - rewrite (block_of_old (done ++ [l])) by done.
    destruct (decide (l1 = q)) as [<-|Hq1].
    + rewrite list_lookup_alter_eq, lookup_detach, list_lookup_alter_eq.
      rewrite lookup_app_l by (fold D; lia).
      rewrite block_of_old by done. rewrite Hn1.
      cbn [fmap option_fmap option_map]. rewrite !decide_True by done.
      cbn [set_children n_children n_tag n_class n_text n_tail].
      f_equal. f_equal.
      rewrite breaks_and_lines_snoc, without_app.
      rewrite (without_notin l (breaks_and_lines _ _)).
      2: { intros Hin. apply breaks_and_lines_elem in Hin as [?|?]; [lia|done]. }
      cbn [without List.filter]. fold D. rewrite HlenD.
      destruct (Nat.eqb_spec (length d + length done) l) as [?|_]; [lia|].
      by rewrite <- app_assoc.
    + rewrite list_lookup_alter_ne, lookup_detach, list_lookup_alter_ne by done.
      rewrite lookup_app_l by (fold D; lia).
      rewrite block_of_old by done.
      destruct (d !! q) as [m|]; [|done].
      cbn [fmap option_fmap option_map]. rewrite !decide_False by done.
      cbn [set_children n_children n_tag n_class n_text n_tail].
      by rewrite filter_not_mem_snoc.
  - rewrite (block_of_new (done ++ [l])) by lia.
    rewrite list_lookup_alter_ne, lookup_detach, list_lookup_alter_ne by lia.
    rewrite length_app. cbn [length].
    destruct (decide (q < length d + length done)) as [Hq'|Hq'].
    + rewrite decide_True by lia.
      rewrite lookup_app_l by (fold D; lia).
      rewrite block_of_new, decide_True by lia. done.
    + destruct (decide (q = length d + length done)) as [->|Hq''].
      * rewrite decide_True by lia.
        rewrite lookup_app_r by (fold D; lia).
        fold D. rewrite HlenD, Nat.sub_diag. done.
      * rewrite decide_False by lia.
        rewrite (proj2 (lookup_ge_None _ q)); [done|].
        rewrite length_app. fold D. simpl. lia.
Qed.

End Block.

(** What the loop works out about a line of running text. *)
Lemma plain_line_analysis dims h_levels look d D l height st :
  plain_line dims h_levels look d l height →
  D !! l = d !! l →
  ∃ txt,
    Py.truthy (Py.strip txt) = true ∧
    analyse dims h_levels st D l =
    Ok (Analysis look (negb (bool_decide (p_look st = Some look))) height
          (MAX_LINE_HEIGHT <? p_height st - height)%Z false
          (chained (negb (bool_decide (p_look st = Some look))) (p_space st)
                   (MAX_LINE_HEIGHT <? p_height st - height)%Z)
          txt
          (if bool_decide (p_tag st = Some "li") && negb (Py.contains "x0" look)
           then true
           else chained (negb (bool_decide (p_look st = Some look))) (p_space st)
                        (MAX_LINE_HEIGHT <? p_height st - height)%Z)
          (if bool_decide (p_tag st = Some "li") && negb (Py.contains "x0" look)
           then "li" else "p")).
Proof.
  intros (n & cls & kf & Hn & Hleaf & Hcls & Hlook & Htxt & Hbul & Hfs & Hh & Hdim) HD.
  exists (n_text n). split; [done|].
  assert (n_class <$> D !! l = n_class <$> d !! l) as Hc by by rewrite HD.
  rewrite (analyse_eq dims h_levels st D l n cls height kf).
  - cbv zeta. rewrite Hlook.
    rewrite (text_content_leaf D l n) by by rewrite ?HD.
    rewrite Htxt. unfold heading_rule. rewrite Hh.
    unfold li_rule. rewrite Hbul.
    rewrite andb_comm.
    by destruct (bool_decide (p_tag st = Some "li") &&
                 negb (Py.contains "x0" look)).
  - by rewrite HD.
  - done.
  - by rewrite (get_dimension_class dims "h" d D l Hc).
  - by rewrite (classn_class "fs" d D l Hc).
Qed.

Lemma plain_line_leaf dims h_levels look d l height :
  plain_line dims h_levels look d l height →
  l < length d ∧ children_of d l = [].
Proof.
  intros (n & cls & kf & Hn & Hleaf & _). split.
  - by eapply lookup_lt_Some.
  - unfold children_of. by rewrite Hn.
Qed.

Lemma last_cons {A : Type} (a : A) l b :
  List.last (a :: l) b = List.last l a.
Proof.
  revert a b. induction l as [|x l IH]; intros a b; [done|].
  change (List.last (a :: x :: l) b) with (List.last (x :: l) b).
  by rewrite !IH.
Qed.

Lemma block_loop dims h_levels look d l1 (hgt : nat → Z) :
  closed d = true → l1 < length d → children_of d l1 = [] →
  ∀ todo done prev,
    (∀ x, x ∈ done → x < length d) →
    NoDup (l1 :: done ++ todo) →
    (∀ l, In l todo → plain_line dims h_levels look d l (hgt l)) →
    (∀ i a b, (prev :: todo) !! i = Some a → todo !! i = Some b →
              (hgt a - hgt b ≤ 18)%Z) →
    for_each (line_step dims h_levels) todo
      (LoopState (Some look) (hgt prev) false (Some "p") (Some l1),
       block_of d "p" l1 done) =
    Ok (LoopState (Some look) (hgt (List.last todo prev)) false (Some "p")
                  (Some l1),
        block_of d "p" l1 (done ++ todo)).
Proof.
  intros Hclosed Hl1 Hleaf1.
  induction todo as [|l todo IH]; intros done prev Hdone Hnd Hplain Hclose.
  - cbn [for_each List.last]. by rewrite app_nil_r.
  - cbn [for_each].
    destruct (plain_line_leaf _ _ _ _ _ _ (Hplain l (or_introl eq_refl)))
      as [Hl Hleaf].
    apply NoDup_cons in Hnd as [Hn1 Hnd].
    assert (l ≠ l1) as Hne.
    { intros ->. apply Hn1. apply elem_of_app. right. by left. }
    assert (l ∉ done) as Hnot.
    { apply NoDup_app in Hnd as (_ & Hdisj & _).
      intros Hin. apply (Hdisj l Hin). by left. }
    destruct (plain_line_analysis dims h_levels look d (block_of d "p" l1 done) l
                (hgt l) (LoopState (Some look) (hgt prev) false (Some "p") (Some l1))
                (Hplain l (or_introl eq_refl)))
      as (txt & Htxt & Ha).
    { by apply block_of_same. }
    rewrite (line_step_eq _ _ _ _ _ _ Ha).
    cbn [p_look p_space p_height p_tag].
    rewrite bool_decide_eq_true_2 by done.
    rewrite (bool_decide_eq_false_2 (Some "p" = Some "li")) by done.
    cbn [negb andb].
    assert ((MAX_LINE_HEIGHT <? hgt prev - hgt l)%Z = false) as ->.
    { apply Z.ltb_ge. unfold MAX_LINE_HEIGHT. by apply (Hclose 0). }
    cbn [chained Bool.eqb negb andb].
    unfold merge_line. cbn [a_txt a_append a_tag a_look a_height a_space box].
    rewrite Htxt. cbn [of_option mbind res_bind BR Element].
    destruct (block_of_append d "p" l1 Hclosed Hl1 done l Hdone Hl Hne Hnot Hleaf)
      as (d2 & Hbr & Hline).
    rewrite Hbr. cbn [mbind res_bind]. rewrite Hline.
    cbn [mbind res_bind fst snd].
    rewrite (IH (done ++ [l]) l).
    + rewrite <- app_assoc. cbn [app]. by rewrite (last_cons l todo prev).
    + intros x Hx. apply elem_of_app in Hx as [Hx|Hx]; [by apply Hdone|].
      by apply list_elem_of_singleton in Hx as ->.
    + apply NoDup_cons. split; [|by rewrite <- app_assoc].
      by rewrite <- app_assoc.
    + intros l' Hl'. apply Hplain. by right.
    + intros i a b Hia Hib. by apply (Hclose (S i)).
Qed.

(** The first line opens the block. *)
Lemma block_first dims h_levels look d l1 height :
  plain_line dims h_levels look d l1 height →
  line_step dims h_levels (initial_state, d) l1 =
  Ok (LoopState (Some look) height false (Some "p") (Some l1),
      block_of d "p" l1 []).
Proof.
  intros Hplain.
  destruct (plain_line_leaf _ _ _ _ _ _ Hplain) as [Hl1 Hleaf1].
  destruct (plain_line_analysis dims h_levels look d d l1 height initial_state
              Hplain eq_refl) as (txt & Htxt & Ha).
  rewrite (line_step_eq _ _ _ _ _ _ Ha).
  cbn [initial_state p_look p_space p_height p_tag].
  rewrite !bool_decide_eq_false_2 by done.
  cbn [negb andb chained Bool.eqb].
  unfold merge_line. cbn [a_txt a_append a_tag a_look a_height a_space box].
  rewrite Htxt. unfold modify, get.
  destruct (lookup_lt_is_Some_2 d l1 Hl1) as [n1 ->].
  cbn [of_option mbind res_bind fst snd].
  by rewrite <- (block_of_nil d "p" l1 Hleaf1).
Qed.



(** ** Bulleted lines make a list *)

Lemma retagged_lookup t ls d q :
  retagged t ls d !! q = (λ n, if mem q ls then set_tag t n else n) <$> d !! q.
Proof. unfold retagged. apply list_lookup_imap. Qed.

Lemma retagged_length t ls d : length (retagged t ls d) = length d.
Proof. unfold retagged. apply length_imap. Qed.

Lemma retagged_children t ls d q :
  children_of (retagged t ls d) q = children_of d q.
Proof.
  unfold children_of. rewrite retagged_lookup.
  destruct (d !! q) as [n|]; [|done]. simpl. by destruct (mem q ls).
Qed.

Lemma retagged_class t ls d q :
  n_class <$> retagged t ls d !! q = n_class <$> d !! q.
Proof.
  rewrite retagged_lookup. destruct (d !! q) as [n|]; [|done].
  simpl. by destruct (mem q ls).
Qed.

Lemma retagged_nil t d : retagged t [] d = d.
Proof.
  apply list_eq. intros q. rewrite retagged_lookup.
  by destruct (d !! q).
Qed.

Lemma retagged_snoc t ls l d :
  alter (set_tag t) l (retagged t ls d) = retagged t (ls ++ [l]) d.
Proof.
  apply list_eq. intros q. rewrite retagged_lookup.
  unfold mem. rewrite existsb_app. cbn [existsb]. rewrite orb_false_r.
  destruct (decide (l = q)) as [<-|Hne].
  - rewrite list_lookup_alter_eq, retagged_lookup, Nat.eqb_refl, orb_true_r.
    destruct (d !! l) as [n|]; [|done]. simpl.
    by destruct (mem l ls).
  - rewrite list_lookup_alter_ne, retagged_lookup by done.
    destruct (Nat.eqb_spec q l) as [->|_]; [done|].
    by rewrite orb_false_r.
Qed.

(** What the text functions read is the same in two trees that agree on
    texts, tails and children. *)
Lemma text_content_go_ext d d' :
  (∀ q, n_text <$> d' !! q = n_text <$> d !! q) →
  (∀ q, n_tail <$> d' !! q = n_tail <$> d !! q) →
  (∀ q, n_children <$> d' !! q = n_children <$> d !! q) →
  ∀ k e, text_content_go k d' e = text_content_go k d e.
Proof.
  intros Ht Hl Hc. induction k as [|k IH]; intros e; [done|].
  cbn [text_content_go].
  specialize (Ht e) as Hte. specialize (Hc e) as Hce.
  destruct (d' !! e) as [n'|], (d !! e) as [n|]; try done.
  simpl in Hte, Hce. injection Hte as ->. injection Hce as ->.
  f_equal. f_equal. apply map_ext. intros c. rewrite IH. f_equal.
  specialize (Hl c). by destruct (d' !! c), (d !! c); simplify_eq/=.
Qed.

Lemma text_content_retagged t ls d e :
  text_content (retagged t ls d) e = text_content d e.
Proof.
  unfold text_content. rewrite retagged_length.
  apply text_content_go_ext; intros q; rewrite retagged_lookup;
    destruct (d !! q) as [n|]; try done; simpl; by destruct (mem q ls).
Qed.

Lemma iter_go_ext d d' :
  (∀ q, children_of d' q = children_of d q) →
  ∀ k e, iter_go k d' e = iter_go k d e.
Proof.
  intros Hc. induction k as [|k IH]; intros e; [done|].
  cbn [iter_go]. rewrite Hc. f_equal.
  induction (children_of d e) as [|c cs IHc]; [done|].
  cbn [flat_map]. by rewrite IH, IHc.
Qed.

Lemma bullet_line_analysis dims h_levels d D l st :
  bullet_line dims h_levels d l →
  n_class <$> D !! l = n_class <$> d !! l →
  is_Some (D !! l) →
  text_content D l = text_content d l →
  ∃ a, analyse dims h_levels st D l = Ok a ∧
       a_append a = false ∧ a_tag a = "li" ∧
       Py.truthy (Py.strip (a_txt a)) = true.
Proof.
  intros (n & cls & kf & height & Hn & Hcls & Hbul & Hfs & Hh & Hdim) Hc [n' Hn'] Htxt.
  assert (n_class n' = Some cls) as Hcls'.
  { rewrite Hn, Hn' in Hc. simpl in Hc. injection Hc as ->. done. }
  eexists. split.
  - rewrite (analyse_eq dims h_levels st D l n' cls height kf); try done.
    + by rewrite (get_dimension_class dims "h" d D l Hc).
    + by rewrite (classn_class "fs" d D l Hc).
  - cbv zeta. cbn [a_append a_tag a_txt]. rewrite Htxt.
    unfold heading_rule. rewrite Hh. unfold li_rule. rewrite Hbul.
    split; [done|]. split; [done|]. by apply bulleted_truthy.
Qed.

Lemma bullet_loop dims h_levels d : ∀ todo done st,
  (∀ l, In l todo → bullet_line dims h_levels d l) →
  ∃ st',
    for_each (line_step dims h_levels) todo (st, retagged "li" done d) =
    Ok (st', retagged "li" (done ++ todo) d).
Proof.
  induction todo as [|l todo IH]; intros done st Hb.
  - exists st. cbn [for_each]. by rewrite app_nil_r.
  - cbn [for_each].
    pose proof (Hb l (or_introl eq_refl)) as Hl.
    assert (is_Some (d !! l)) as [n Hn].
    { destruct Hl as (n & ? & ? & ? & Hn & _). eauto. }
    destruct (bullet_line_analysis dims h_levels d (retagged "li" done d) l st Hl)
      as (a & Ha & Happ & Htag & Htxt).
    + apply retagged_class.
    + rewrite retagged_lookup, Hn. eauto.
    + apply text_content_retagged.
    + rewrite (line_step_eq _ _ _ _ _ _ Ha). unfold merge_line.
      rewrite Htxt, Happ, Htag. unfold modify, get.
      rewrite retagged_lookup, Hn. cbn [fmap option_fmap option_map].
      cbn [of_option mbind res_bind fst snd].
      rewrite retagged_snoc.
      destruct (IH (done ++ [l])
                  (LoopState (Some (a_look a)) (a_height a) (a_space a)
                             (Some "li") (Some l))) as [st' Hst'].
      { intros l' Hl'. apply Hb. by right. }
      exists st'. rewrite Hst'. by rewrite <- app_assoc.
Qed.



(** ** Removing the selected elements *)

Lemma strip_lines_lookup ls d q :
  strip_lines ls d !! q =
  (λ n, set_children (List.filter (λ c, negb (mem c ls)) (n_children n)) n)
    <$> d !! q.
Proof. unfold strip_lines. apply list_lookup_fmap. Qed.

Lemma strip_lines_children ls d q :
  children_of (strip_lines ls d) q =
  List.filter (λ c, negb (mem c ls)) (children_of d q).
Proof.
  unfold children_of. rewrite strip_lines_lookup. by destruct (d !! q).
Qed.

Lemma strip_lines_nil d : strip_lines [] d = d.
Proof.
  apply list_eq. intros q. rewrite strip_lines_lookup.
  destruct (d !! q) as [n|]; [|done]. simpl.
  by rewrite filter_not_mem_nil, set_children_same.
Qed.

Lemma strip_lines_snoc ls e d :
  detach e (strip_lines ls d) = strip_lines (ls ++ [e]) d.
Proof.
  apply list_eq. intros q. rewrite lookup_detach, !strip_lines_lookup.
  destruct (d !! q) as [n|]; [|done]. simpl.
  by rewrite filter_not_mem_snoc.
Qed.

Lemma remove_ok d e : is_Some (getparent d e) → remove d e = Ok (detach e d).
Proof. intros [p Hp]. unfold remove, parent. by rewrite Hp. Qed.

Lemma remove_all d : ∀ todo done,
  NoDup (done ++ todo) →
  (∀ e, In e todo → ∃ q, e ∈ children_of d q) →
  for_each remove todo (strip_lines done d) = Ok (strip_lines (done ++ todo) d).
Proof.
  induction todo as [|e todo IH]; intros done Hnd Hp.
  - cbn [for_each]. by rewrite app_nil_r.
  - cbn [for_each].
    destruct (Hp e (or_introl eq_refl)) as [q Hq].
    assert (e ∉ done) as Hnot.
    { apply NoDup_app in Hnd as (_ & Hdisj & _).
      intros Hin. apply (Hdisj e Hin). by left. }
    pose proof (getparent_spec (strip_lines done d) e) as Hspec.
    destruct (getparent (strip_lines done d) e) as [p|] eqn:Hgp.
    2: { destruct (Hspec q). rewrite strip_lines_children.
         apply list_elem_of_In, filter_In. split; [by apply list_elem_of_In|].
         apply negb_true_iff. destruct (mem e done) eqn:Hm; [|done].
         by apply mem_true in Hm. }
    rewrite remove_ok by (rewrite Hgp; eauto).
    cbn [mbind res_bind]. rewrite strip_lines_snoc.
    rewrite (IH (done ++ [e])).
    + by rewrite <- app_assoc.
    + by rewrite <- app_assoc.
    + intros e' He'. apply Hp. by right.
Qed.

Lemma iter_go_parent d k top y :
  y ∈ iter_go k d top → y = top ∨ ∃ q, y ∈ children_of d q.
Proof.
  revert top. induction k as [|k IH]; intros top; cbn [iter_go].
  - by intros ?%elem_of_nil.
  - intros Hy. apply elem_of_cons in Hy as [->|Hy]; [by left|].
    apply list_elem_of_In, in_flat_map in Hy as (c & Hc & Hy).
    apply list_elem_of_In in Hc, Hy.
    destruct (IH c Hy) as [->|?]; right; eauto.
Qed.

Lemma iter_go_strip ls d k top y :
  y ∈ iter_go k (strip_lines ls d) top →
  y ∈ iter_go k d top ∧ (y = top ∨ y ∉ ls).
Proof.
  revert top. induction k as [|k IH]; intros top; cbn [iter_go].
  - by intros ?%elem_of_nil.
  - intros Hy. apply elem_of_cons in Hy as [->|Hy].
    + split; [by left | by left].
    + apply list_elem_of_In, in_flat_map in Hy as (c & Hc & Hy).
      rewrite strip_lines_children in Hc. apply filter_In in Hc as [Hc Hm].
      apply list_elem_of_In in Hy. destruct (IH c Hy) as [Hy' Hor]. split.
      * right. apply list_elem_of_In, in_flat_map. exists c.
        split; [done | by apply list_elem_of_In].
      * right. destruct Hor as [->|?]; [|done].
        intros Hin. apply mem_true in Hin. by rewrite Hin in Hm.
Qed.

Lemma iter_go_lt d k top y :
  closed d = true → top < length d → y ∈ iter_go k d top → y < length d.
Proof.
  intros Hc. revert top. induction k as [|k IH]; intros top Ht; cbn [iter_go].
  - by intros ?%elem_of_nil.
  - intros Hy. apply elem_of_cons in Hy as [->|Hy]; [done|].
    apply list_elem_of_In, in_flat_map in Hy as (c & Hcc & Hy).
    apply list_elem_of_In in Hcc, Hy.
    apply (IH c); [by eapply closed_lt | done].
Qed.

(** Removing the elements that a selector finds: they are unlinked, and
    the selector finds nothing afterwards. *)
Lemma remove_selected d (f : node → bool) :
  (∀ cs n, f (set_children cs n) = f n) →
  NoDup (iter d root) →
  root ∉ select d root f →
  for_each remove (select d root f) d = Ok (strip_lines (select d root f) d) ∧
  select (strip_lines (select d root f) d) root f = [].
Proof.
  intros Hf Hnd Hroot. split.
  - rewrite <- (strip_lines_nil d) at 2. rewrite (remove_all d); [done|..].
    + cbn [app]. unfold select. apply NoDup_ListNoDup, List.NoDup_filter.
      by apply NoDup_ListNoDup.
    + intros e He.
      assert (e ≠ root) as Hne.
      { intros ->. by apply Hroot, list_elem_of_In. }
      unfold select in He. apply filter_In in He as [He _].
      apply list_elem_of_In in He.
      by destruct (iter_go_parent _ _ _ _ He).
  - set (ls := select d root f).
    destruct (select (strip_lines ls d) root f) as [|y l] eqn:Hsel; [done|].
    exfalso.
    assert (In y (select (strip_lines ls d) root f)) as Hy
      by (rewrite Hsel; by left).
    unfold select in Hy. apply filter_In in Hy as [Hy Hfy].
    unfold iter in Hy. unfold strip_lines in Hy at 1. rewrite length_map in Hy.
    apply list_elem_of_In, iter_go_strip in Hy as [Hy Hor].
    rewrite strip_lines_lookup in Hfy.
    destruct (d !! y) as [n|] eqn:Hn; [|done]. simpl in Hfy. rewrite Hf in Hfy.
    assert (y ∈ ls) as Hin.
    { apply list_elem_of_In. unfold ls, select. apply filter_In.
      split; [by apply list_elem_of_In|]. by rewrite Hn. }
    destruct Hor as [->|Hnot]; [by apply Hroot | done].
Qed.

(** X19.  In a tree whose root is not of class [j], the script holders
    are all removed: every element of class [j] is unlinked from its
    parent, with what is below it, and no element of class [j] can be
    reached from the root afterwards.  A root of class [j] has no parent
    to remove it from: [AttributeError]. *)
Theorem remove_holders_spec d
  (Hnd : NoDup (iter d root))
  (Hparent : getparent d root = None) :
  if bool_decide (root ∈ cssselect_class d root "j")
  then remove_holders d = Raise AttributeError
  else remove_holders d = Ok (strip_lines (cssselect_class d root "j") d) ∧
       cssselect_class (strip_lines (cssselect_class d root "j") d) root "j" = [].
Proof.
  unfold remove_holders, cssselect_class.
  destruct (decide (root ∈ select d root (has_class "j"))) as [Hin|Hnot].
  - rewrite bool_decide_eq_true_2 by done.
    (* the root comes first in the iteration *)
    unfold select, iter in *.
    destruct (length d) as [|k]; [by apply elem_of_nil in Hin|].
    cbn [iter_go List.filter] in Hin |- *.
    destruct (match d !! root with Some n => has_class "j" n | None => false end)
      eqn:Hr.
    + cbn [for_each]. unfold remove, parent. by rewrite Hparent.
    + exfalso. cbn [iter_go] in Hnd. apply NoDup_cons in Hnd as [Hnd _].
      apply Hnd. apply list_elem_of_In, filter_In in Hin as [Hin _].
      by apply list_elem_of_In.
  - rewrite bool_decide_eq_false_2 by done.
    apply remove_selected; try done.
Qed.

Lemma remove_holders_spec_witness :
  remove_holders doc_styled =
  Ok [ Node "html" None "" "" [1; 2];
       Node "style" None ".t{}" "" [];
       Node "div" (Some "pc pc1 w0 h0") "" "" [4; 5];
       Node "div" (Some "j") "" "" [];
       Node "p" (Some "t m0 x0 h2 y9 ff1 fs0 fc0") "one" "" [];
       Node "p" (Some "t m0 x0 h2 y8 ff1 fs0 fc0") "two" "" [] ].
Proof.
  pose proof (remove_holders_spec doc_styled) as H.
  rewrite bool_decide_eq_false_2 in H.
  - apply H; [|reflexivity].
    refine (@bool_decide_unpack (NoDup _) _ _). vm_compute. exact I.
  - intros Hin. vm_compute in Hin. inversion Hin as [|? ? ? Hin']. inversion Hin'.
Defined.

(** ** Stripping the style *)

Lemma declassed_lookup ls d q :
  declassed ls d !! q =
  (λ n, if mem q ls then set_class None n else n) <$> d !! q.
Proof. unfold declassed. apply list_lookup_imap. Qed.

Lemma declassed_length ls d : length (declassed ls d) = length d.
Proof. unfold declassed. apply length_imap. Qed.

Lemma declassed_children ls d q :
  children_of (declassed ls d) q = children_of d q.
Proof.
  unfold children_of. rewrite declassed_lookup.
  destruct (d !! q) as [n|]; [|done]. simpl. by destruct (mem q ls).
Qed.

Lemma declassed_nil d : declassed [] d = d.
Proof.
  apply list_eq. intros q. rewrite declassed_lookup. by destruct (d !! q).
Qed.

Lemma declassed_snoc ls e d :
  alter (set_class None) e (declassed ls d) = declassed (ls ++ [e]) d.
Proof.
  apply list_eq. intros q. rewrite declassed_lookup.
  unfold mem. rewrite existsb_app. cbn [existsb]. rewrite orb_false_r.
  destruct (decide (e = q)) as [<-|Hne].
  - rewrite list_lookup_alter_eq, declassed_lookup, Nat.eqb_refl, orb_true_r.
    destruct (d !! e) as [n|]; [|done]. simpl. by destruct (mem e ls).
  - rewrite list_lookup_alter_ne, declassed_lookup by done.
    destruct (Nat.eqb_spec q e) as [->|_]; [done|].
    by rewrite orb_false_r.
Qed.

Lemma declassed_idem ls d : declassed ls (declassed ls d) = declassed ls d.
Proof.
  apply list_eq. intros q. rewrite !declassed_lookup.
  destruct (d !! q) as [n|]; [|done]. simpl. by destruct (mem q ls).
Qed.

Lemma iter_declassed ls d : iter (declassed ls d) root = iter d root.
Proof.
  unfold iter. rewrite declassed_length.
  apply iter_go_ext. apply declassed_children.
Qed.

Lemma del_other_loop attr d ls :
  String.eqb attr "class" = false →
  (∀ e, In e ls → e < length d) →
  for_each (del_attrib attr) ls d = Ok d.
Proof.
  intros Hattr. induction ls as [|e ls IH]; intros Hlt; [done|].
  cbn [for_each].
  assert (del_attrib attr d e = Ok d) as ->.
  { unfold del_attrib. rewrite Hattr. unfold get.
    by destruct (lookup_lt_is_Some_2 d e (Hlt e (or_introl eq_refl))) as [n ->]. }
  cbn [mbind res_bind]. apply IH. intros e' He'. apply Hlt. by right.
Qed.

Lemma del_class_loop d : ∀ todo done,
  (∀ e, In e todo → e < length d) →
  for_each (del_attrib "class") todo (declassed done d) =
  Ok (declassed (done ++ todo) d).
Proof.
  induction todo as [|e todo IH]; intros done Hlt.
  - cbn [for_each]. by rewrite app_nil_r.
  - cbn [for_each].
    assert (del_attrib "class" (declassed done d) e =
            Ok (alter (set_class None) e (declassed done d))) as ->.
    { unfold del_attrib. cbn [String.eqb Ascii.eqb Bool.eqb].
      unfold modify, get. rewrite declassed_lookup.
      by destruct (lookup_lt_is_Some_2 d e (Hlt e (or_introl eq_refl))) as [n ->]. }
    cbn [mbind res_bind].
    rewrite declassed_snoc, (IH (done ++ [e])).
    + by rewrite <- app_assoc.
    + intros e' He'. apply Hlt. by right.
Qed.

Lemma del_class_all d ls :
  (∀ e, In e ls → e < length d) →
  for_each (del_attrib "class") ls d = Ok (declassed ls d).
Proof.
  intros Hlt. pose proof (del_class_loop d ls [] Hlt) as H.
  by rewrite declassed_nil in H.
Qed.

Lemma strip_lines_length ls d : length (strip_lines ls d) = length d.
Proof. unfold strip_lines. apply length_map. Qed.

Lemma strip_lines_closed ls d : closed d = true → closed (strip_lines ls d) = true.
Proof.
  unfold closed. intros Hc. rewrite strip_lines_length.
  rewrite forallb_forall in Hc |- *. intros n' Hn'.
  unfold strip_lines in Hn'. apply in_map_iff in Hn' as (n & <- & Hn).
  specialize (Hc n Hn). rewrite forallb_forall in Hc |- *.
  intros c Hcc. apply Hc. simpl in Hcc. by apply filter_In in Hcc as [? _].
Qed.

Lemma declassed_closed ls d : closed d = true → closed (declassed ls d) = true.
Proof.
  unfold closed. intros Hc. rewrite declassed_length.
  rewrite forallb_forall in Hc |- *. intros n' Hn'.
  apply list_elem_of_In, list_elem_of_lookup in Hn' as [q Hq].
  rewrite declassed_lookup in Hq.
  destruct (d !! q) as [n|] eqn:Hn; [|done]. simpl in Hq.
  assert (n_children n' = n_children n) as ->
    by (injection Hq as <-; by destruct (mem q ls)).
  apply Hc, list_elem_of_In. by eapply list_elem_of_lookup_2.
Qed.

(** The attribute loops on a tree without [style] elements. *)
Lemma strip_attributes d :
  closed d = true → 0 < length d →
  for_each (λ d attr, for_each (del_attrib attr) (iter d root) d)
           ["style"; "id"; "class"; "data-page-no"; "data-data"] d =
  Ok (declassed (iter d root) d).
Proof.
  intros Hclosed Hne.
  assert (∀ e, In e (iter d root) → e < length d) as Hlt.
  { intros e He. by apply (iter_go_lt d (length d) root), list_elem_of_In. }
  cbn [for_each].
  rewrite (del_other_loop "style") by done. cbn [mbind res_bind].
  rewrite (del_other_loop "id") by done. cbn [mbind res_bind].
  rewrite del_class_all by done. cbn [mbind res_bind].
  rewrite iter_declassed.
  assert (∀ e, In e (iter d root) → e < length (declassed (iter d root) d))
    as Hlt' by (intros e He; rewrite declassed_length; by apply Hlt).
  rewrite (del_other_loop "data-page-no") by done. cbn [mbind res_bind].
  rewrite iter_declassed.
  by rewrite (del_other_loop "data-data") by done.
Qed.

(** X20.  Stripping the style from a tree whose root is no [style]
    element: the [style] elements are unlinked, every element that can be
    reached from the root has no class attribute left, tags and texts stay,
    and stripping the result again changes nothing. *)
Theorem strip_css_spec d
  (Hclosed : closed d = true)
  (Hne : 0 < length d)
  (Hnd : NoDup (iter d root))
  (Hroot : root ∉ cssselect_tag d root "style") :
  ∃ d',
    strip_css d = Ok d' ∧
    cssselect_tag d' root "style" = [] ∧
    (∀ e n, In e (iter d' root) → d' !! e = Some n → n_class n = None) ∧
    (∀ q, n_tag <$> d' !! q = n_tag <$> d !! q ∧
          n_text <$> d' !! q = n_text <$> d !! q) ∧
    strip_css d' = Ok d'.
Proof.
  set (styles := cssselect_tag d root "style").
  set (D := strip_lines styles d).
  destruct (remove_selected d (λ n, String.eqb (n_tag n) "style"))
    as [Hrm Hnone]; try done.
  fold (cssselect_tag d root "style") in Hrm, Hnone. fold styles in Hrm, Hnone.
  fold D in Hrm, Hnone.
  assert (closed D = true) as HcD by by apply strip_lines_closed.
  assert (length D = length d) as HlD by apply strip_lines_length.
  assert (strip_css d = Ok (declassed (iter D root) D)) as Hstrip.
  { unfold strip_css. fold styles. rewrite Hrm. cbn [mbind res_bind].
    apply strip_attributes; [done | lia]. }
  set (D' := declassed (iter D root) D) in *.
  assert (iter D' root = iter D root) as HiD by apply iter_declassed.
  assert (cssselect_tag D' root "style" = []) as Hno.
  { unfold cssselect_tag, select. rewrite HiD.
    unfold select in Hnone. rewrite <- Hnone.
    apply List.filter_ext. intros e. unfold D'. rewrite declassed_lookup.
    destruct (D !! e) as [n|]; [|done]. simpl. by destruct (mem e _). }
  exists D'. split; [done|]. split; [done|]. split; [|split].
  - intros e n He Hn. rewrite HiD in He. unfold D' in Hn.
    rewrite declassed_lookup in Hn.
    destruct (D !! e) as [m|]; [|done]. simpl in Hn.
    assert (mem e (iter D root) = true) as Hm
      by by apply mem_true, list_elem_of_In.
    rewrite Hm in Hn. by injection Hn as <-.
  - intros q. unfold D', D. rewrite declassed_lookup, strip_lines_lookup.
    destruct (d !! q) as [n|]; [|done]. simpl.
    by destruct (mem q _).
  - unfold strip_css. rewrite Hno.
    change (for_each remove [] D') with (Ok D'). cbn [mbind res_bind].
    rewrite strip_attributes.
    + rewrite HiD. unfold D'. by rewrite declassed_idem.
    + by apply declassed_closed.
    + unfold D'. rewrite declassed_length. lia.
Qed.

Lemma strip_css_spec_witness :
  strip_css doc_styled =
    Ok [ Node "html" None "" "" [2];
         Node "style" None ".t{}" "" [];
         Node "div" None "" "" [3; 4; 5];
         Node "div" None "" "" [];
         Node "p" None "one" "" [];
         Node "p" None "two" "" [] ] ∧
  ∃ d', strip_css doc_styled = Ok d' ∧ strip_css d' = Ok d'.
Proof.
  split; [reflexivity|].
  destruct (strip_css_spec doc_styled) as (d' & H1 & _ & _ & _ & H2).
  - reflexivity.
  - simpl. lia.
  - refine (@bool_decide_unpack (NoDup _) _ _). vm_compute. exact I.
  - intros Hin. vm_compute in Hin. inversion Hin as [|? ? ? Hin']. inversion Hin'.
  - eauto.
Defined.

(** ** Dropping empty containers *)

Lemma drop_empty_go_none d : (∀ e, droppable d e = false) →
  ∀ k cur, drop_empty_go k d cur = Ok d.
Proof.
  intros Hno. induction k as [|k IH]; intros cur; [by destruct cur|].
  destruct cur as [e|]; [|done].
  rewrite drop_empty_go_step, Hno. cbn [mbind res_bind]. apply IH.
Qed.

(** X21.  The pass that drops empty containers starts at the root.  A
    root that is itself droppable, an empty [div] or [span] or a tree whose
    whole text is one space, has no parent to be merged into: the pass
    raises [AssertionError].  A tree in which nothing is droppable is
    returned as it is. *)
Theorem drop_empty_edges d :
  (0 < length d → getparent d root = None → droppable d root = true →
   drop_empty d = Raise AssertionError) ∧
  ((∀ e, droppable d e = false) → drop_empty d = Ok d).
Proof.
  split.
  - intros Hlen Hp Hd. unfold drop_empty.
    destruct (length d) as [|k]; [lia|].
    rewrite drop_empty_go_step, Hd. unfold drop_tag. by rewrite Hp.
  - intros Hno. by apply drop_empty_go_none.
Qed.

Lemma drop_empty_edges_witness :
  drop_empty [Node "div" None "" "" []] = Raise AssertionError ∧
  drop_empty [Node "html" None " " "" []] = Raise AssertionError ∧
  drop_empty [Node "html" None "" "" []] = Ok [Node "html" None "" "" []].
Proof.
  split; [|split].
  - apply (proj1 (drop_empty_edges _)); [simpl; lia | reflexivity..].
  - apply (proj1 (drop_empty_edges _)); [simpl; lia | reflexivity..].
  - apply (proj2 (drop_empty_edges _)). intros e.
    destruct e as [|e]; [reflexivity|]. unfold droppable, text_content.
    cbn [length text_content_go lookup list_lookup].
    by destruct e.
Defined.

(** ** A page of running text, from end to end *)

Lemma select_none d top (f : node → bool) :
  (∀ q n, d !! q = Some n → f n = false) → select d top f = [].
Proof.
  intros Hf. unfold select.
  induction (iter d top) as [|e l IH]; [done|]. cbn [List.filter].
  destruct (d !! e) as [n|] eqn:Hn; [|done]. by rewrite (Hf e n Hn).
Qed.

Lemma plain_tags_inv d q n :
  plain_tags d = true → d !! q = Some n →
  n_tag n ≠ "tr" ∧ n_tag n ≠ "li" ∧ n_tag n ≠ "style" ∧ has_class "j" n = false.
Proof.
  unfold plain_tags. intros H Hn. rewrite forallb_forall in H.
  specialize (H n (proj1 (list_elem_of_In _ _) (list_elem_of_lookup_2 _ _ _ Hn))).
  rewrite !andb_true_iff, !negb_true_iff in H.
  destruct H as [[[H1 H2] H3] H4].
  by rewrite !String.eqb_neq in H1, H2, H3.
Qed.

Lemma closed_intro d :
  (∀ q c, c ∈ children_of d q → c < length d) → closed d = true.
Proof.
  intros H. unfold closed. apply forallb_forall. intros n Hn.
  apply list_elem_of_In, list_elem_of_lookup in Hn as [q Hq].
  apply forallb_forall. intros c Hc. apply Nat.ltb_lt, (H q).
  unfold children_of. rewrite Hq. by apply list_elem_of_In.
Qed.

Lemma block_of_tag d tag l1 rest q n :
  l1 < length d →
  block_of d tag l1 rest !! q = Some n →
  n_tag n = tag ∨ n_tag n = "br" ∨ ∃ m, d !! q = Some m ∧ n_tag m = n_tag n.
Proof.
  intros Hl1 Hq. destruct (decide (q < length d)) as [Hlt|Hge].
  - rewrite block_of_old in Hq by done.
    destruct (d !! q) as [m|] eqn:Hm; [|done]. simpl in Hq.
    destruct (decide (q = l1)); injection Hq as <-; [by left|].
    right. right. eauto.
  - rewrite block_of_new in Hq by lia.
    destruct (decide (q < length d + length rest)); [|done].
    injection Hq as <-. right. by left.
Qed.

Lemma grid_data_elems d gd data :
  grid_data d gd = Ok data → map elem data = cssselect_class d root "t".
Proof.
  intros H.
  apply (map_res_elem _ _ _ _ (λ l c H, proj1 (grid_line_inv gd d l c H)) H).
Qed.



(** ** Dropping a tag in a tree *)

Lemma truthy_false s : Py.truthy s = false → s = "".
Proof.
  unfold Py.truthy. intros H. apply negb_false_iff in H.
  by apply String.eqb_eq in H.
Qed.

(** A change that keeps a field of every node. *)
Lemma view_keep {A : Type} (g : node → A) (h : node → node) p (d : list node) x :
  (∀ m, g (h m) = g m) → g <$> alter h p d !! x = g <$> d !! x.
Proof.
  intros Hg. destruct (decide (p = x)) as [->|Hne].
  - rewrite list_lookup_alter_eq. destruct (d !! x); [|done]. simpl. by rewrite Hg.
  - by rewrite list_lookup_alter_ne.
Qed.

Lemma alter_text_empty p (d : list node) :
  alter (λ m, set_text (n_text m +:+ "") m) p d = d.
Proof. apply list_alter_id. intros [t c x tl ch]. unfold set_text. simpl. by rewrite append_empty_r. Qed.

Lemma alter_tail_empty p (d : list node) :
  alter (λ m, set_tail (n_tail m +:+ "") m) p d = d.
Proof. apply list_alter_id. intros [t c x tl ch]. unfold set_tail. simpl. by rewrite append_empty_r. Qed.

Lemma view_text_app t p (d : list node) x :
  n_text <$> alter (λ m, set_text (n_text m +:+ t) m) p d !! x =
  (λ s, if decide (p = x) then s +:+ t else s) <$> (n_text <$> d !! x).
Proof.
  destruct (decide (p = x)) as [->|Hne].
  - rewrite list_lookup_alter_eq. by destruct (d !! x).
  - rewrite list_lookup_alter_ne by done. by destruct (d !! x).
Qed.

Lemma view_tail_app t p (d : list node) x :
  n_tail <$> alter (λ m, set_tail (n_tail m +:+ t) m) p d !! x =
  (λ s, if decide (p = x) then s +:+ t else s) <$> (n_tail <$> d !! x).
Proof.
  destruct (decide (p = x)) as [->|Hne].
  - rewrite list_lookup_alter_eq. by destruct (d !! x).
  - rewrite list_lookup_alter_ne by done. by destruct (d !! x).
Qed.

Lemma last_fmap_Some {A : Type} (l : list A) :
  List.last (Some <$> l) None = last l.
Proof.
  induction l as [|a l IH]; [done|].
  destruct l as [|b l]; [done|].
  change (List.last (Some <$> a :: b :: l) None) with (List.last (Some <$> b :: l) None).
  rewrite IH. done.
Qed.

(** The texts after [drop_tag] has merged those of the element [n] into
    what comes before its place: the tail of the element before it, or
    the text of its parent [p] when it is the first child. *)
Lemma merged_views (d : list node) (p : nat) (previous : option nat) (n : node) :
  let merge_before (t : string) (d : list node) :=
    match previous with
    | None => alter (λ m, set_text (n_text m +:+ t) m) p d
    | Some q => alter (λ m, set_tail (n_tail m +:+ t) m) q d
    end in
  let d1 := if Py.truthy (n_text n) then merge_before (n_text n) d else d in
  let d2 :=
    if Py.truthy (n_tail n)
    then match List.last (Some <$> n_children n) None with
         | Some l => alter (λ m, set_tail (n_tail m +:+ n_tail n) m) l d1
         | None => merge_before (n_tail n) d1
         end
    else d1 in
  (∀ q, previous = Some q → last (n_children n) ≠ Some q) →
  length d2 = length d ∧
  (∀ x, n_tag <$> d2 !! x = n_tag <$> d !! x) ∧
  (∀ x, n_children <$> d2 !! x = n_children <$> d !! x) ∧
  (∀ x, n_text <$> d2 !! x =
        (λ s, if decide (previous = None ∧ p = x)
              then s +:+ merged_before n else s) <$> (n_text <$> d !! x)) ∧
  (∀ x, n_tail <$> d2 !! x =
        (λ s, if decide (previous = Some x) then s +:+ merged_before n
              else if decide (last (n_children n) = Some x)
                   then s +:+ n_tail n else s) <$> (n_tail <$> d !! x)).
Proof.
  intros merge_before d1 d2 Hdiff.
  assert (d1 = merge_before (n_text n) d) as Hd1.
  { unfold d1. destruct (Py.truthy (n_text n)) eqn:Ht; [done|].
    apply truthy_false in Ht. rewrite Ht. unfold merge_before.
    destruct previous; by rewrite ?alter_text_empty, ?alter_tail_empty. }
  assert (d2 = match last (n_children n) with
               | Some l => alter (λ m, set_tail (n_tail m +:+ n_tail n) m) l d1
               | None => merge_before (n_tail n) d1
               end) as Hd2.
  { unfold d2. rewrite last_fmap_Some.
    destruct (Py.truthy (n_tail n)) eqn:Ht; [done|].
    apply truthy_false in Ht. rewrite Ht. unfold merge_before.
    destruct (last (n_children n)); [by rewrite alter_tail_empty|].
    destruct previous; by rewrite ?alter_text_empty, ?alter_tail_empty. }
  clearbody d1 d2. subst d1 d2. unfold merge_before, merged_before.
  destruct (last (n_children n)) as [l|] eqn:Hl.
  - assert (n_children n ≠ []) as Hne by (intros H; by rewrite H in Hl).
    destruct (n_children n) as [|c0 cs] eqn:Hch; [done|].
    destruct previous as [q|].
    + assert (l ≠ q) as Hlq by (intros ->; by eapply Hdiff).
      split_and!.
      * by rewrite !length_alter.
      * intros x. by rewrite !(view_keep n_tag) by (by intros []).
      * intros x. by rewrite !(view_keep n_children) by (by intros []).
      * intros x. rewrite !(view_keep n_text) by (by intros []).
        destruct (d !! x) as [m|]; [|done]. cbn [fmap option_fmap option_map].
        by rewrite decide_False by (by intros [? _]).
      * intros x. rewrite !view_tail_app. destruct (d !! x) as [m|]; [|done].
        cbn [fmap option_fmap option_map]. f_equal. rewrite append_empty_r.
        destruct (decide (q = x)) as [->|Hqx].
        -- rewrite decide_False by done. by rewrite decide_True.
        -- rewrite (decide_False (P := Some q = Some x)) by congruence.
           destruct (decide (l = x)) as [->|Hlx].
           ++ by rewrite decide_True.
           ++ by rewrite decide_False by congruence.
    + split_and!.
      * by rewrite !length_alter.
      * intros x. by rewrite !(view_keep n_tag) by (by intros []).
      * intros x. by rewrite !(view_keep n_children) by (by intros []).
      * intros x. rewrite (view_keep n_text) by (by intros []).
        rewrite view_text_app. destruct (d !! x) as [m|]; [|done].
        cbn [fmap option_fmap option_map]. f_equal. rewrite append_empty_r.
        destruct (decide (p = x)) as [->|Hpx].
        -- by rewrite decide_True.
        -- by rewrite decide_False by (by intros [_ ?]).
      * intros x. rewrite view_tail_app.
        rewrite (view_keep n_tail) by (by intros []).
        destruct (d !! x) as [m|]; [|done].
        cbn [fmap option_fmap option_map]. f_equal.
        rewrite (decide_False (P := None = Some x)) by done.
        destruct (decide (l = x)) as [->|Hlx].
        -- by rewrite decide_True.
        -- by rewrite decide_False by congruence.
  - assert (n_children n = []) as Hch.
    { destruct (n_children n) as [|c0 cs] using rev_ind; [done|].
      by rewrite last_snoc in Hl. }
    rewrite Hch.
    destruct previous as [q|].
    + split_and!.
      * by rewrite !length_alter.
      * intros x. by rewrite !(view_keep n_tag) by (by intros []).
      * intros x. by rewrite !(view_keep n_children) by (by intros []).
      * intros x. rewrite !(view_keep n_text) by (by intros []).
        destruct (d !! x) as [m|]; [|done]. cbn [fmap option_fmap option_map].
        by rewrite decide_False by (by intros [? _]).
      * intros x. rewrite !view_tail_app. destruct (d !! x) as [m|]; [|done].
        cbn [fmap option_fmap option_map]. f_equal.
        destruct (decide (q = x)) as [->|Hqx].
        -- rewrite decide_True by done. by rewrite append_assoc.
        -- by rewrite !decide_False by congruence.
    + split_and!.
      * by rewrite !length_alter.
      * intros x. by rewrite !(view_keep n_tag) by (by intros []).
      * intros x. by rewrite !(view_keep n_children) by (by intros []).
      * intros x. rewrite !view_text_app. destruct (d !! x) as [m|]; [|done].
        cbn [fmap option_fmap option_map]. f_equal.
        destruct (decide (p = x)) as [->|Hpx].
        -- rewrite decide_True by done. by rewrite append_assoc.
        -- by rewrite decide_False by (by intros [_ ?]).
      * intros x. rewrite !(view_keep n_tail) by (by intros []).
        destruct (d !! x) as [m|]; [|done].
        cbn [fmap option_fmap option_map]. by rewrite !decide_False by done.
Qed.

Lemma children_of_view (d d' : list node) x :
  n_children <$> d' !! x = n_children <$> d !! x →
  children_of d' x = children_of d x.
Proof.
  unfold children_of. destruct (d' !! x), (d !! x); simpl; congruence.
Qed.

Lemma last_elem {A : Type} (l : list A) a : last l = Some a → a ∈ l.
Proof.
  destruct l as [|b l] using rev_ind; [done|].
  rewrite last_snoc. intros [= ->]. apply elem_of_app. right. by left.
Qed.

Lemma elem_of_middle (c : nat) A B : c ∈ A ++ c :: B.
Proof. apply elem_of_app. right. by left. Qed.

Section Tree.

Variables (height : nat → nat) (d : list node).
Hypothesis Htree : tree height d.

Lemma tree_parent c q : c ∈ children_of d q → getparent d c = Some q.
Proof.
  destruct Htree as (_ & _ & Huniq & _).
  intros Hc. apply getparent_unique; [done|].
  intros q' Hq'. by apply (Huniq q' q c).
Qed.

Lemma tree_not_own_child c : c ∉ children_of d c.
Proof.
  destruct Htree as (_ & _ & _ & Hh & _).
  intros Hc. apply Hh in Hc. lia.
Qed.

Lemma tree_split c q :
  c ∈ children_of d q →
  ∃ A B, children_of d q = A ++ c :: B ∧ (c ∉ A) ∧ (c ∉ B) ∧
         index_of c (children_of d q) = Some (length A).
Proof.
  destruct Htree as (_ & Hnd & _).
  intros Hc. destruct (list_elem_of_split _ _ Hc) as (A & B & HAB).
  specialize (Hnd q). rewrite HAB in Hnd.
  apply NoDup_app in Hnd as (_ & HA & HB).
  apply NoDup_cons in HB as (HcB & _).
  exists A, B. split_and!; [done| |done|].
  - intros Hin. apply (HA c Hin). by left.
  - rewrite HAB. apply index_of_middle.
    intros Hin. apply (HA c Hin). by left.
Qed.

Lemma tree_getprevious c q A B :
  children_of d q = A ++ c :: B → c ∉ A → getprevious d c = last A.
Proof.
  intros HAB HcA. unfold getprevious.
  rewrite (tree_parent c q) by (rewrite HAB; apply elem_of_middle).
  cbn [mbind option_bind]. rewrite HAB, index_of_middle by done.
  cbn [mbind option_bind].
  destruct A as [|a A] using rev_ind; [done|].
  rewrite last_snoc, length_app. simpl. rewrite Nat.add_1_r.
  rewrite <- !app_assoc. simpl. by rewrite list_lookup_middle.
Qed.

Lemma tree_getnext c q A B :
  children_of d q = A ++ c :: B → c ∉ A → getnext d c = head B.
Proof.
  intros HAB HcA. apply (getnext_at d c q A B); [|done..].
  apply tree_parent. rewrite HAB. apply elem_of_middle.
Qed.

(** What [drop_tag] leaves: the children of the element take its place
    among the children of its parent, and its text and tail join what
    comes before and after them. *)
Lemma drop_tag_tree e p n A B :
  d !! e = Some n → children_of d p = A ++ e :: B →
  ∃ d', drop_tag d e = Ok d' ∧ length d' = length d ∧
    (∀ x, n_tag <$> d' !! x = n_tag <$> d !! x) ∧
    (∀ x, children_of d' x =
          if decide (x = p) then A ++ n_children n ++ B
          else if decide (x = e) then [] else children_of d x) ∧
    (∀ x, n_text <$> d' !! x =
          (λ s, if decide (last A = None ∧ p = x)
                then s +:+ merged_before n else s) <$> (n_text <$> d !! x)) ∧
    (∀ x, n_tail <$> d' !! x =
          (λ s, if decide (last A = Some x) then s +:+ merged_before n
                else if decide (last (n_children n) = Some x)
                     then s +:+ n_tail n else s) <$> (n_tail <$> d !! x)).
Proof.
  intros Hn HAB.
  assert (e ∈ children_of d p) as Hep by (rewrite HAB; apply elem_of_middle).
  destruct (tree_split e p Hep) as (A' & B' & HAB' & HeA & HeB & Hidx).
  assert (p ≠ e) as Hpe by (intros ->; by apply (tree_not_own_child e)).
  assert (A' = A ∧ B' = B) as [-> ->].
  { rewrite HAB in HAB'.
    assert (e ∉ A) as HeA2.
    { destruct Htree as (_ & Hnd & _). specialize (Hnd p). rewrite HAB in Hnd.
      apply NoDup_app in Hnd as (_ & HA & _). intros Hin. apply (HA e Hin). by left. }
    assert (length A = length A') as Hlen.
    { pose proof (index_of_middle e A B HeA2) as H1.
      pose proof (index_of_middle e A' B' HeA) as H2.
      rewrite HAB' in H1. rewrite H1 in H2. by injection H2. }
    apply app_inj_1 in HAB' as [-> HB]; [|done]. by injection HB. }
  assert (∀ q, last A = Some q → last (n_children n) ≠ Some q) as Hdiff.
  { intros q HqA Hqe. apply last_elem in HqA, Hqe.
    destruct Htree as (_ & _ & Huniq & _).
    apply Hpe. apply (Huniq p e q).
    - rewrite HAB. apply elem_of_app. by left.
    - unfold children_of. by rewrite Hn. }
  pose proof (merged_views d p (last A) n Hdiff) as H. cbv zeta in H.
  unfold drop_tag. rewrite (tree_parent e p Hep).
  cbn [of_option mbind res_bind]. unfold get. rewrite Hn.
  cbn [of_option mbind res_bind]. rewrite (tree_getprevious e p A B HAB HeA).
  cbv zeta.
  set (d2 := if Py.truthy (n_tail n) then _ else _) in *.
  destruct H as (Hlen & Htag & Hch & Htext & Htail).
  rewrite (children_of_view d d2 p (Hch p)), Hidx.
  cbn [of_option mbind res_bind].
  eexists. split; [reflexivity|]. split_and!.
  - by rewrite !length_alter.
  - intros x. rewrite !(view_keep n_tag) by (by intros []). apply Htag.
  - intros x. unfold children_of.
    assert (d2 !! p = (λ m, set_children (children_of d p) m) <$> d2 !! p) as Hp2.
    { specialize (Hch p). unfold children_of.
      destruct (d2 !! p) as [m|], (d !! p) as [m'|]; try done.
      simpl in Hch. injection Hch as <-. by destruct m. }
    destruct (decide (x = p)) as [->|Hxp].
    + rewrite list_lookup_alter_eq, list_lookup_alter_ne by done.
      rewrite Hp2. destruct (d2 !! p) as [m|] eqn:Hm.
      * cbn [fmap option_fmap option_map set_children n_children].
        rewrite HAB. rewrite take_app_length.
        replace (A ++ e :: B) with ((A ++ [e]) ++ B) by (by rewrite <- app_assoc).
        by rewrite drop_app_length' by (rewrite length_app; simpl; lia).
      * exfalso. specialize (Hch p). rewrite Hm in Hch.
        unfold children_of in HAB. destruct (d !! p); [done|].
        by destruct A.
    + rewrite list_lookup_alter_ne by done.
      destruct (decide (x = e)) as [->|Hxe].
      * rewrite list_lookup_alter_eq. by destruct (d2 !! e).
      * rewrite list_lookup_alter_ne by done.
        specialize (Hch x). by destruct (d2 !! x), (d !! x); simplify_eq/=.
  - intros x. rewrite !(view_keep n_text) by (by intros []). apply Htext.
  - intros x. rewrite !(view_keep n_tail) by (by intros []). apply Htail.
Qed.

End Tree.

(** ** The text content in a tree *)

Lemma text_content_go_S j (d : list node) x :
  text_content_go (S j) d x =
  text_of d x +:+ String.concat "" (map (with_tail j d) (children_of d x)).
Proof.
  cbn [text_content_go]. unfold text_of, children_of.
  destruct (d !! x) as [n|]; [|done].
  cbn [fmap option_fmap option_map default id]. f_equal. f_equal.
  apply map_ext. intros c. unfold with_tail, tail_of.
  by destruct (d !! c).
Qed.

Lemma concat_empty_cons s l : String.concat "" (s :: l) = s +:+ String.concat "" l.
Proof. destruct l; [by rewrite append_empty_r|done]. Qed.

Lemma concat_empty_app l1 l2 :
  String.concat "" (l1 ++ l2) = String.concat "" l1 +:+ String.concat "" l2.
Proof.
  induction l1 as [|s l1 IH]; [by rewrite append_empty_l|].
  change ((s :: l1) ++ l2) with (s :: (l1 ++ l2)).
  by rewrite !concat_empty_cons, IH, append_assoc.
Qed.

Lemma merged_before_nil n : n_children n = [] → merged_before n = n_text n +:+ n_tail n.
Proof. unfold merged_before. by intros ->. Qed.

Lemma merged_before_snoc n E l : n_children n = E ++ [l] → merged_before n = n_text n.
Proof. unfold merged_before. intros ->. destruct E; by rewrite append_empty_r. Qed.

Section Stable.

Variables (height : nat → nat) (d : list node).
Hypothesis Htree : tree height d.

(** Fuel above the height of an element is enough. *)
Lemma text_content_stable j : ∀ j' x, height x < j → height x < j' →
  text_content_go j d x = text_content_go j' d x.
Proof.
  destruct Htree as (_ & _ & _ & Hh & _).
  induction j as [|j IH]; intros j' x Hj Hj'; [lia|].
  destruct j' as [|j']; [lia|].
  rewrite !text_content_go_S. f_equal. f_equal.
  apply map_ext_in. intros c Hc. apply list_elem_of_In in Hc.
  unfold with_tail. f_equal. apply Hh in Hc. apply IH; lia.
Qed.

End Stable.

Section Dropped.

Variables (height : nat → nat) (d d' : list node) (e p : nat) (n : node).
Variables (A B : list nat).
Hypothesis Htree : tree height d.
Hypothesis Hn : d !! e = Some n.
Hypothesis HAB : children_of d p = A ++ e :: B.
Hypothesis Hlen : length d' = length d.
Hypothesis Hch : ∀ x, children_of d' x =
  if decide (x = p) then A ++ n_children n ++ B
  else if decide (x = e) then [] else children_of d x.
Hypothesis Htext : ∀ x, n_text <$> d' !! x =
  (λ s, if decide (last A = None ∧ p = x)
        then s +:+ merged_before n else s) <$> (n_text <$> d !! x).
Hypothesis Htail : ∀ x, n_tail <$> d' !! x =
  (λ s, if decide (last A = Some x) then s +:+ merged_before n
        else if decide (last (n_children n) = Some x)
             then s +:+ n_tail n else s) <$> (n_tail <$> d !! x).

Lemma dropped_ep : e ∈ children_of d p.
Proof. rewrite HAB. apply elem_of_middle. Qed.

Lemma dropped_pe : p ≠ e.
Proof.
  intros Heq. pose proof dropped_ep as H. rewrite Heq in H.
  by apply (tree_not_own_child height d Htree e) in H.
Qed.

Lemma dropped_che : children_of d e = n_children n.
Proof. unfold children_of. by rewrite Hn. Qed.

Lemma dropped_NoDup : NoDup (A ++ e :: B).
Proof. pose proof Htree as (_ & Hnd & _). rewrite <- HAB. apply Hnd. Qed.

Lemma dropped_eA : e ∉ A.
Proof.
  pose proof dropped_NoDup as H. apply NoDup_app in H as (_ & H & _).
  intros Hin. apply (H e Hin). by left.
Qed.

Lemma dropped_eB : e ∉ B.
Proof.
  pose proof dropped_NoDup as H. apply NoDup_app in H as (_ & _ & H).
  by apply NoDup_cons in H as (H & _).
Qed.

Lemma dropped_apart c : c ∈ n_children n → c ∉ A ++ e :: B.
Proof.
  intros Hc Hin. pose proof Htree as (_ & _ & Huniq & _).
  apply dropped_pe. apply (Huniq p e c); [by rewrite HAB|by rewrite dropped_che].
Qed.

Lemma dropped_back c q :
  c ∈ children_of d' q →
  (c ∈ children_of d q ∧ q ≠ e ∧ c ≠ e) ∨ (q = p ∧ c ∈ n_children n).
Proof.
  rewrite Hch. destruct (decide (q = p)) as [->|Hqp].
  - rewrite !elem_of_app. intros [Hc|[Hc|Hc]].
    + left. split_and!; [|apply dropped_pe|].
      * rewrite HAB. apply elem_of_app. by left.
      * intros ->. by apply dropped_eA.
    + by right.
    + left. split_and!; [|apply dropped_pe|].
      * rewrite HAB. apply elem_of_app. right. by right.
      * intros ->. by apply dropped_eB.
  - destruct (decide (q = e)) as [->|Hqe]; [by intros ?%elem_of_nil|].
    intros Hc. left. split_and!; [done..|].
    intros ->. pose proof Htree as (_ & _ & Huniq & _).
    apply Hqp. apply (Huniq q p e Hc dropped_ep).
Qed.

Lemma dropped_forth c q :
  c ∈ children_of d q → c ≠ e → ∃ q', c ∈ children_of d' q'.
Proof.
  intros Hc Hce. destruct (decide (q = e)) as [->|Hqe].
  - exists p. rewrite Hch, decide_True by done.
    rewrite dropped_che in Hc. rewrite !elem_of_app. auto.
  - destruct (decide (q = p)) as [->|Hqp].
    + exists p. rewrite Hch, decide_True by done.
      rewrite HAB in Hc. apply elem_of_app in Hc as [Hc|Hc].
      * rewrite !elem_of_app. auto.
      * apply elem_of_cons in Hc as [->|Hc]; [done|].
        rewrite !elem_of_app. auto.
    + exists q. by rewrite Hch, !decide_False by done.
Qed.

Lemma dropped_tree : tree height d'.
Proof.
  pose proof Htree as (Hclosed & Hnd & Huniq & Hh & Hb).
  split_and!.
  - apply closed_intro. intros q c Hc. rewrite Hlen.
    apply dropped_back in Hc as [(Hc & _)|(_ & Hc)].
    + by apply (closed_lt d q c).
    + apply (closed_lt d e c); [done|]. by rewrite dropped_che.
  - intros q. rewrite Hch. destruct (decide (q = p)) as [->|Hqp].
    + pose proof dropped_NoDup as HN.
      apply NoDup_app in HN as (HA & HAB' & HB).
      apply NoDup_cons in HB as (_ & HB).
      apply NoDup_app. split_and!; [done| |].
      * intros x HxA Hx. apply elem_of_app in Hx as [Hx|Hx].
        -- apply (dropped_apart x Hx). apply elem_of_app. by left.
        -- apply (HAB' x HxA). by right.
      * apply NoDup_app. split_and!; [|
          |done].
        -- rewrite <- dropped_che. apply Hnd.
        -- intros x Hx HxB. apply (dropped_apart x Hx).
           apply elem_of_app. right. by right.
    + destruct (decide (q = e)); [apply NoDup_nil_2|apply Hnd].
  - intros q q' c Hc Hc'.
    apply dropped_back in Hc as [(Hc & Hq & _)|(-> & Hc)];
      apply dropped_back in Hc' as [(Hc' & Hq' & _)|(-> & Hc')].
    + by apply (Huniq q q' c).
    + exfalso. apply Hq. apply (Huniq q e c); [done|by rewrite dropped_che].
    + exfalso. apply Hq'. apply (Huniq q' e c); [done|by rewrite dropped_che].
    + done.
  - intros q c Hc. apply dropped_back in Hc as [(Hc & _)|(-> & Hc)].
    + by apply Hh.
    + rewrite <- dropped_che in Hc. apply Hh in Hc.
      pose proof (Hh p e dropped_ep). lia.
  - intros x. rewrite Hlen. apply Hb.
Qed.

Lemma dropped_text_of x :
  text_of d' x = if decide (last A = None ∧ p = x)
                 then text_of d x +:+ merged_before n else text_of d x.
Proof.
  unfold text_of. rewrite Htext. destruct (d !! x) as [m|] eqn:Hm.
  - cbn [fmap option_fmap option_map default id]. by destruct (decide _).
  - cbn [fmap option_fmap option_map default id].
    destruct (decide _) as [[_ <-]|]; [|done].
    exfalso. unfold children_of in HAB. rewrite Hm in HAB. by destruct A.
Qed.

Lemma dropped_tail_of x :
  tail_of d' x = if decide (last A = Some x) then tail_of d x +:+ merged_before n
                 else if decide (last (n_children n) = Some x)
                      then tail_of d x +:+ n_tail n else tail_of d x.
Proof.
  pose proof Htree as (Hclosed & _).
  unfold tail_of. rewrite Htail. destruct (d !! x) as [m|] eqn:Hm.
  - cbn [fmap option_fmap option_map default id].
    destruct (decide _); [done|]. by destruct (decide _).
  - cbn [fmap option_fmap option_map default id].
    apply lookup_ge_None in Hm.
    destruct (decide _) as [HA|_].
    { exfalso. apply last_elem in HA.
      assert (x < length d); [|lia].
      apply (closed_lt d p x Hclosed). rewrite HAB. apply elem_of_app. by left. }
    destruct (decide _) as [HE|_]; [|done].
    exfalso. apply last_elem in HE.
    assert (x < length d); [|lia].
    apply (closed_lt d e x Hclosed). by rewrite dropped_che.
Qed.

(** The text content of every other element is what it was. *)
Lemma dropped_text j : ∀ x, height x < j → x ≠ e →
  text_content_go j d' x = text_content_go j d x.
Proof.
  pose proof Htree as (Hclosed & Hnd & Huniq & Hh & Hb).
  induction j as [|j IH]; intros x Hx Hxe; [lia|].
  rewrite !text_content_go_S.
  assert (∀ c, height c < j → c ≠ e → last A ≠ Some c →
               last (n_children n) ≠ Some c →
               with_tail j d' c = with_tail j d c) as Hsame.
  { intros c Hc Hce HcA Hcl. unfold with_tail. rewrite IH by done.
    by rewrite dropped_tail_of, !decide_False by done. }
  destruct (decide (x = p)) as [->|Hxp].
  2: { rewrite dropped_text_of, decide_False by (intros [_ ?]; congruence).
       f_equal. rewrite Hch, !decide_False by done. f_equal.
       apply map_ext_in. intros c Hc%list_elem_of_In. apply Hsame.
       - apply Hh in Hc. lia.
       - intros ->. apply Hxp. apply (Huniq x p e Hc dropped_ep).
       - intros H%last_elem. apply Hxp. apply (Huniq x p c Hc).
         rewrite HAB. apply elem_of_app. by left.
       - intros H%last_elem. apply Hxe. apply (Huniq x e c Hc).
         by rewrite dropped_che. }
  pose proof (Hh p e dropped_ep) as Hep.
  pose proof dropped_NoDup as HN.
  apply NoDup_app in HN as (HNA & HNAB & HNB).
  apply NoDup_cons in HNB as (HeB & HNB).
  assert (NoDup (n_children n)) as HNE by (rewrite <- dropped_che; apply Hnd).
  rewrite Hch, decide_True by done. rewrite HAB.
  rewrite !map_app, !concat_empty_app. rewrite map_cons, concat_empty_cons.
  assert (map (with_tail j d') B = map (with_tail j d) B) as ->.
  { apply map_ext_in. intros c Hc%list_elem_of_In. apply Hsame.
    - assert (height c < height p); [|lia].
      apply Hh. rewrite HAB. apply elem_of_app. right. by right.
    - by intros ->.
    - intros H%last_elem. apply (HNAB c H). by right.
    - intros H%last_elem. apply (dropped_apart c H).
      apply elem_of_app. right. by right. }
  assert (with_tail j d e =
          (n_text n +:+ String.concat "" (map (with_tail j d) (n_children n)))
          +:+ n_tail n) as ->.
  { unfold with_tail at 1. unfold tail_of at 1. rewrite Hn.
    cbn [fmap option_fmap option_map default id]. f_equal.
    destruct j as [|j0]; [lia|]. rewrite text_content_go_S.
    unfold text_of. rewrite Hn. cbn [fmap option_fmap option_map default id].
    f_equal. rewrite dropped_che. f_equal.
    apply map_ext_in. intros c Hc%list_elem_of_In. unfold with_tail. f_equal.
    rewrite <- dropped_che in Hc. apply Hh in Hc.
    apply (text_content_stable height d Htree); lia. }
  assert (n_children n = [] ∨ ∃ E l, n_children n = E ++ [l]) as HE.
  { destruct (n_children n) as [|l E _] using rev_ind; eauto. }
  assert (∀ E l, n_children n = E ++ [l] →
            map (with_tail j d') E = map (with_tail j d) E ∧
            with_tail j d' l = with_tail j d l +:+ n_tail n) as Hlast.
  { intros E l HEl. rewrite HEl in HNE.
    apply NoDup_app in HNE as (_ & HEl' & _).
    assert (∀ c, c ∈ n_children n → height c < j ∧ c ≠ e ∧ last A ≠ Some c) as Hin.
    { intros c Hc. split_and!.
      - rewrite <- dropped_che in Hc. apply Hh in Hc. lia.
      - intros ->. apply (dropped_apart e Hc), elem_of_middle.
      - intros H%last_elem. apply (dropped_apart c Hc).
        apply elem_of_app. by left. }
    split.
    - apply map_ext_in. intros c Hc%list_elem_of_In.
      destruct (Hin c) as (H1 & H2 & H3).
      { rewrite HEl. apply elem_of_app. by left. }
      apply Hsame; [done..|].
      rewrite HEl, last_snoc. intros [= ->]. apply (HEl' c Hc). by left.
    - destruct (Hin l) as (H1 & H2 & H3).
      { rewrite HEl. apply elem_of_app. right. by left. }
      unfold with_tail. rewrite IH by done. rewrite dropped_tail_of.
      rewrite decide_False by done.
      rewrite decide_True by (by rewrite HEl, last_snoc).
      by rewrite append_assoc. }
  assert (A = [] ∨ ∃ A0 q, A = A0 ++ [q]) as HA.
  { destruct A as [|q A0 _] using rev_ind; eauto. }
  destruct HA as [HA|(A0 & q & HA)].
  - rewrite dropped_text_of, decide_True by (by rewrite HA).
    rewrite HA. cbn [map String.concat]. rewrite !append_empty_l.
    destruct HE as [HE|(E & l & HE)].
    + rewrite (merged_before_nil n HE), HE. cbn [map String.concat].
      by rewrite !append_empty_l, !append_empty_r, !append_assoc.
    + destruct (Hlast E l HE) as [HEs Hl].
      rewrite (merged_before_snoc n E l HE), HE.
      rewrite !map_app, !concat_empty_app, HEs. cbn [map String.concat].
      rewrite Hl. by rewrite !append_assoc.
  - rewrite dropped_text_of.
    rewrite decide_False by (rewrite HA, last_snoc; by intros [? _]).
    assert (q ∈ A) as Hq by (rewrite HA; apply elem_of_app; right; by left).
    assert (map (with_tail j d') A =
            map (with_tail j d) A0 ++ [with_tail j d q +:+ merged_before n]) as ->.
    { rewrite HA, map_app. f_equal.
      - rewrite HA in HNA. apply NoDup_app in HNA as (_ & HA0 & _).
        apply map_ext_in. intros c Hc%list_elem_of_In.
        assert (c ∈ A) as HcA by (rewrite HA; apply elem_of_app; by left).
        apply Hsame.
        + assert (height c < height p); [|lia].
          apply Hh. rewrite HAB. apply elem_of_app. by left.
        + intros ->. apply (HNAB e HcA). by left.
        + rewrite HA, last_snoc. intros [= ->]. apply (HA0 c Hc). by left.
        + intros H%last_elem. apply (dropped_apart c H).
          apply elem_of_app. by left.
      - cbn [map]. f_equal. unfold with_tail. rewrite IH.
        + rewrite dropped_tail_of, decide_True by (by rewrite HA, last_snoc).
          by rewrite append_assoc.
        + assert (height q < height p); [|lia].
          apply Hh. rewrite HAB. apply elem_of_app. by left.
        + intros ->. apply (HNAB e Hq). by left. }
    rewrite HA, !map_app, !concat_empty_app. cbn [map String.concat].
    destruct HE as [HE|(E & l & HE)].
    + rewrite (merged_before_nil n HE), HE. cbn [map String.concat].
      by rewrite !append_empty_l, !append_empty_r, !append_assoc.
    + destruct (Hlast E l HE) as [HEs Hl].
      rewrite (merged_before_snoc n E l HE), HE.
      rewrite !map_app, !concat_empty_app, HEs. cbn [map String.concat].
      rewrite Hl. by rewrite !append_assoc.
Qed.

End Dropped.

(** ** Walking the tree while tags are dropped *)

Lemma getnext_elem d a s :
  getnext d a = Some s → ∃ q, getparent d a = Some q ∧ s ∈ children_of d q.
Proof.
  unfold getnext. destruct (getparent d a) as [q|]; [|done].
  cbn [mbind option_bind].
  destruct (index_of a (children_of d q)) as [i|]; [|done].
  cbn [mbind option_bind]. intros H. exists q. split; [done|].
  by apply list_elem_of_lookup_2 in H.
Qed.

Section Walk.

Variables (height : nat → nat) (d : list node).
Hypothesis Htree : tree height d.

Lemma getnext_other a s : getnext d a = Some s → s ≠ a.
Proof.
  intros H. destruct (getnext_elem d a s H) as (q & Hq & _).
  pose proof (getparent_spec d a) as Hs. rewrite Hq in Hs.
  destruct Hs as (Ha & _).
  destruct (tree_split height d Htree a q Ha) as (A & B & HAB & HaA & HaB & _).
  rewrite (tree_getnext height d Htree a q A B HAB HaA) in H.
  intros ->. apply HaB. destruct B; [done|]. injection H as ->. by left.
Qed.

(** The climb ends at the next sibling of the element or of one of its
    ancestors. *)
Lemma next_up_spec top k : ∀ a x, next_up k d top a = Some x →
  ∃ b, getnext d b = Some x ∧
       (b = a ∨ ∃ q, getparent d a = Some q ∧ height q ≤ height b).
Proof.
  pose proof Htree as (_ & _ & _ & Hh & _).
  induction k as [|k IH]; intros a x.
  - cbn [next_up]. destruct (a =? top); [done|].
    destruct (getnext d a) as [s|] eqn:Hs; [|done].
    intros [= <-]. exists a. auto.
  - cbn [next_up]. destruct (a =? top); [done|].
    destruct (getnext d a) as [s|] eqn:Hs.
    { intros [= <-]. exists a. auto. }
    destruct (getparent d a) as [q|] eqn:Hq; [|done].
    intros H. destruct (IH q x H) as (b & Hb & Hor).
    exists b. split; [done|]. right. exists q. split; [done|].
    destruct Hor as [->|(g & Hg & Hle)]; [done|].
    pose proof (getparent_spec d q) as Hs'. rewrite Hg in Hs'.
    destruct Hs' as (Hqg & _). apply Hh in Hqg. lia.
Qed.

Lemma next_node_parent top e x :
  next_node d top e = Some x → ∃ q, x ∈ children_of d q.
Proof.
  unfold next_node. destruct (children_of d e) as [|c cs] eqn:Hc.
  - intros H. destruct (next_up_spec top _ _ _ H) as (b & Hb & _).
    destruct (getnext_elem d b x Hb) as (q & _ & Hq). by exists q.
  - intros [= <-]. exists e. rewrite Hc. by left.
Qed.

(** The iterator never steps to the element it is at, so the element
    can go while the walk goes on. *)
Lemma next_node_other top e p x :
  e ∈ children_of d p → next_node d top e = Some x → x ≠ e.
Proof.
  pose proof Htree as (_ & _ & Huniq & Hh & _).
  intros Hep. unfold next_node. destruct (children_of d e) as [|c cs] eqn:Hc.
  - intros H. destruct (next_up_spec top _ _ _ H) as (b & Hb & Hor).
    destruct Hor as [->|(q & Hq & Hle)]; [by apply getnext_other|].
    intros ->.
    destruct (getnext_elem d b e Hb) as (g & Hg & Heg).
    rewrite (tree_parent height d Htree e p Hep) in Hq. injection Hq as <-.
    assert (g = p) as -> by (by apply (Huniq g p e)).
    pose proof (getparent_spec d b) as Hs. rewrite Hg in Hs.
    destruct Hs as (Hbp & _). apply Hh in Hbp. lia.
  - intros [= <-] ->.
    assert (e ∈ children_of d e) as H by (rewrite Hc; by left).
    by apply (tree_not_own_child height d Htree e).
Qed.

End Walk.

(** The pass goes through: every element it comes to has a parent.  The
    arena stays a tree, no element gains a parent, and the text content
    of every element that is still under a parent, or never was, is
    kept. *)
Lemma drop_loop (height : nat → nat) k : ∀ d cur,
  tree height d → (∀ x, cur = Some x → ∃ q, x ∈ children_of d q) →
  ∃ d', drop_empty_go k d cur = Ok d' ∧ tree height d' ∧
    length d' = length d ∧
    (∀ x, n_tag <$> d' !! x = n_tag <$> d !! x) ∧
    (∀ r, (∀ q, r ∉ children_of d q) → ∀ q, r ∉ children_of d' q) ∧
    (∀ x j, height x < j →
       (∀ q, x ∉ children_of d q) ∨ (∃ q, x ∈ children_of d' q) →
       text_content_go j d' x = text_content_go j d x).
Proof.
  induction k as [|k IH]; intros d cur Htree Hcur.
  { exists d. by split_and!. }
  destruct cur as [e|]; [|exists d; by split_and!].
  cbn [drop_empty_go].
  destruct (Hcur e eq_refl) as (p & Hep).
  destruct (droppable d e) eqn:Hdrop.
  - pose proof Htree as (Hclosed & _).
    assert (e < length d) as Hlt by (by apply (closed_lt d p e)).
    destruct (lookup_lt_is_Some_2 d e Hlt) as [n Hn].
    destruct (tree_split height d Htree e p Hep) as (A & B & HAB & _).
    destruct (drop_tag_tree height d Htree e p n A B Hn HAB)
      as (d1 & Hd1 & Hlen & Htag & Hch & Htext & Htail).
    rewrite Hd1. cbn [mbind res_bind].
    pose proof (dropped_tree height d d1 e p n A B Htree Hn HAB Hlen Hch) as Htree1.
    pose proof (dropped_back height d d1 e p n A B Htree HAB Hch) as Hback.
    pose proof (dropped_forth d d1 e p n A B Hn HAB Hch) as Hforth.
    assert (∀ q, e ∉ children_of d1 q) as Hgone.
    { intros q Hq.
      apply Hback in Hq
        as [(_ & _ & Hne)|(_ & Hq)]; [done|].
      apply (tree_not_own_child height d Htree e).
      unfold children_of. by rewrite Hn. }
    destruct (IH d1 (next_node d root e) Htree1)
      as (d' & Hd' & Htree' & Hlen' & Htag' & Hpar' & Htxt').
    { intros x Hx.
      destruct (next_node_parent height d Htree root e x Hx) as (q & Hq).
      apply (Hforth x q Hq).
      by apply (next_node_other height d Htree root e p x). }
    exists d'. split_and!; [done|done|congruence| | |].
    + intros x. by rewrite Htag'.
    + intros r Hr. apply Hpar'. intros q Hq.
      apply Hback in Hq
        as [(Hq & _)|(_ & Hq)]; [by apply (Hr q)|].
      apply (Hr e). unfold children_of. by rewrite Hn.
    + intros x j Hj Hx.
      assert (x ≠ e) as Hxe.
      { intros ->. destruct Hx as [Hx|(q & Hq)]; [by apply (Hx p)|].
        by apply (Hpar' e Hgone q). }
      rewrite <- (dropped_text height d d1 e p n A B Htree Hn HAB Hlen Hch Htext
                    Htail j x Hj Hxe).
      apply Htxt'; [done|]. destruct Hx as [Hx|Hx]; [|by right].
      left. intros q Hq.
      apply Hback in Hq
        as [(Hq & _)|(_ & Hq)]; [by apply (Hx q)|].
      apply (Hx e). unfold children_of. by rewrite Hn.
  - cbn [mbind res_bind].
    destruct (IH d (next_node d root e) Htree) as (d' & Hd' & H').
    { intros x Hx. by apply (next_node_parent height d Htree root e x). }
    by exists d'.
Qed.

Lemma NoDup_concat_lookup (ls : list (list nat)) : ∀ i j l l' c,
  NoDup (concat ls) → ls !! i = Some l → ls !! j = Some l' →
  c ∈ l → c ∈ l' → i = j.
Proof.
  induction ls as [|l0 ls IH]; intros i j l l' c Hnd Hi Hj Hc Hc'; [done|].
  cbn [concat] in Hnd. apply NoDup_app in Hnd as (_ & Hdis & Hnd).
  destruct i as [|i], j as [|j]; [done| | |].
  - exfalso. injection Hi as <-. apply (Hdis c Hc).
    apply list_elem_of_In, in_concat. exists l'.
    split; [|by apply list_elem_of_In].
    apply list_elem_of_In. apply (list_elem_of_lookup_2 ls j). exact Hj.
  - exfalso. injection Hj as <-. apply (Hdis c Hc').
    apply list_elem_of_In, in_concat. exists l.
    split; [|by apply list_elem_of_In].
    apply list_elem_of_In. apply (list_elem_of_lookup_2 ls i). exact Hi.
  - f_equal. by apply (IH i j l l' c).
Qed.

(** An arena in document order whose child lists stay inside it and
    share no element is a tree. *)
Lemma tree_ordered (d : list node) :
  closed d = true → ordered d = true → NoDup (concat (map n_children d)) →
  tree (λ x, length d - S x) d.
Proof.
  intros Hclosed Hord Hnd. split_and!; [done| | | |].
  - intros q. unfold children_of. destruct (d !! q) as [n|] eqn:Hq.
    + apply (NoDup_concat_In (map n_children d)); [done|].
      apply in_map. apply list_elem_of_In. by apply list_elem_of_lookup_2 in Hq.
    + apply NoDup_nil_2.
  - intros q q' c. unfold children_of.
    destruct (d !! q) as [n|] eqn:Hq; [|by intros ?%elem_of_nil].
    destruct (d !! q') as [n'|] eqn:Hq'; [|by intros _ ?%elem_of_nil].
    intros Hc Hc'.
    apply (NoDup_concat_lookup (map n_children d) q q' (n_children n)
             (n_children n') c); [done| | |done..].
    + by rewrite list_lookup_fmap, Hq.
    + by rewrite list_lookup_fmap, Hq'.
  - intros q c Hc. pose proof (closed_lt d q c Hclosed Hc).
    pose proof (ordered_lt d q c Hord Hc). lia.
  - intros x Hx. lia.
Qed.

Lemma text_content_go_None (d : list node) x :
  d !! x = None → ∀ j, text_content_go j d x = "".
Proof. intros Hx [|j]; [done|]. cbn [text_content_go]. by rewrite Hx. Qed.

(** X23.  [drop_tag] on an element of a tree that has a parent: the
    children of the element take its place among the children of its
    parent, in their order, and the element is under no parent any
    more.  The arena is a tree again and the text content of every
    other element is what it was: the text and the tail of the element
    are merged into what surrounds it. *)
Theorem drop_tag_merges (height : nat → nat) (d : dom) (e p : nat) (A B : list nat) :
  tree height d → children_of d p = A ++ e :: B →
  ∃ d', drop_tag d e = Ok d' ∧ tree height d' ∧
        children_of d' p = A ++ children_of d e ++ B ∧
        (∀ q, e ∉ children_of d' q) ∧
        (∀ x, x ≠ e → text_content d' x = text_content d x).
Proof.
  intros Htree HAB.
  pose proof Htree as (Hclosed & _ & _ & _ & Hb).
  assert (e ∈ children_of d p) as Hep by (rewrite HAB; apply elem_of_middle).
  assert (e < length d) as Hlt by (by apply (closed_lt d p e)).
  destruct (lookup_lt_is_Some_2 d e Hlt) as [n Hn].
  destruct (drop_tag_tree height d Htree e p n A B Hn HAB)
    as (d' & Hd' & Hlen & Htag & Hch & Htext & Htail).
  assert (children_of d e = n_children n) as He
    by (unfold children_of; by rewrite Hn).
  exists d'. split_and!; [done| | | |].
  - exact (dropped_tree height d d' e p n A B Htree Hn HAB Hlen Hch).
  - by rewrite Hch, decide_True, He by done.
  - intros q Hq.
    apply (dropped_back height d d' e p n A B Htree HAB Hch) in Hq
      as [(_ & _ & Hne)|(_ & Hq)]; [done|].
    apply (tree_not_own_child height d Htree e). by rewrite He.
  - intros x Hxe. unfold text_content. rewrite Hlen.
    destruct (decide (x < length d)) as [Hx|Hx].
    + apply (dropped_text height d d' e p n A B Htree Hn HAB Hlen Hch Htext
               Htail); [by apply Hb|done].
    + rewrite !text_content_go_None; [done|apply lookup_ge_None; lia|].
      apply lookup_ge_None. lia.
Qed.

Lemma drop_tag_merges_witness :
  ∃ d', drop_tag doc_padding 3 = Ok d' ∧
        children_of d' 1 = [2; 4; 5] ∧ text_content d' 1 = "abcd e".
Proof.
  assert (tree (λ x, length doc_padding - S x) doc_padding) as Htree.
  { apply tree_ordered; [reflexivity..|].
    refine (@bool_decide_unpack (NoDup _) _ _). vm_compute. exact I. }
  destruct (drop_tag_merges _ doc_padding 3 1 [2] [5] Htree eq_refl)
    as (d' & Hd' & _ & Hch & _ & Htxt).
  exists d'. split; [exact Hd'|]. split; [exact Hch|].
  rewrite Htxt; [reflexivity|discriminate].
Defined.

(** X24.  The pass of [reconstruct_tables] that drops empty [span] and
    [div] elements, run on a tree whose root has no parent: it fails,
    with the assertion of [drop_tag], exactly when the root itself is to
    be dropped.  Otherwise it goes through whatever it drops on the way:
    the arena is a tree again, every element keeps its tag, and every
    element that is still in the tree has the text content it had, the
    root above all: no text of the page is lost. *)
Theorem drop_pass_keeps_text (height : nat → nat) (d : dom) :
  tree height d → (∀ q, root ∉ children_of d q) →
  if droppable d root then drop_empty d = Raise AssertionError
  else ∃ d', drop_empty d = Ok d' ∧ tree height d' ∧
         length d' = length d ∧
         (∀ x, n_tag <$> d' !! x = n_tag <$> d !! x) ∧
         (∀ x, x = root ∨ (∃ q, x ∈ children_of d' q) →
               text_content d' x = text_content d x).
Proof.
  intros Htree Hroot. unfold drop_empty.
  destruct (length d) as [|k] eqn:Hlen.
  { apply length_zero_iff_nil in Hlen. subst d.
    change (droppable [] root) with false.
    exists []. split_and!; try done. }
  cbn [drop_empty_go].
  destruct (droppable d root) eqn:Hdrop.
  - unfold drop_tag. by rewrite (getparent_None d root Hroot).
  - cbn [mbind res_bind].
    destruct (drop_loop height k d (next_node d root root) Htree)
      as (d' & Hd' & Htree' & Hlen' & Htag' & Hpar' & Htxt').
    { intros x Hx. by apply (next_node_parent height d Htree root root x). }
    exists d'. split_and!; [done|done|congruence|done|].
    intros x Hx. unfold text_content. rewrite Hlen'.
    pose proof Htree as (_ & _ & _ & _ & Hb).
    apply Htxt'.
    + apply Hb. destruct Hx as [->|(q & Hq)]; [unfold root; lia|].
      pose proof Htree' as (Hclosed' & _).
      rewrite <- Hlen'. by apply (closed_lt d' q x).
    + destruct Hx as [->|Hx]; [by left|by right].
Qed.

Lemma drop_pass_keeps_text_witness :
  ∃ d', drop_empty doc_padding = Ok d' ∧
        d' !! 1 = Some (Node "div" None "ab" "" [3]) ∧
        text_content d' 1 = "abcd e".
Proof.
  assert (tree (λ x, length doc_padding - S x) doc_padding) as Htree.
  { apply tree_ordered; [reflexivity..|].
    refine (@bool_decide_unpack (NoDup _) _ _). vm_compute. exact I. }
  assert (∀ q, root ∉ children_of doc_padding q) as Hroot.
  { pose proof (getparent_spec doc_padding root) as H. exact H. }
  pose proof (drop_pass_keeps_text _ doc_padding Htree Hroot) as H.
  change (droppable doc_padding root) with false in H.
  destruct H as (d' & Hd' & _ & _ & _ & Htxt).
  exists d'. split; [exact Hd'|].
  assert (d' !! 1 = Some (Node "div" None "ab" "" [3])) as H1.
  { vm_compute in Hd'. injection Hd' as <-. reflexivity. }
  split; [exact H1|].
  rewrite Htxt; [reflexivity|].
  right. exists 0. vm_compute in Hd'. injection Hd' as <-.
  by left.
Defined.

(** ** The stylesheet *)

Lemma startswith_app l s : Py.startswith l (l +:+ s) = true.
Proof.
  induction l as [|a l IH]; [by destruct s|].
  rewrite append_cons. cbn [Py.startswith]. rewrite IH.
  by rewrite Ascii.eqb_refl.
Qed.

Lemma drop_length_app l s : Re.drop (String.length l) (l +:+ s) = s.
Proof.
  induction l as [|a l IH]; [by destruct s|].
  rewrite append_cons. cbn [String.length Re.drop]. exact IH.
Qed.

Lemma take_length_app w rest :
  Re.take (String.length (w +:+ rest) - String.length rest) (w +:+ rest) = w.
Proof.
  rewrite length_append.
  replace (String.length w + String.length rest - String.length rest)
    with (String.length w) by lia.
  induction w as [|a w IH]; [by destruct rest|].
  rewrite append_cons. cbn [String.length Re.take]. by rewrite IH.
Qed.

Section Matching.

Context {A : Type}.

Lemma run_Lit l s caps (k : string → list string → option A) :
  Re.run (Re.Lit l) (l +:+ s) caps k = k s caps.
Proof. cbn [Re.run]. by rewrite startswith_app, drop_length_app. Qed.

Lemma run_Lit_fail l s caps (k : string → list string → option A) :
  Py.startswith l s = false → Re.run (Re.Lit l) s caps k = None.
Proof. intros H. cbn [Re.run]. by rewrite H. Qed.

(** A greedy repetition takes the whole run when the rest of the
    pattern matches after it. *)
Lemma rep_greedy f w : ∀ lo hi rest (k : string → option A) a,
  all_chars f w = true → lo ≤ String.length w → String.length w ≤ hi →
  stops f rest → k rest = Some a →
  Re.rep f lo hi (w +:+ rest) k = Some a.
Proof.
  induction w as [|c w IH]; intros lo hi rest k a Hall Hlo Hhi Hstop Hk.
  - rewrite append_empty_l. cbn [String.length] in Hlo.
    assert (lo = 0) as -> by lia.
    destruct hi as [|hi], rest as [|c rest]; cbn [Re.rep Nat.eqb]; try done.
    cbn [stops] in Hstop. by rewrite Hstop.
  - rewrite append_cons. cbn [all_chars] in Hall.
    apply andb_true_iff in Hall as [Hc Hall].
    cbn [String.length] in Hlo, Hhi.
    destruct hi as [|hi]; [lia|]. cbn [Re.rep]. rewrite Hc.
    rewrite (IH (pred lo) hi rest k a); [done|done|lia|lia|done|done].
Qed.

(** It gives up when the rest of the pattern matches after none of the
    runs it can take. *)
Lemma rep_none f hi : ∀ lo s (k : string → option A),
  (∀ w t, s = w +:+ t → all_chars f w = true → String.length w ≤ hi →
          k t = None) →
  Re.rep f lo hi s k = None.
Proof.
  induction hi as [|hi IH]; intros lo s k Hk.
  - cbn [Re.rep]. pose proof (Hk "" s (eq_sym (append_empty_l s)) eq_refl (le_n 0)).
    destruct s; by destruct (lo =? 0).
  - pose proof (Hk "" s (eq_sym (append_empty_l s)) eq_refl (Nat.le_0_l _)) as H0.
    cbn [Re.rep]. destruct s as [|c s]; [by destruct (lo =? 0)|].
    destruct (f c) eqn:Hc; [|by destruct (lo =? 0)].
    rewrite (IH (pred lo) s k); [by destruct (lo =? 0)|].
    intros w t -> Hw Hlen. apply (Hk (String c w) t).
    + by rewrite append_cons.
    + cbn [all_chars]. by rewrite Hc, Hw.
    + cbn [String.length]. lia.
Qed.

Lemma run_Group_Rep f lo hi w rest caps (k : string → list string → option A) a :
  all_chars f w = true → lo ≤ String.length w → String.length w ≤ hi →
  stops f rest → k rest (caps ++ [w]) = Some a →
  Re.run (Re.Group (Re.Rep f lo hi)) (w +:+ rest) caps k = Some a.
Proof.
  intros Hall Hlo Hhi Hstop Hk. cbn [Re.run].
  apply rep_greedy; [done..|]. by rewrite take_length_app.
Qed.

Lemma run_Group_Rep_none f lo hi s caps (k : string → list string → option A) :
  (∀ w t, s = w +:+ t → all_chars f w = true → String.length w ≤ hi →
          k t (caps ++ [w]) = None) →
  Re.run (Re.Group (Re.Rep f lo hi)) s caps k = None.
Proof.
  intros Hk. cbn [Re.run]. apply rep_none. intros w t -> Hw Hlen.
  rewrite take_length_app. by apply Hk.
Qed.

Lemma run_Plus f w rest caps (k : string → list string → option A) a :
  all_chars f w = true → 1 ≤ String.length w → stops f rest →
  k rest caps = Some a →
  Re.run (Re.Plus f) (w +:+ rest) caps k = Some a.
Proof.
  intros Hall Hlo Hstop Hk. cbn [Re.run].
  apply rep_greedy; [done|done| |done|done].
  rewrite length_append. lia.
Qed.

End Matching.

Lemma number_ok_inv f lo hi s :
  number_ok f lo hi s = true →
  all_chars f s = true ∧ lo ≤ String.length s ∧ String.length s ≤ hi.
Proof.
  unfold number_ok. intros H.
  apply andb_true_iff in H as [H Hall]. apply andb_true_iff in H as [Hlo Hhi].
  apply Nat.leb_le in Hlo, Hhi. done.
Qed.

Lemma rule_text_app class_ property hex px frac rest :
  rule_text class_ property hex px frac +:+ rest =
  "." +:+ (class_ +:+ (hex +:+ ("{" +:+ (property +:+ (":" +:+
    (px +:+ (frac +:+ ("px" +:+ (";}" +:+ rest))))))))).
Proof. unfold rule_text. by rewrite !append_assoc. Qed.

(** The optional fraction of a size. *)
Lemma run_fraction {A : Type} frac rest caps
  (k : string → list string → option A) a :
  fraction_ok frac = true → k ("px" +:+ rest) caps = Some a →
  Re.run (Re.Opt (Re.Cat (Re.Lit ".") (Re.Plus Py.isdigit)))
    (frac +:+ ("px" +:+ rest)) caps k = Some a.
Proof.
  intros Hfrac Hk. destruct frac as [|c ds].
  - rewrite append_empty_l. cbn [Re.run]. by rewrite Hk.
  - cbn [fraction_ok] in Hfrac. apply andb_true_iff in Hfrac as [Hc Hds].
    apply Ascii.eqb_eq in Hc. subst c.
    apply number_ok_inv in Hds as (Hall & Hlo & _).
    change (Re.run (Re.Opt ?r) ?s ?c ?k) with
      (match Re.run r s c k with Some a => Some a | None => k s c end).
    change (String "." ds +:+ ("px" +:+ rest))
      with ("." +:+ (ds +:+ ("px" +:+ rest))).
    change (Re.run (Re.Cat ?r1 ?r2) ?s ?c ?k) with
      (Re.run r1 s c (λ rest caps', Re.run r2 rest caps' k)).
    rewrite run_Lit. by rewrite (run_Plus Py.isdigit ds _ caps k a).
Qed.

(** The pattern of a class with a plain property matches a rule of the
    class and captures the number of the class and the whole pixels. *)
Lemma match_rule class_ property hex px frac rest :
  number_ok Re.hex_lower 1 3 hex = true → number_ok Py.isdigit 1 3 px = true →
  fraction_ok frac = true →
  Re.match_ (rule class_ (Re.Lit property))
    (rule_text class_ property hex px frac +:+ rest) = Some (rest, [hex; px]).
Proof.
  intros Hhex Hpx Hfrac.
  apply number_ok_inv in Hhex as (Hhex & Hhlo & Hhhi).
  apply number_ok_inv in Hpx as (Hpx & Hplo & Hphi).
  rewrite rule_text_app. unfold Re.match_, rule, hex_id, px_value.
  change (Re.run (Re.Cat ?r1 ?r2) ?s ?c ?k) with
    (Re.run r1 s c (λ rest caps', Re.run r2 rest caps' k)).
  rewrite run_Lit.
  change (Re.run (Re.Cat ?r1 ?r2) ?s ?c ?k) with
    (Re.run r1 s c (λ rest caps', Re.run r2 rest caps' k)).
  rewrite run_Lit.
  change (Re.run (Re.Cat ?r1 ?r2) ?s ?c ?k) with
    (Re.run r1 s c (λ rest caps', Re.run r2 rest caps' k)).
  apply run_Group_Rep; [done..|].
  change (Re.run (Re.Cat ?r1 ?r2) ?s ?c ?k) with
    (Re.run r1 s c (λ rest caps', Re.run r2 rest caps' k)).
  rewrite run_Lit.
  change (Re.run (Re.Cat ?r1 ?r2) ?s ?c ?k) with
    (Re.run r1 s c (λ rest caps', Re.run r2 rest caps' k)).
  rewrite run_Lit.
  change (Re.run (Re.Cat ?r1 ?r2) ?s ?c ?k) with
    (Re.run r1 s c (λ rest caps', Re.run r2 rest caps' k)).
  rewrite run_Lit.
  change (Re.run (Re.Cat ?r1 ?r2) ?s ?c ?k) with
    (Re.run r1 s c (λ rest caps', Re.run r2 rest caps' k)).
  change (Re.run (Re.Cat ?r1 ?r2) ?s ?c ?k) with
    (Re.run r1 s c (λ rest caps', Re.run r2 rest caps' k)).
  apply run_Group_Rep; [done..| |].
  { destruct frac as [|c ds]; [done|].
    cbn [fraction_ok] in Hfrac. apply andb_true_iff in Hfrac as [Hc _].
    apply Ascii.eqb_eq in Hc. by subst c. }
  change (Re.run (Re.Cat ?r1 ?r2) ?s ?c ?k) with
    (Re.run r1 s c (λ rest caps', Re.run r2 rest caps' k)).
  apply run_fraction; [done|].
  rewrite run_Lit. by rewrite run_Lit.
Qed.

Lemma startswith_apart c : ∀ u rest,
  Py.startswith c u = false → Py.startswith u c = false →
  Py.startswith c (u +:+ rest) = false.
Proof.
  induction c as [|a c IH]; intros u rest Hcu Huc; [by destruct u|].
  destruct u as [|b u]; [done|].
  rewrite append_cons. cbn [Py.startswith] in *.
  destruct (Ascii.eqb a b) eqn:Hab; [|done].
  apply Ascii.eqb_eq in Hab. subst b. rewrite Ascii.eqb_refl in Huc.
  cbn [andb] in *. by apply IH.
Qed.

(** Nothing matches where no rule of the class begins. *)
Lemma match_quiet class_ property_ a u rest :
  quiet class_ (String a u) = true →
  Re.match_ (rule class_ property_) (String a (u +:+ rest)) = None.
Proof.
  cbn [quiet]. intros H. apply andb_true_iff in H as [H _].
  unfold Re.match_, rule.
  change (Re.run (Re.Cat ?r1 ?r2) ?s ?c ?k) with
    (Re.run r1 s c (λ rest caps', Re.run r2 rest caps' k)).
  destruct (Ascii.eqb a ".") eqn:Ha.
  - apply Ascii.eqb_eq in Ha. subst a.
    change (String "." (u +:+ rest)) with ("." +:+ (u +:+ rest)).
    rewrite run_Lit.
    change (Re.run (Re.Cat ?r1 ?r2) ?s ?c ?k) with
      (Re.run r1 s c (λ rest caps', Re.run r2 rest caps' k)).
    apply run_Lit_fail. apply negb_true_iff, orb_false_iff in H as [H1 H2].
    by apply startswith_apart.
  - apply run_Lit_fail. cbn [Py.startswith].
    rewrite Ascii.eqb_sym. by rewrite Ha.
Qed.

Lemma match_empty class_ property_ :
  Re.match_ (rule class_ property_) "" = None.
Proof. done. Qed.

Lemma findall_quiet class_ property_ junk : ∀ fuel s,
  quiet class_ junk = true → String.length junk ≤ fuel →
  Re.findall_go fuel (rule class_ property_) (junk +:+ s) =
  Re.findall_go (fuel - String.length junk) (rule class_ property_) s.
Proof.
  induction junk as [|a u IH]; intros fuel s Hq Hfuel.
  - rewrite append_empty_l. cbn [String.length]. by rewrite Nat.sub_0_r.
  - cbn [String.length] in *. destruct fuel as [|fuel]; [lia|].
    rewrite append_cons. cbn [Re.findall_go].
    rewrite (match_quiet class_ property_ a u s Hq).
    cbn [Nat.sub]. apply IH; [|lia].
    cbn [quiet] in Hq. by apply andb_true_iff in Hq as [_ Hq].
Qed.

Lemma findall_end class_ property_ fuel :
  Re.findall_go fuel (rule class_ property_) "" = [].
Proof. destruct fuel; [done|]. cbn [Re.findall_go]. by rewrite match_empty. Qed.

Lemma rule_text_length class_ property hex px frac :
  0 < String.length (rule_text class_ property hex px frac).
Proof. unfold rule_text. rewrite length_append. cbn [String.length]. lia. Qed.

Lemma findall_rule class_ property hex px frac fuel rest :
  number_ok Re.hex_lower 1 3 hex = true → number_ok Py.isdigit 1 3 px = true →
  fraction_ok frac = true →
  Re.findall_go (S fuel) (rule class_ (Re.Lit property))
    (rule_text class_ property hex px frac +:+ rest) =
  [hex; px] :: Re.findall_go fuel (rule class_ (Re.Lit property)) rest.
Proof.
  intros Hhex Hpx Hfrac. cbn [Re.findall_go].
  rewrite (match_rule class_ property hex px frac rest Hhex Hpx Hfrac).
  pose proof (rule_text_length class_ property hex px frac) as Hlen.
  rewrite length_append.
  destruct (_ =? _) eqn:E; [|done]. apply Nat.eqb_eq in E. lia.
Qed.

Lemma sheet_text_cons class_ property it items tail :
  sheet_text class_ property (it :: items) tail =
  before it +:+
  (rule_text class_ property (number it) (whole it) (fraction it) +:+
   sheet_text class_ property items tail).
Proof. done. Qed.

(** The rules of a sheet are found one after the other. *)
Lemma findall_sheet class_ property tail items : ∀ fuel,
  forallb (item_ok class_) items = true → quiet class_ tail = true →
  String.length (sheet_text class_ property items tail) < fuel →
  Re.findall_go fuel (rule class_ (Re.Lit property))
    (sheet_text class_ property items tail) =
  map (λ it, [number it; whole it]) items.
Proof.
  induction items as [|it items IH]; intros fuel Hok Htail Hfuel.
  - cbn [sheet_text fold_right map] in *.
    rewrite <- (append_empty_r tail).
    rewrite findall_quiet by (done || lia). apply findall_end.
  - cbn [forallb] in Hok. apply andb_true_iff in Hok as [Hit Hok].
    unfold item_ok in Hit.
    apply andb_true_iff in Hit as [Hit Hfrac].
    apply andb_true_iff in Hit as [Hit Hpx].
    apply andb_true_iff in Hit as [Hq Hhex].
    rewrite sheet_text_cons in *. rewrite !length_append in Hfuel.
    pose proof (rule_text_length class_ property (number it) (whole it)
                  (fraction it)) as Hlen.
    rewrite findall_quiet by (done || lia).
    destruct (fuel - String.length (before it)) as [|fuel'] eqn:Hf; [lia|].
    rewrite findall_rule by done. cbn [map]. f_equal.
    apply IH; [done|done|lia].
Qed.

Lemma int_go_digits s : ∀ acc,
  all_chars Py.isdigit s = true → is_Some (int_go acc s).
Proof.
  induction s as [|c s IH]; intros acc H; [by eexists|].
  cbn [all_chars] in H. apply andb_true_iff in H as [Hc H].
  cbn [int_go]. rewrite Hc. by apply IH.
Qed.

Lemma int10_digits px :
  number_ok Py.isdigit 1 3 px = true →
  int10 px = Ok (default 0%Z (int_go 0 px)).
Proof.
  intros H. apply number_ok_inv in H as (Hall & Hlo & _).
  destruct (int_go_digits px 0%Z Hall) as [v Hv].
  unfold int10. destruct px as [|c px]; [cbn [String.length] in Hlo; lia|].
  by rewrite Hv.
Qed.

Lemma sizes_of_matches items : ∀ acc,
  forallb (λ it, number_ok Py.isdigit 1 3 (whole it)) items = true →
  for_each
    (λ sizes groups,
       match groups with
       | [hex_; px_] => v ← int10 px_; Ok (dict_set hex_ v sizes)
       | _ => Raise ValueError
       end)
    (map (λ it, [number it; whole it]) items) acc =
  Ok (fold_left
        (λ m it, dict_set (number it) (default 0%Z (int_go 0 (whole it))) m)
        items acc).
Proof.
  induction items as [|it items IH]; intros acc Hok; [done|].
  cbn [forallb] in Hok. apply andb_true_iff in Hok as [Hit Hok].
  cbn [map for_each fold_left]. rewrite (int10_digits _ Hit).
  cbn [mbind res_bind]. by apply IH.
Qed.

(** X25.  [css_sizes] on a stylesheet, for a class whose property is a
    plain word ([fs], [h], [x], [y] and the others but [_]): the sheet
    holds rules of the class, each with a class number of one to three
    characters of [0-9a-f] and a size of one to three digits with or
    without a fraction, and between them text in which no rule of the
    class begins, rules of other classes for one.  The result has the
    whole pixels of every rule, the fraction cut off and not rounded; a
    class number that comes again keeps its place and takes the later
    size. *)
Theorem css_sizes_reads_sheet (class_ property : string)
  (items : list css_item) (tail : string) :
  dict_get class_ CSS_CLASS_MAP = Some (Re.Lit property) →
  forallb (item_ok class_) items = true → quiet class_ tail = true →
  css_sizes class_ (sheet_text class_ property items tail) =
  Ok (sheet_sizes items).
Proof.
  intros Hclass Hok Htail. unfold css_sizes. rewrite Hclass.
  cbn [of_option mbind res_bind]. unfold Re.findall.
  rewrite findall_sheet by (done || lia).
  apply sizes_of_matches.
  clear Htail. induction items as [|it items IH]; [done|].
  cbn [forallb] in *. apply andb_true_iff in Hok as [Hit Hok].
  rewrite (IH Hok), andb_true_r.
  unfold item_ok in Hit. apply andb_true_iff in Hit as [Hit _].
  by apply andb_true_iff in Hit as [_ Hit].
Qed.

Lemma css_sizes_reads_sheet_witness :
  css_sizes "fs" (sheet_text "fs" "font-size" sample_sheet "") =
  Ok [("0", 7%Z); ("1", 48%Z)].
Proof.
  exact (css_sizes_reads_sheet "fs" "font-size" sample_sheet ""
           eq_refl eq_refl eq_refl).
Defined.

(** ** Rules that are not read *)

Lemma all_chars_app f w v :
  all_chars f (w +:+ v) = all_chars f w && all_chars f v.
Proof.
  induction w as [|a w IH]; [by rewrite append_empty_l|].
  rewrite append_cons. cbn [all_chars]. by rewrite IH, andb_assoc.
Qed.

Lemma all_chars_impl (f g : ascii → bool) s :
  (∀ c, f c = true → g c = true) → all_chars f s = true → all_chars g s = true.
Proof.
  intros Hfg. induction s as [|a s IH]; [done|]. cbn [all_chars].
  intros H. apply andb_true_iff in H as [Ha H].
  by rewrite (Hfg a Ha), IH.
Qed.

(** A run of the class that a string begins with lies within the
    longest one. *)
Lemma prefix_of_run f w : ∀ run rest t,
  all_chars f run = true → stops f rest → run +:+ rest = w +:+ t →
  all_chars f w = true → ∃ v, run = w +:+ v ∧ t = v +:+ rest.
Proof.
  induction w as [|a w IH]; intros run rest t Hrun Hstop Heq Hw.
  - exists run. by rewrite !append_empty_l in *.
  - cbn [all_chars] in Hw. apply andb_true_iff in Hw as [Ha Hw].
    destruct run as [|b run].
    + rewrite append_empty_l, append_cons in Heq. subst rest.
      cbn [stops] in Hstop. congruence.
    + rewrite !append_cons in Heq. injection Heq as -> Heq.
      cbn [all_chars] in Hrun. apply andb_true_iff in Hrun as [_ Hrun].
      destruct (IH run rest t Hrun Hstop Heq Hw) as (v & -> & ->).
      exists v. by rewrite append_cons.
Qed.

Lemma plain_class c p :
  dict_get c CSS_CLASS_MAP = Some (Re.Lit p) →
  all_chars no_stop c = true ∧ all_chars no_stop p = true ∧
  match c with
  | String a _ => Py.isdigit a = false
  | EmptyString => False
  end.
Proof.
  unfold dict_get, CSS_CLASS_MAP. cbn [List.find fst].
  repeat match goal with
  | |- context [String.eqb ?k c] =>
      let E := fresh "E" in
      destruct (String.eqb k c) eqn:E;
      [apply String.eqb_eq in E; subst c;
       cbn [fmap option_fmap option_map snd]; intros [= <-]; by vm_compute|]
  end.
  done.
Qed.

Lemma digit_no_stop c : Py.isdigit c = true → no_stop c = true.
Proof.
  intros H. unfold no_stop. destruct (Ascii.eqb_spec c "."); [|done].
  subst c. by vm_compute in H.
Qed.

Lemma hex_no_stop c : Re.hex_lower c = true → no_stop c = true.
Proof.
  intros H. unfold no_stop. destruct (Ascii.eqb_spec c "."); [|done].
  subst c. by vm_compute in H.
Qed.

(** The pattern matches no rule whose class number has more than three
    characters or whose size has more than three digits. *)
Lemma match_long class_ property hex px frac rest :
  all_chars Re.hex_lower hex = true → all_chars Py.isdigit px = true →
  fraction_ok frac = true →
  3 < String.length hex ∨ 3 < String.length px →
  Re.match_ (rule class_ (Re.Lit property))
    (rule_text class_ property hex px frac +:+ rest) = None.
Proof.
  intros Hhex Hpx Hfrac Hlong.
  rewrite rule_text_app. unfold Re.match_, rule, hex_id, px_value.
  change (Re.run (Re.Cat ?r1 ?r2) ?s ?c ?k) with
    (Re.run r1 s c (λ rest caps', Re.run r2 rest caps' k)).
  rewrite run_Lit.
  change (Re.run (Re.Cat ?r1 ?r2) ?s ?c ?k) with
    (Re.run r1 s c (λ rest caps', Re.run r2 rest caps' k)).
  rewrite run_Lit.
  change (Re.run (Re.Cat ?r1 ?r2) ?s ?c ?k) with
    (Re.run r1 s c (λ rest caps', Re.run r2 rest caps' k)).
  apply run_Group_Rep_none. intros w t Hs Hw Hlen.
  destruct (prefix_of_run Re.hex_lower w hex _ t Hhex
              (eq_refl : stops _ (String "{" _)) Hs Hw) as (v & -> & ->).
  change (Re.run (Re.Cat ?r1 ?r2) ?s ?c ?k) with
    (Re.run r1 s c (λ rest caps', Re.run r2 rest caps' k)).
  destruct v as [|a v].
  2: { rewrite all_chars_app in Hhex. apply andb_true_iff in Hhex as [_ Hv].
       cbn [all_chars] in Hv. apply andb_true_iff in Hv as [Ha _].
       rewrite append_cons. apply run_Lit_fail.
       destruct (Ascii.eqb_spec "{" a) as [<-|Hne]; [by vm_compute in Ha|].
       cbn [Py.startswith].
       destruct (Ascii.eqb "{" a) eqn:E; [by apply Ascii.eqb_eq in E|done]. }
  rewrite append_empty_r in Hlong. rewrite append_empty_l.
  destruct Hlong as [Hlong|Hlong]; [lia|].
  change (String "{" ?x) with ("{" +:+ x).
  rewrite run_Lit.
  change (Re.run (Re.Cat ?r1 ?r2) ?s ?c ?k) with
    (Re.run r1 s c (λ rest caps', Re.run r2 rest caps' k)).
  rewrite run_Lit.
  change (Re.run (Re.Cat ?r1 ?r2) ?s ?c ?k) with
    (Re.run r1 s c (λ rest caps', Re.run r2 rest caps' k)).
  rewrite run_Lit.
  change (Re.run (Re.Cat ?r1 ?r2) ?s ?c ?k) with
    (Re.run r1 s c (λ rest caps', Re.run r2 rest caps' k)).
  change (Re.run (Re.Cat ?r1 ?r2) ?s ?c ?k) with
    (Re.run r1 s c (λ rest caps', Re.run r2 rest caps' k)).
  apply run_Group_Rep_none. intros w2 t2 Hs2 Hw2 Hlen2.
  assert (stops Py.isdigit (frac +:+ ("px" +:+ (";}" +:+ rest)))) as Hstop.
  { destruct frac as [|c ds]; [done|].
    cbn [fraction_ok] in Hfrac. apply andb_true_iff in Hfrac as [Hc _].
    apply Ascii.eqb_eq in Hc. by subst c. }
  destruct (prefix_of_run Py.isdigit w2 px _ t2 Hpx Hstop Hs2 Hw2)
    as (v2 & -> & ->).
  rewrite length_append in Hlong.
  destruct v2 as [|a v2]; [cbn [String.length] in Hlong; lia|].
  rewrite all_chars_app in Hpx. apply andb_true_iff in Hpx as [_ Hv].
  cbn [all_chars] in Hv. apply andb_true_iff in Hv as [Ha _].
  rewrite append_cons. cbn [Re.run Py.startswith].
  destruct (Ascii.eqb_spec "." a) as [<-|Hne1]; [by vm_compute in Ha|].
  destruct (Ascii.eqb_spec "p" a) as [<-|Hne2]; [by vm_compute in Ha|].
  done.
Qed.

Lemma findall_skip fuel r a s :
  Re.match_ r (String a s) = None →
  Re.findall_go (S fuel) r (String a s) = Re.findall_go fuel r s.
Proof. intros H. cbn [Re.findall_go]. by rewrite H. Qed.

Lemma quiet_no_stop c s t :
  all_chars no_stop s = true → quiet c (s +:+ t) = quiet c t.
Proof.
  induction s as [|a s IH]; [by rewrite append_empty_l|].
  cbn [all_chars]. intros H. apply andb_true_iff in H as [Ha H].
  rewrite append_cons. cbn [quiet]. rewrite (IH H).
  unfold no_stop in Ha. apply negb_true_iff in Ha. by rewrite Ha.
Qed.

Lemma quiet_fraction c frac :
  match c with
  | String a _ => Py.isdigit a = false
  | EmptyString => False
  end →
  fraction_ok frac = true → quiet c (frac +:+ "px;}") = true.
Proof.
  intros Hc Hfrac. destruct frac as [|x ds]; [done|].
  cbn [fraction_ok] in Hfrac. apply andb_true_iff in Hfrac as [Hx Hds].
  apply Ascii.eqb_eq in Hx. subst x.
  apply number_ok_inv in Hds as (Hall & Hlo & _).
  rewrite append_cons. cbn [quiet].
  rewrite (quiet_no_stop c ds "px;}")
    by (apply (all_chars_impl Py.isdigit); [apply digit_no_stop|done]).
  destruct c as [|a c]; [done|].
  destruct ds as [|b ds]; [cbn [String.length] in Hlo; lia|].
  cbn [all_chars] in Hall. apply andb_true_iff in Hall as [Hb _].
  rewrite append_cons. cbn [Py.startswith].
  assert (Ascii.eqb a b = false) as Hab.
  { destruct (Ascii.eqb_spec a b); [congruence|done]. }
  rewrite Hab, (Ascii.eqb_sym b a), Hab. done.
Qed.



(** ** What the matcher finds is a match *)

Lemma startswith_split l : ∀ s,
  Py.startswith l s = true → s = l +:+ Re.drop (String.length l) s.
Proof.
  induction l as [|a l IH]; intros s H.
  - rewrite append_empty_l. by destruct s.
  - destruct s as [|b s]; [done|]. cbn [Py.startswith] in H.
    apply andb_true_iff in H as [Hab H]. apply Ascii.eqb_eq in Hab. subst b.
    rewrite append_cons. cbn [String.length Re.drop]. f_equal. by apply IH.
Qed.

Lemma rep_inv {A : Type} f hi : ∀ lo s (k : string → option A) a,
  Re.rep f lo hi s k = Some a →
  ∃ w rest, s = w +:+ rest ∧ all_chars f w = true ∧
            lo ≤ String.length w ∧ String.length w ≤ hi ∧ k rest = Some a.
Proof.
  assert (∀ lo s (k : string → option A) a n,
            (if lo =? 0 then k s else None) = Some a →
            ∃ w rest, s = w +:+ rest ∧ all_chars f w = true ∧
                      lo ≤ String.length w ∧ String.length w ≤ n ∧
                      k rest = Some a) as Hstop.
  { intros lo s k a n H. destruct (lo =? 0) eqn:Hlo; [|done].
    apply Nat.eqb_eq in Hlo. subst lo.
    exists "", s. rewrite append_empty_l. cbn [String.length all_chars].
    split_and!; [done|done|lia|lia|done]. }
  induction hi as [|hi IH]; intros lo s k a H.
  - cbn [Re.rep] in H. apply Hstop. by destruct s.
  - cbn [Re.rep] in H. destruct s as [|c s]; [by apply Hstop|].
    destruct (f c) eqn:Hc; [|by apply Hstop].
    destruct (Re.rep f (pred lo) hi s k) as [a'|] eqn:Hrec; [|by apply Hstop].
    injection H as ->.
    destruct (IH _ _ _ _ Hrec) as (w & rest & -> & Hw & Hlo & Hhi & Hk).
    exists (String c w), rest. rewrite append_cons.
    cbn [all_chars String.length]. rewrite Hc, Hw.
    split_and!; [done|done|lia|lia|done].
Qed.

Lemma lazy_inv {A : Type} f s : ∀ (k : string → option A) a,
  Re.lazy f s k = Some a →
  ∃ w rest, s = w +:+ rest ∧ all_chars f w = true ∧ k rest = Some a.
Proof.
  induction s as [|c s IH]; intros k a H.
  - cbn [Re.lazy] in H. exists "", "". destruct (k ""); [done|done].
  - cbn [Re.lazy] in H. destruct (k (String c s)) as [a'|] eqn:Hk.
    + injection H as ->. exists "", (String c s). by rewrite append_empty_l.
    + destruct (f c) eqn:Hc; [|done].
      destruct (IH k a H) as (w & rest & -> & Hw & Hk').
      exists (String c w), rest. rewrite append_cons. cbn [all_chars].
      by rewrite Hc, Hw.
Qed.

(** The matcher is sound: what it finds is a match of the pattern, and
    the rest of the pattern is matched after it. *)
Lemma run_inv {A : Type} (r : Re.regex) :
  ∀ s caps (k : string → list string → option A) a,
  Re.run r s caps k = Some a →
  ∃ w rest groups, s = w +:+ rest ∧ matches r w groups ∧
                   k rest (caps ++ groups) = Some a.
Proof.
  induction r as [l|f lo hi|f|f|r IH|r IH|r1 IH1 r2 IH2]; intros s caps k a H.
  - cbn [Re.run] in H. destruct (Py.startswith l s) eqn:Hl; [|done].
    exists l, (Re.drop (String.length l) s), [].
    rewrite app_nil_r. split_and!; [by apply startswith_split|done|done].
  - cbn [Re.run] in H.
    destruct (rep_inv _ _ _ _ _ _ H) as (w & rest & -> & Hw & Hlo & Hhi & Hk).
    exists w, rest, []. rewrite app_nil_r. by split_and!.
  - cbn [Re.run] in H.
    destruct (rep_inv _ _ _ _ _ _ H) as (w & rest & Hs & Hw & Hlo & Hhi & Hk).
    exists w, rest, []. rewrite app_nil_r. by split_and!.
  - cbn [Re.run] in H.
    destruct (lazy_inv _ _ _ _ H) as (w & rest & -> & Hw & Hk).
    exists w, rest, []. rewrite app_nil_r. by split_and!.
  - cbn [Re.run] in H. destruct (Re.run r s caps k) as [a'|] eqn:Hr.
    + injection H as ->.
      destruct (IH _ _ _ _ Hr) as (w & rest & groups & -> & Hm & Hk).
      exists w, rest, groups. split_and!; [done|by right|done].
    + exists "", s, []. rewrite app_nil_r, append_empty_l.
      split_and!; [done|by left|done].
  - cbn [Re.run] in H.
    destruct (IH _ _ _ _ H) as (w & rest & groups & -> & Hm & Hk).
    rewrite take_length_app in Hk.
    exists w, rest, (groups ++ [w]). split_and!; [done| |by rewrite app_assoc].
    by exists groups.
  - cbn [Re.run] in H.
    destruct (IH1 _ _ _ _ H) as (w1 & rest1 & g1 & -> & Hm1 & Hk1).
    destruct (IH2 _ _ _ _ Hk1) as (w2 & rest & g2 & -> & Hm2 & Hk).
    exists (w1 +:+ w2), rest, (g1 ++ g2).
    split_and!; [by rewrite append_assoc| |by rewrite app_assoc].
    by exists w1, w2, g1, g2.
Qed.

Lemma property_groups c r :
  dict_get c CSS_CLASS_MAP = Some r → ∀ w g, matches r w g → g = [].
Proof.
  unfold dict_get, CSS_CLASS_MAP. cbn [List.find fst].
  repeat match goal with
  | |- context [String.eqb ?k c] =>
      let E := fresh "E" in
      destruct (String.eqb k c) eqn:E;
      [cbn [fmap option_fmap option_map snd]; intros [= <-] w g;
       cbn [matches]; intros H; clear E|]
  end; [|by destruct H..|done].
  destruct H as (w1 & w2 & g1 & g2 & _ & -> & [_ ->] & [_ ->]). done.
Qed.

(** The groups of a match of the pattern: a class number and whole
    pixels. *)
Lemma rule_groups c r w g :
  (∀ w g, matches r w g → g = []) → matches (rule c r) w g →
  ∃ hex px, g = [hex; px] ∧ number_ok Re.hex_lower 1 3 hex = true ∧
            number_ok Py.isdigit 1 3 px = true.
Proof.
  intros Hr. unfold rule, hex_id, px_value. cbn [matches].
  intros (w1 & w2 & g1 & g2 & _ & -> & [_ ->] & H).
  destruct H as (w3 & w4 & g3 & g4 & _ & -> & [_ ->] & H).
  destruct H as (w5 & w6 & g5 & g6 & _ & -> & Hhex & H).
  destruct Hhex as (i5 & (Hhex & Hlo & Hhi & ->) & ->).
  destruct H as (w7 & w8 & g7 & g8 & _ & -> & [_ ->] & H).
  destruct H as (w9 & w10 & g9 & g10 & _ & -> & Hprop & H).
  apply Hr in Hprop. subst g9.
  destruct H as (w11 & w12 & g11 & g12 & _ & -> & [_ ->] & H).
  destruct H as (w13 & w14 & g13 & g14 & _ & -> & Hpx & [_ ->]).
  destruct Hpx as (w15 & w16 & g15 & g16 & _ & -> & Hpx & H).
  destruct Hpx as (i15 & (Hpx & Hplo & Hphi & ->) & ->).
  destruct H as (w17 & w18 & g17 & g18 & _ & -> & Hopt & [_ ->]).
  assert (g17 = []) as ->.
  { destruct Hopt as [[_ ->]|Hopt]; [done|].
    by destruct Hopt as (? & ? & ? & ? & _ & -> & [_ ->] & (_ & _ & ->)). }
  exists w5, w15. split; [done|]. unfold number_ok.
  rewrite Hhex, Hpx, !andb_true_r.
  split; apply andb_true_iff; split; by apply Nat.leb_le.
Qed.

Lemma findall_groups c r fuel : ∀ s,
  (∀ w g, matches r w g → g = []) →
  Forall (λ g, ∃ hex px, g = [hex; px] ∧
                 number_ok Re.hex_lower 1 3 hex = true ∧
                 number_ok Py.isdigit 1 3 px = true)
         (Re.findall_go fuel (rule c r) s).
Proof.
  intros s Hr. revert s. induction fuel as [|fuel IH]; intros s; [by constructor|].
  cbn [Re.findall_go].
  assert (Forall (λ g, ∃ hex px, g = [hex; px] ∧
                   number_ok Re.hex_lower 1 3 hex = true ∧
                   number_ok Py.isdigit 1 3 px = true)
            match s with
            | String _ s' => Re.findall_go fuel (rule c r) s'
            | EmptyString => []
            end) as Hnext.
  { destruct s; [by constructor|apply IH]. }
  destruct (Re.match_ (rule c r) s) as [[rest caps]|] eqn:Hm; [|done].
  unfold Re.match_ in Hm.
  destruct (run_inv _ _ _ _ _ Hm) as (w & rest' & g & _ & Hg & [= <- <-]).
  apply (rule_groups c r w g Hr) in Hg.
  destruct (_ =? _); constructor; done.
Qed.

Lemma int_go_bound s : ∀ acc, (0 ≤ acc)%Z →
  all_chars Py.isdigit s = true →
  ∃ v, int_go acc s = Some v ∧
       (acc * 10 ^ Z.of_nat (String.length s) ≤ v
        < (acc + 1) * 10 ^ Z.of_nat (String.length s))%Z.
Proof.
  induction s as [|c s IH]; intros acc Hacc H.
  - exists acc. cbn [int_go String.length]. split; [done|]. simpl. lia.
  - cbn [all_chars] in H. apply andb_true_iff in H as [Hc H].
    cbn [int_go]. rewrite Hc.
    assert (0 ≤ Z.of_nat (nat_of_ascii c - 48) ≤ 9)%Z as Hd.
    { unfold Py.isdigit in Hc. apply andb_true_iff in Hc as [H1 H2].
      apply Nat.leb_le in H1, H2. lia. }
    destruct (IH (10 * acc + Z.of_nat (nat_of_ascii c - 48))%Z) as (v & Hv & Hb);
      [lia|done|].
    exists v. split; [done|].
    cbn [String.length]. rewrite Nat2Z.inj_succ, Z.pow_succ_r by lia.
    pose proof (Z.pow_pos_nonneg 10 (Z.of_nat (String.length s))) as Hpos.
    nia.
Qed.

Lemma dict_set_Forall {V : Type} (Q : string * V → Prop) k v (m : dict V) :
  Q (k, v) → (∀ k' v', Q (k', v') → String.eqb k' k = true → Q (k', v)) →
  Forall Q m → Forall Q (dict_set k v m).
Proof.
  intros Hkv Hsame. induction m as [|[k' v'] m IH]; intros Hm.
  - by constructor.
  - apply Forall_cons in Hm as [Hk' Hm]. cbn [dict_set].
    destruct (String.eqb k' k) eqn:E; constructor; eauto.
Qed.

(** X27.  [css_sizes] on any text whatever: it raises [KeyError] for a
    class that [CSS_CLASS_MAP] does not have, and nothing for one it
    has.  Every class number of the result is one to three characters of
    [0-9a-f] and every size is a whole number from 0 to 999. *)
Theorem css_sizes_total (class_ css : string) :
  match dict_get class_ CSS_CLASS_MAP with
  | None => css_sizes class_ css = Raise KeyError
  | Some _ =>
      ∃ sizes, css_sizes class_ css = Ok sizes ∧
        Forall (λ kv, number_ok Re.hex_lower 1 3 (fst kv) = true ∧
                      (0 ≤ snd kv < 1000)%Z) sizes
  end.
Proof.
  unfold css_sizes.
  destruct (dict_get class_ CSS_CLASS_MAP) as [r|] eqn:Hr; [|done].
  cbn [of_option mbind res_bind].
  pose proof (findall_groups class_ r (S (String.length css)) css
                (property_groups class_ r Hr)) as Hall.
  unfold Re.findall.
  generalize dependent (Re.findall_go (S (String.length css)) (rule class_ r) css).
  intros l Hall.
  assert (Forall (λ kv : string * Z,
                    number_ok Re.hex_lower 1 3 (fst kv) = true ∧
                    (0 ≤ snd kv < 1000)%Z) []) as Hacc by constructor.
  generalize dependent (@nil (string * Z)).
  induction Hall as [|g l (hex & px & -> & Hhex & Hpx) _ IH]; intros acc Hacc.
  - by exists acc.
  - cbn [for_each]. rewrite (int10_digits px Hpx). cbn [mbind res_bind].
    apply IH.
    apply number_ok_inv in Hpx as (Hall & Hlo & Hhi).
    destruct (int_go_bound px 0%Z (Z.le_refl 0) Hall) as (v & -> & Hv).
    cbn [default id].
    assert (10 ^ Z.of_nat (String.length px) ≤ 1000)%Z as Hpow.
    { change 1000%Z with (10 ^ 3)%Z. apply Z.pow_le_mono_r; lia. }
    apply dict_set_Forall; [cbn [fst snd]; split; [done|lia]| |done].
    intros k' v' [Hk' _] _. cbn [fst snd] in *. split; [done|lia].
Qed.

(** ** From the stylesheet to the size of an element *)

Lemma dict_get_set {V : Type} (k k' : string) (v : V) (m : dict V) :
  dict_get k (dict_set k' v m) =
  if String.eqb k' k then Some v else dict_get k m.
Proof.
  unfold dict_get. induction m as [|[k0 v0] m IH].
  - cbn [dict_set List.find fst]. by destruct (String.eqb k' k).
  - cbn [dict_set]. destruct (String.eqb k0 k') eqn:E0.
    + apply String.eqb_eq in E0. subst k0. cbn [List.find fst].
      by destruct (String.eqb k' k).
    + cbn [List.find fst]. destruct (String.eqb k0 k) eqn:E1.
      * apply String.eqb_eq in E1. subst k0.
        rewrite String.eqb_sym in E0. by rewrite E0.
      * exact IH.
Qed.

(** The size a class number has in the end is that of its last rule. *)
Lemma dict_get_sheet k items : ∀ acc,
  dict_get k
    (fold_left
       (λ m it, dict_set (number it) (default 0%Z (int_go 0 (whole it))) m)
       items acc) =
  match List.find (λ it, String.eqb (number it) k) (rev items) with
  | Some it => Some (default 0%Z (int_go 0 (whole it)))
  | None => dict_get k acc
  end.
Proof.
  induction items as [|it items IH] using rev_ind; intros acc; [done|].
  rewrite fold_left_app, rev_unit. cbn [fold_left List.find].
  rewrite dict_get_set. destruct (String.eqb (number it) k); [done|]. apply IH.
Qed.


